(** * Timeline synthesis, scene matching and audio mixing of the shorts generator

    A shallow embedding of the quiz template ([template_quiz.py]), the video
    processor ([video_processor.py]), the sound-effect manager
    ([sfx_manager.py]) and the background-music mixer of the engine
    ([shorts_engine.py]); of the code around them: the visuals of the quiz,
    the timing of the tip template ([template_tip.py]) and of the JSON
    generator ([template_quiz_json_generator.py]), the subtitle chunks
    ([karaoke_manager.py]), the column letters and output file names of
    [main_shorts_generator.py] and the quota books of
    [voice_usage_tracker.py]; followed by the properties proved about them.

    Modelling conventions.
    - Times, durations, volumes and zoom scales are Python floats in the
      source.  They are modelled as exact rationals ([Q]); [==] is equality
      of rationals.  Rounding of binary floating point is not modelled.
    - Python [str] is modelled as [string] (8-bit characters); [lower],
      [split], [strip] and lengths are those of Python on ASCII text only,
      and the theorems that depend on them are stated for ASCII text.
    - A [dict] is a [gmap]; a dict literal whose iteration order matters is
      an association list in insertion order.
    - A lookup [d[k]] that raises [KeyError] is a lookup in the option monad.
    - A [while] loop without a bound takes a fuel argument; the theorems
      about it give the fuel that is enough.
    - The media library (moviepy) is outside the repository: a clip is a
      small syntax tree recording which operations were applied to it.  A
      call that the code guards with [try], and the looping of an audio
      clip, can raise: the model takes whether they do as an input. *)

From Stdlib Require Import Ascii String QArith Qround Lqa.
From stdpp Require Import gmap strings list fin_maps pretty.

Open Scope Q_scope.

(* ===================================================================== *)
(** * template_quiz.py                                                     *)
(* ===================================================================== *)

Module QuizTemplate.

(** An opened audio file: [AudioFileClip(path)] and its [.duration]. *)
Record AudioFileClip := mkAudio { clip_path : string; duration : Q }.

(** A clip positioned on the output track: [clip.set_start(t)]. *)
Record Placed := set_start_of { placed_clip : AudioFileClip; placed_start : Q }.

Definition set_start (c : AudioFileClip) (t : Q) : Placed := set_start_of c t.

Definition placed_end (p : Placed) : Q := placed_start p + duration (placed_clip p).

(** The dict literal [audio_tasks], in insertion order.  A missing script
    field raises [KeyError]. *)
Definition audio_tasks (script : gmap string string) : option (list (string * string)) :=
  hook ← script !! "hook_spoken";
  question ← script !! "question_spoken";
  opt_a ← script !! "opt_a_spoken";
  opt_b ← script !! "opt_b_spoken";
  opt_c ← script !! "opt_c_spoken";
  opt_d ← script !! "opt_d_spoken";
  correct ← script !! "correct_opt";
  expl ← script !! "explanation_spoken";
  cta ← script !! "cta_spoken";
  Some [ ("hook", hook);
         ("question", question);
         ("opt_a", "A: " +:+ opt_a);
         ("opt_b", "B: " +:+ opt_b);
         ("opt_c", "C: " +:+ opt_c);
         ("opt_d", "D: " +:+ opt_d);
         ("think", "Think fast!");
         ("explanation", "The answer is " +:+ correct +:+ "! " +:+ expl);
         ("cta", cta) ].

Section Generate.
(** [temp_dir] and [vid_id] of the call. *)
Variables temp_dir vid_id : string.

(** The file system once the pool has drained: the duration of the
    audio file stored at a path.  Every path is written by exactly one
    task, so this does not depend on the order of completion. *)
Variable audio_duration : string → Q.

(** [generate_single_audio(key, text)]: synthesizes into
    [f"{temp_dir}/{vid_id}_{key}.mp3"] and returns the key and the path. *)
Definition generate_single_audio (key text : string) : string * string :=
  (key, temp_dir +:+ "/" +:+ vid_id +:+ "_" +:+ key +:+ ".mp3").

(** ** The bounded worker pool

    [ThreadPoolExecutor(max_workers=5)]: the futures are submitted in
    the order of [audio_tasks.items()]; at most five run at a time; any
    running task may finish next.  [as_completed] hands the results to
    the main thread in the order of completion, where they are stored
    under their key. *)
Definition max_workers : nat := 5.

Record PoolState := mkPool {
  pending : list (string * string);          (* submitted, not started *)
  running : list (string * string);          (* held by a worker *)
  generated_audio_paths : gmap string string;
  audio_files : list string
}.

Definition submit_all (tasks : list (string * string)) : PoolState :=
  mkPool tasks [] ∅ [].

Inductive pool_step : PoolState → PoolState → Prop :=
| step_start t q r g fs :
    (length r < max_workers)%nat →
    pool_step (mkPool (t :: q) r g fs) (mkPool q (r ++ [t]) g fs)
| step_complete q r1 k text r2 g fs :
    pool_step (mkPool q (r1 ++ (k, text) :: r2) g fs)
              (mkPool q (r1 ++ r2)
                      (<[(generate_single_audio k text).1 :=
                           (generate_single_audio k text).2]> g)
                      (fs ++ [(generate_single_audio k text).2])).

Inductive pool_run : PoolState → PoolState → Prop :=
| run_refl s : pool_run s s
| run_step s1 s2 s3 : pool_step s1 s2 → pool_run s2 s3 → pool_run s1 s3.

Definition drained (s : PoolState) : Prop := pending s = [] ∧ running s = [].

(** An executable scheduler, to run the pool on a concrete choice of
    events: start the next pending task, or let the [i]-th running task
    finish. *)
Inductive event := Start | Finish (i : nat).

Definition fire (e : event) (s : PoolState) : option PoolState :=
  match e with
  | Start =>
      match pending s with
      | t :: q =>
          if decide (length (running s) < max_workers)%nat
          then Some (mkPool q (running s ++ [t]) (generated_audio_paths s) (audio_files s))
          else None
      | [] => None
      end
  | Finish i =>
      match running s !! i with
      | Some (k, text) =>
          Some (mkPool (pending s) (take i (running s) ++ drop (S i) (running s))
                  (<[(generate_single_audio k text).1 :=
                       (generate_single_audio k text).2]> (generated_audio_paths s))
                  (audio_files s ++ [(generate_single_audio k text).2]))
      | None => None
      end
  end.

Fixpoint run_schedule (es : list event) (s : PoolState) : option PoolState :=
  match es with
  | [] => Some s
  | e :: es' => s' ← fire e s; run_schedule es' s'
  end.

(** ** Timing *)
Record Timeline := mkTimeline {
  t_hook : Q; t_q : Q; t_a : Q; t_b : Q; t_c : Q; t_d : Q;
  t_think : Q; t_ans : Q; t_cta : Q; t_outro : Q;
  total_dur : Q
}.

(** The nine opened narration clips. *)
Record Narration := mkNarration {
  aud_hook : AudioFileClip; aud_q : AudioFileClip;
  aud_a : AudioFileClip; aud_b : AudioFileClip;
  aud_c : AudioFileClip; aud_d : AudioFileClip;
  aud_think : AudioFileClip; aud_expl : AudioFileClip;
  aud_cta : AudioFileClip
}.

Definition open_clip (g : gmap string string) (key : string) : option AudioFileClip :=
  path ← g !! key;
  Some (mkAudio path (audio_duration path)).

Definition open_clips (g : gmap string string) : option Narration :=
  hook ← open_clip g "hook";
  q ← open_clip g "question";
  a ← open_clip g "opt_a";
  b ← open_clip g "opt_b";
  c ← open_clip g "opt_c";
  d ← open_clip g "opt_d";
  think ← open_clip g "think";
  expl ← open_clip g "explanation";
  cta ← open_clip g "cta";
  Some (mkNarration hook q a b c d think expl cta).

Definition THINK_TIME : Q := 3.0.
Definition OUTRO_DURATION : Q := 4.0.

Definition timing (n : Narration) : Timeline :=
  let t_hook := 0 in
  let t_q := t_hook + duration (aud_hook n) in
  let t_a := t_q + duration (aud_q n) in
  let t_b := t_a + duration (aud_a n) in
  let t_c := t_b + duration (aud_b n) in
  let t_d := t_c + duration (aud_c n) in
  let t_think := t_d + duration (aud_d n) in
  let t_ans := t_think + THINK_TIME in
  let t_cta := t_ans + duration (aud_expl n) in
  let t_outro := t_cta + duration (aud_cta n) in
  let total_dur := t_outro + OUTRO_DURATION in
  mkTimeline t_hook t_q t_a t_b t_c t_d t_think t_ans t_cta t_outro total_dur.

(** The timings handed to the sound-effect manager. *)
Definition sfx_timings (tl : Timeline) : gmap string Q :=
  <["outro" := t_outro tl]> (<["cta" := t_cta tl]> (<["ans" := t_ans tl]>
  (<["think" := t_think tl]> (<["d" := t_d tl]> (<["c" := t_c tl]>
  (<["b" := t_b tl]> (<["a" := t_a tl]> (<["q" := t_q tl]> ∅)))))))).

(** The narration part of the audio stack. *)
Definition audio_list (n : Narration) (tl : Timeline) : list Placed :=
  [ set_start (aud_hook n) (t_hook tl); set_start (aud_q n) (t_q tl);
    set_start (aud_a n) (t_a tl); set_start (aud_b n) (t_b tl);
    set_start (aud_c n) (t_c tl); set_start (aud_d n) (t_d tl);
    set_start (aud_think n) (t_think tl); set_start (aud_expl n) (t_ans tl);
    set_start (aud_cta n) (t_cta tl) ].

(** The clip a role has once its task is done, whatever the order. *)
Definition role_clip (key : string) : AudioFileClip :=
  let path := (generate_single_audio key "").2 in
  mkAudio path (audio_duration path).

Definition narration_by_role : Narration :=
  mkNarration (role_clip "hook") (role_clip "question")
    (role_clip "opt_a") (role_clip "opt_b") (role_clip "opt_c") (role_clip "opt_d")
    (role_clip "think") (role_clip "explanation") (role_clip "cta").

(** From the drained pool to the timeline and the placed narration. *)
Definition generate_timeline (s : PoolState) : option Timeline :=
  n ← open_clips (generated_audio_paths s);
  Some (timing n).

Definition generate_audio_list (s : PoolState) : option (list Placed) :=
  n ← open_clips (generated_audio_paths s);
  Some (audio_list n (timing n)).

End Generate.

(** The starts in role order, and the step that leads from each to the
    next: the duration of the role's clip, except the fixed pause after
    the think start. *)
Definition starts (tl : Timeline) : list Q :=
  [ t_hook tl; t_q tl; t_a tl; t_b tl; t_c tl; t_d tl;
    t_think tl; t_ans tl; t_cta tl; t_outro tl ].

Definition steps (n : Narration) : list Q :=
  [ duration (aud_hook n); duration (aud_q n); duration (aud_a n);
    duration (aud_b n); duration (aud_c n); duration (aud_d n);
    THINK_TIME; duration (aud_expl n); duration (aud_cta n) ].

Definition durations (n : Narration) : list Q :=
  [ duration (aud_hook n); duration (aud_q n); duration (aud_a n);
    duration (aud_b n); duration (aud_c n); duration (aud_d n);
    duration (aud_think n); duration (aud_expl n); duration (aud_cta n) ].

(** Two placed clips overlap when some instant lies in both half-open
    intervals [start, start + duration). *)
Definition overlap (p1 p2 : Placed) : Prop :=
  ∃ t, placed_start p1 <= t ∧ t < placed_end p1 ∧
       placed_start p2 <= t ∧ t < placed_end p2.

Definition non_overlapping (l : list Placed) : Prop :=
  ∀ i j p1 p2, (i < j)%nat → l !! i = Some p1 → l !! j = Some p2 → ¬ overlap p1 p2.

(** [n] with another clip in the think slot. *)
Definition with_think (n : Narration) (c : AudioFileClip) : Narration :=
  mkNarration (aud_hook n) (aud_q n) (aud_a n) (aud_b n) (aud_c n) (aud_d n)
    c (aud_expl n) (aud_cta n).

End QuizTemplate.

(* ===================================================================== *)
(** * prompt_manager.py: the quiz script                                   *)
(* ===================================================================== *)

Module PromptManager.

(** The JSON object the quiz prompt asks for. *)
Record QuizScript := mkQuizScript {
  filename_slug : string;
  hook_spoken : string;
  question_visual : string;
  question_spoken : string;
  opt_a_visual : string; opt_a_spoken : string;
  opt_b_visual : string; opt_b_spoken : string;
  opt_c_visual : string; opt_c_spoken : string;
  opt_d_visual : string; opt_d_spoken : string;
  correct_opt : string;
  explanation_visual : string;
  explanation_spoken : string;
  cta_spoken : string
}.

(** The parsed payload: the dict handed to the templates. *)
Definition payload (q : QuizScript) : gmap string string :=
  list_to_map
    [ ("filename_slug", filename_slug q);
      ("hook_spoken", hook_spoken q);
      ("question_visual", question_visual q);
      ("question_spoken", question_spoken q);
      ("opt_a_visual", opt_a_visual q); ("opt_a_spoken", opt_a_spoken q);
      ("opt_b_visual", opt_b_visual q); ("opt_b_spoken", opt_b_spoken q);
      ("opt_c_visual", opt_c_visual q); ("opt_c_spoken", opt_c_spoken q);
      ("opt_d_visual", opt_d_visual q); ("opt_d_spoken", opt_d_spoken q);
      ("correct_opt", correct_opt q);
      ("explanation_visual", explanation_visual q);
      ("explanation_spoken", explanation_spoken q);
      ("cta_spoken", cta_spoken q) ].

End PromptManager.

(* ===================================================================== *)
(** * Python string operations (ASCII range)                               *)
(* ===================================================================== *)

Module PyStr.

(** The operations below are those of Python on ASCII text.  Python also
    folds capitals and splits at white space beyond ASCII (such as U+00A0),
    and counts code points where [String.length] counts bytes; the theorems
    that rest on these operations therefore assume ASCII text. *)

(** [str.isspace] on one ASCII character: tab, line feed, vertical tab,
    form feed, carriage return, the four separators 0x1c-0x1f, and space. *)
Definition is_space (c : ascii) : bool :=
  let n := nat_of_ascii c in
  ((9 <=? n) && (n <=? 13) || (28 <=? n) && (n <=? 32))%nat.

(** [str.lower] on one ASCII character. *)
Definition lower_char (c : ascii) : ascii :=
  let n := nat_of_ascii c in
  if ((65 <=? n) && (n <=? 90))%nat then ascii_of_nat (n + 32) else c.

(** [s.lower()] *)
Fixpoint lower (s : string) : string :=
  match s with
  | EmptyString => EmptyString
  | String c s' => String (lower_char c) (lower s')
  end.

Definition is_empty (s : string) : bool :=
  match s with EmptyString => true | _ => false end.

(** [s.split()]: the maximal runs of non-space characters, in order.
    [cur] is the word being read. *)
Fixpoint split_from (cur : string) (s : string) : list string :=
  match s with
  | EmptyString => if is_empty cur then [] else [cur]
  | String c s' =>
      if is_space c
      then (if is_empty cur then split_from "" s' else cur :: split_from "" s')
      else split_from (cur +:+ String c "") s'
  end.

Definition split (s : string) : list string := split_from "" s.

Definition char_in (c : ascii) (chars : string) : bool :=
  bool_decide (c ∈ list_ascii_of_string chars).

(** [s.lstrip(chars)], [s.rstrip(chars)], [s.strip(chars)] *)
Fixpoint lstrip (chars : string) (s : string) : string :=
  match s with
  | EmptyString => EmptyString
  | String c s' => if char_in c chars then lstrip chars s' else s
  end.

Fixpoint rstrip (chars : string) (s : string) : string :=
  match s with
  | EmptyString => EmptyString
  | String c s' =>
      let r := rstrip chars s' in
      if is_empty r && char_in c chars then EmptyString else String c r
  end.

Definition strip (chars : string) (s : string) : string :=
  rstrip chars (lstrip chars s).

(** [needle in hay] *)
Fixpoint contains (needle hay : string) : bool :=
  String.prefix needle hay ||
  match hay with
  | EmptyString => false
  | String _ hay' => contains needle hay'
  end.

End PyStr.

(* ===================================================================== *)
(** * video_processor.py                                                   *)
(* ===================================================================== *)

Definition Qlt_bool (x y : Q) : bool := negb (Qle_bool y x).

(** How a piece of Python code ends in the model. *)
Inductive outcome (A : Type) : Type :=
| Done (a : A)          (* normal completion *)
| Raised                (* an exception escaped *)
| OutOfFuel.            (* the model's iteration budget was too small *)
Arguments Done {A} a.
Arguments Raised {A}.
Arguments OutOfFuel {A}.

Module VideoProcessor.

(** A transcript segment: [seg['start']], [seg['end']], [seg['text']]. *)
Record Segment := mkSegment { start : Q; end_ : Q; text : string }.

(** The test of the scan in [find_best_timestamp]. *)
Definition seg_matches (keyword : string) (last_end_time : Q) (seg : Segment) : bool :=
  Qle_bool last_end_time (start seg) &&
  PyStr.contains (PyStr.lower keyword) (PyStr.lower (text seg)).

(** The [for seg in segments] loop with its early [return]: [Some t] when
    the loop returned [t], [None] when it ran to the end. *)
Fixpoint scan (segments : list Segment) (keyword : string) (last_end_time : Q) : option Q :=
  match segments with
  | [] => None
  | seg :: rest =>
      if seg_matches keyword last_end_time seg then Some (start seg)
      else scan rest keyword last_end_time
  end.

(** [keyword] is [None] or a string; the empty string is falsy. *)
Definition find_best_timestamp (segments : list Segment) (keyword : option string)
    (last_end_time : Q) : Q :=
  match keyword with
  | Some kw =>
      if negb (PyStr.is_empty kw) && (3 <? String.length kw)%nat then
        match scan segments kw last_end_time with
        | Some t => t
        | None => last_end_time + 40
        end
      else last_end_time + 40
  | None => last_end_time + 40
  end.

(** [apply_micro_zoom]: the scale function handed to [clip.resize];
    [None] when [0.05 / duration] raises [ZeroDivisionError]. *)
Definition apply_micro_zoom (index : nat) (duration : Q) : option (Q → Q) :=
  if Qeq_bool duration 0 then None
  else
    let speed := 0.05 / duration in
    if (index mod 2 =? 0)%nat
    then Some (λ t, 1 + speed * t)
    else Some (λ t, 1.05 - speed * t).

Definition stop_words : gset string :=
  list_to_set
    [ "the"; "a"; "an"; "is"; "are"; "was"; "were"; "what"; "to"; "in";
      "of"; "and"; "for"; "on"; "with"; "at"; "by"; "this"; "that";
      "these"; "those"; "which"; "who"; "when"; "where"; "how"; "why" ].

(** [script.get(key, '')] *)
Definition get (script : gmap string string) (key : string) : string :=
  default "" (script !! key).

(** The list comprehension building [clean_words]. *)
Definition clean (words : list string) : list string :=
  (PyStr.strip ".,?!") <$>
    filter (λ w, (PyStr.strip ".,?!" w ∉ stop_words) ∧ (4 < String.length w)%nat) words.

(** The loop filling [ordered] while recording [seen]. *)
Fixpoint dedup_loop (clean_words : list string) (seen : gset string)
    (ordered : list string) : list string :=
  match clean_words with
  | [] => ordered
  | w :: ws =>
      if bool_decide (w ∈ seen) then dedup_loop ws seen ordered
      else dedup_loop ws ({[w]} ∪ seen) (ordered ++ [w])
  end.

Definition extract_keywords_ordered (script : gmap string string) : list string :=
  let full_text :=
    get script "question_text" +:+ " " +:+ get script "explanation_spoken" +:+ " "
      +:+ get script "fact_details" +:+ " " +:+ get script "tip_content" in
  let words := PyStr.split (PyStr.lower full_text) in
  let clean_words := clean words in
  dedup_loop clean_words ∅ [].

(** An extracted, zoomed sub-clip of the source video. *)
Record Scene := mkScene {
  scene_start : Q;          (* start in the source *)
  scene_len : Q;            (* this_clip_len *)
  scene_index : nat;        (* clip_index *)
  scene_scale : Q → Q       (* the zoom, as given to resize *)
}.

Record LoopState := mkLoop {
  final_clips : list Scene;
  current_generated_duration : Q;
  current_time_marker : Q;
  clip_index : nat;
  rng : nat                 (* position in the stream of random numbers *)
}.

Section Prepare.
(** The stream behind the [random] module: the successive values of
    [random.random()]. *)
Variable random : nat → Q.

(** [random.uniform(a, b)] at stream position [n]. *)
Definition uniform (a b : Q) (n : nat) : Q := a + (b - a) * random n.

Variable vid_duration : Q.
Variable transcript : list Segment.
Variable keywords : list string.
Variable total_duration : Q.

Definition safe_duration : Q :=
  let safe := vid_duration - 5.0 in
  if Qlt_bool safe 10 then vid_duration else safe.

(** One pass through the body of the [while] loop.  [video.subclip] is
    a call into the media library and is taken to succeed. *)
Definition loop_body (st : LoopState) : option LoopState :=
  let this_clip_len := uniform 1.5 2.5 (rng st) in
  let rng1 := S (rng st) in
  let remaining := total_duration - current_generated_duration st in
  let this_clip_len := if Qlt_bool remaining this_clip_len then remaining else this_clip_len in
  let target_kw := keywords !! clip_index st in
  let start_t := find_best_timestamp transcript target_kw (current_time_marker st) in
  let '(start_t, rng2) :=
    if Qlt_bool safe_duration (start_t + this_clip_len)
    then (uniform 1.0 (safe_duration / 4) rng1, S rng1)
    else (start_t, rng1) in
  scale ← apply_micro_zoom (clip_index st) this_clip_len;
  Some (mkLoop (final_clips st ++ [mkScene start_t this_clip_len (clip_index st) scale])
               (current_generated_duration st + this_clip_len)
               (start_t + this_clip_len)
               (S (clip_index st))
               rng2).

Fixpoint while_loop (fuel : nat) (st : LoopState) : outcome LoopState :=
  match fuel with
  | O => OutOfFuel
  | S fuel' =>
      if Qlt_bool (current_generated_duration st) total_duration then
        match loop_body st with
        | Some st' => while_loop fuel' st'
        | None => Raised
        end
      else Done st
  end.

Definition initial : LoopState := mkLoop [] 0.0 0.0 0 0.

(** The clips handed to [concatenate_videoclips]. *)
Definition prepare_video_for_short (fuel : nat) : outcome (list Scene) :=
  match while_loop fuel initial with
  | Done st => Done (final_clips st)
  | Raised => Raised
  | OutOfFuel => OutOfFuel
  end.

End Prepare.

End VideoProcessor.

(* ===================================================================== *)
(** * sfx_manager.py                                                       *)
(* ===================================================================== *)

Module SFXManager.

(** A value of the [assets] table: one file name or a pool of them. *)
Inductive Asset :=
| One (filename : string)
| Pool (filenames : list string).

Definition assets : gmap string Asset :=
  list_to_map
    [ ("whoosh", One "whoosh.wav");
      ("tick", One "tick.wav");
      ("success", One "correct.wav");
      ("pop", One "pop_soft.mp3");
      ("flip", One "paper-slide.wav");
      ("swish_low", One "swish_low.wav");
      ("glitch", Pool ["glitch.wav"; "glitch1.wav"; "glitch2.wav"; "glitch3.mp3"; "glitch4.wav"]);
      ("shutter", Pool ["dslr1.wav"; "dslr2.wav"; "dslr3.wav"; "dslr4.wav"]);
      ("notification", Pool ["notification.wav"; "ping1.mp3"; "ping2.wav"; "ping3.mp3"]);
      ("zip", Pool ["zip.wav"; "zip1.wav"; "zip2.wav"]);
      ("marker", One "marker.wav");
      ("keyboard", Pool ["keyboard1.wav"; "keyboard2.wav"]) ].

(** Python truthiness of an asset: the empty string and the empty list
    are falsy. *)
Definition truthy (a : Asset) : bool :=
  match a with
  | One f => negb (PyStr.is_empty f)
  | Pool fs => match fs with [] => false | _ => true end
  end.

(** A sound effect on the output track:
    [clip.set_start(start_time).volumex(volume)]. *)
Record SfxClip := mkSfx {
  sfx_path : string;
  sfx_normalized : bool;
  sfx_start : Q;
  sfx_volume : Q
}.

(** [s.replace(old, new)] for a non-empty [old]; [skip] counts the
    characters of a match still to be dropped. *)
Fixpoint replace_go (old new : string) (skip : nat) (s : string) : string :=
  match s with
  | EmptyString => EmptyString
  | String c s' =>
      match skip with
      | S k => replace_go old new k s'
      | O =>
          if String.prefix old s
          then new +:+ replace_go old new (String.length old - 1) s'
          else String c (replace_go old new 0 s')
      end
  end.

Definition replace (old new s : string) : string := replace_go old new 0 s.

(** Code that draws from the [random] module: the position in the stream
    of draws is threaded through. *)
Definition Rand (A : Type) : Type := nat → A * nat.
Definition ret {A} (a : A) : Rand A := λ r, (a, r).
Definition bind {A B} (m : Rand A) (k : A → Rand B) : Rand B :=
  λ r, let '(a, r') := m r in k a r'.

Notation "'do' x <- m ; k" := (bind m (λ x, k))
  (at level 10, x name, m at level 100, k at level 200).

Section Manager.
Variable config_dir : string.

(** The world outside: which paths exist, which files open as audio,
    which clips the normalizer accepts, and the stream of random draws. *)
Variable path_exists : string → bool.
Variable load_ok : string → bool.
Variable normalize_ok : string → bool.
Variable random : nat → nat.

(** [random.choice(seq)] on a non-empty [seq]. *)
Definition choice (seq : list string) : Rand string :=
  λ r, (default "" (seq !! (random r mod length seq)%nat), S r).

(** One rule [if name == key: volume *= factor]. *)
Definition rule (name key : string) (factor volume : Q) : Q :=
  if String.eqb name key then volume * factor else volume.

Definition mixing_rules (name : string) (volume : Q) : Q :=
  let volume := rule name "whoosh" 0.15 volume in
  let volume := rule name "swish_low" 0.25 volume in
  let volume := rule name "flip" 0.15 volume in
  let volume := rule name "glitch" 0.12 volume in
  let volume := rule name "shutter" 0.15 volume in
  let volume := rule name "notification" 0.15 volume in
  let volume := rule name "zip" 0.2 volume in
  let volume := rule name "keyboard" 0.25 volume in
  let volume := rule name "marker" 0.2 volume in
  volume.

(** The part of [get_clip] after the asset was found. *)
Definition load_clip (name filename : string) (start_time volume : Q) : option SfxClip :=
  let path := config_dir +:+ "/" +:+ filename in
  let path :=
    if path_exists path then path
    else if String.eqb name "pop" then replace ".mp3" ".wav" path else path in
  if negb (path_exists path) then None
  else if negb (load_ok path) then None      (* except Exception: return None *)
  else Some (mkSfx path (normalize_ok path) start_time (mixing_rules name volume)).

Definition get_clip (name : string) (start_time volume : Q) : Rand (option SfxClip) :=
  match assets !! name with
  | None => ret None
  | Some asset =>
      if negb (truthy asset) then ret None
      else
        do filename <- match asset with
                       | Pool fs => choice fs
                       | One f => ret f
                       end;
        ret (load_clip name filename start_time volume)
  end.

(** [if clp: sfx_layer.append(clp)] *)
Definition append_if (sfx_layer : list SfxClip) (clp : option SfxClip) : list SfxClip :=
  match clp with
  | Some c => sfx_layer ++ [c]
  | None => sfx_layer
  end.

(** A [for] loop whose body draws random numbers and extends the layer. *)
Fixpoint for_each {A} (xs : list A) (body : A → list SfxClip → Rand (list SfxClip))
    (sfx_layer : list SfxClip) : Rand (list SfxClip) :=
  match xs with
  | [] => ret sfx_layer
  | x :: xs' => do sfx_layer <- body x sfx_layer; for_each xs' body sfx_layer
  end.

Definition generate_quiz_sfx (timings : gmap string Q) : Rand (list SfxClip) :=
  let sfx_layer := [] in
  (* 1. whoosh *)
  do sfx_layer <-
    match timings !! "q" with
    | Some t =>
        do clp <- get_clip "whoosh" (t - 0.2) 0.5;
        ret (append_if sfx_layer clp)
    | None => ret sfx_layer
    end;
  (* 2. pops *)
  do sfx_layer <-
    for_each ["a"; "b"; "c"; "d"]
      (λ key sfx_layer,
         match timings !! key with
         | Some t =>
             do clp <- get_clip "pop" t 0.15;
             ret (append_if sfx_layer clp)
         | None => ret sfx_layer
         end) sfx_layer;
  (* 3. ticks *)
  do sfx_layer <-
    match timings !! "think" with
    | Some start =>
        for_each (seq 0 12)
          (λ i sfx_layer,
             let offset := inject_Z (Z.of_nat i) * 0.25 in
             do clp <- get_clip "tick" (start + offset) 0.6;
             ret (append_if sfx_layer clp)) sfx_layer
    | None => ret sfx_layer
    end;
  (* 4. chime *)
  do sfx_layer <-
    match timings !! "ans" with
    | Some t =>
        do clp <- get_clip "success" t 0.7;
        ret (append_if sfx_layer clp)
    | None => ret sfx_layer
    end;
  (* 5. paper slide *)
  do sfx_layer <-
    match timings !! "cta" with
    | Some t =>
        do clp <- get_clip "flip" t 1.0;
        ret (append_if sfx_layer clp)
    | None => ret sfx_layer
    end;
  (* 6. deep swish *)
  do sfx_layer <-
    match timings !! "outro" with
    | Some t =>
        do clp <- get_clip "swish_low" t 0.6;
        ret (append_if sfx_layer clp)
    | None => ret sfx_layer
    end;
  ret sfx_layer.

End Manager.

(** The clips of a layer that play a given file. *)
Definition starts_of (file : string) (layer : list SfxClip) : list Q :=
  sfx_start <$> filter (λ c, sfx_path c = file) layer.

End SFXManager.

(* ===================================================================== *)
(** * shorts_engine.py: background music                                   *)
(* ===================================================================== *)

(** A Python computation that returns a value or raises an exception. *)
Inductive result (A : Type) : Type :=
| Ok (a : A)
| Raise (exn : string).
Arguments Ok {A} a.
Arguments Raise {A} exn.

Module ShortsEngine.

Record Theme := mkTheme {
  bg_color : Z * Z * Z;
  highlight : string;
  correct : string;
  name : string;
  music_mood : string
}.

Definition THEMES : gmap string Theme :=
  list_to_map
    [ ("energetic_yellow",
        mkTheme (15, 23, 42)%Z "#FACC15" "#22C55E" "Energetic Yellow" "energetic");
      ("calm_blue",
        mkTheme (13, 27, 42)%Z "#38BDF8" "#34D399" "Calm Blue" "calm");
      ("vibrant_purple",
        mkTheme (24, 7, 45)%Z "#E879F9" "#A78BFA" "Vibrant Purple" "funky");
      ("fresh_green",
        mkTheme (7, 36, 19)%Z "#84CC16" "#4ADE80" "Fresh Green" "calm");
      ("classic_red",
        mkTheme (28, 25, 23)%Z "#FB923C" "#F87171" "Classic Red" "energetic") ].

(** [THEMES['energetic_yellow']] raises [KeyError] when the entry is
    missing; it is evaluated before [THEMES.get] is called. *)
Definition get_theme (theme_name : string) : result Theme :=
  match THEMES !! "energetic_yellow" with
  | None => Raise "KeyError"
  | Some dflt => Ok (default dflt (THEMES !! theme_name))
  end.

(** The music bed, as the operations applied to the opened file. *)
Inductive Bed :=
| AudioFile (path : string) (duration : Q)
| Normalized (c : Bed)
| Loop (n : Z) (c : Bed)
| Subclip (t_start t_end : Q) (c : Bed)
| Volumex (factor : Q) (c : Bed).

(** [clip.duration] as the media library maintains it. *)
Fixpoint duration (c : Bed) : Q :=
  match c with
  | AudioFile _ d => d
  | Normalized c => duration c
  | Loop n c => inject_Z n * duration c
  | Subclip t_start t_end _ => t_end - t_start
  | Volumex _ c => duration c
  end.

(** The file played, and whether the normalizer was applied. *)
Fixpoint source (c : Bed) : string :=
  match c with
  | AudioFile p _ => p
  | Normalized c | Loop _ c | Subclip _ _ c | Volumex _ c => source c
  end.

Fixpoint normalized (c : Bed) : bool :=
  match c with
  | AudioFile _ _ => false
  | Normalized _ => true
  | Loop _ c | Subclip _ _ c | Volumex _ c => normalized c
  end.

(** The value returned by [add_background_music]: [voice_track] itself,
    or [CompositeAudioClip([voice_track, bed])]. *)
Inductive Mix (V : Type) : Type :=
| VoiceOnly (voice_track : V)
| CompositeAudioClip (voice_track : V) (bed : Bed).
Arguments VoiceOnly {V} voice_track.
Arguments CompositeAudioClip {V} voice_track bed.

Definition bind {A B} (m : result A) (k : A → result B) : result B :=
  match m with
  | Ok a => k a
  | Raise e => Raise e
  end.

Notation "'let!' x := m 'in' k" := (bind m (λ x, k))
  (at level 10, x name, m at level 100, k at level 200).

(** [try: body except Exception: handler] *)
Definition try_except {A} (body : result A) (handler : string → result A) : result A :=
  match body with
  | Ok a => Ok a
  | Raise e => handler e
  end.

(** [int(x)] on a float: truncation towards zero. *)
Definition int (x : Q) : Z := Z.quot (Qnum x) (Zpos (Qden x)).

(** [x / y] on floats. *)
Definition truediv (x y : Q) : result Q :=
  if Qeq_bool y 0 then Raise "ZeroDivisionError" else Ok (x / y).

Section Engine.
Variable V : Type.

(** The world outside: the file system seen through [glob.glob] and
    [os.path.exists], the decoder, the normalizer, the random draw, and
    whether the media library loops the audio clip of a file when asked to:
    [loop] is no code of this repository, and a clip class without that
    method, or a method that fails, makes the call raise. *)
Variable glob : string → list string.
Variable path_exists : string → bool.
Variable load : string → option Q.          (* duration, or the decoder raises *)
Variable normalize_ok : string → bool.
Variable loop_ok : string → bool.
Variable random : nat.

Definition music_dir : string := "config/music".

(** [random.choice(seq)] *)
Definition choice (seq : list string) : result string :=
  match seq with
  | [] => Raise "IndexError"
  | _ => Ok (default "" (seq !! (random mod length seq)%nat))
  end.

(** [AudioFileClip(path)] *)
Definition open_audio (path : string) : result Bed :=
  match load path with
  | Some d => Ok (AudioFile path d)
  | None => Raise "IOError"
  end.

(** [clip.fx(audio_normalize)] *)
Definition audio_normalize (c : Bed) : result Bed :=
  if normalize_ok (source c) then Ok (Normalized c) else Raise "Exception".

(** [clip.loop(n=n)].  Python looks the method up before it computes [n];
    the model computes [n] first.  Both failures are caught by the same
    handler, which ignores the exception, so the order is not observable. *)
Definition loop (c : Bed) (n : Z) : result Bed :=
  if loop_ok (source c) then Ok (Loop n c) else Raise "Exception".

Definition add_background_music (voice_track : V) (total_duration : Q)
    (theme_name : string) : result (Mix V) :=
  let! theme := get_theme theme_name in
  let mood := music_mood theme in
  let search_path := music_dir +:+ "/" +:+ mood +:+ "/" +:+ "*.mp3" in
  let tracks :=
    match glob search_path with
    | [] => glob (music_dir +:+ "/" +:+ "*.mp3")
    | found => found
    end in
  let legacy := "config/music.mp3" in
  match
    (match tracks with
     | [] => if path_exists legacy then Some [legacy] else None
     | _ => Some tracks
     end)
  with
  | None => Ok (VoiceOnly voice_track)
  | Some tracks =>
      let! chosen := choice tracks in
      try_except
        (let! bgm := open_audio chosen in
         let vol_level := 0.12 in
         let '(bgm, vol_level) :=
           match audio_normalize bgm with
           | Ok bgm' => (bgm', 0.12)
           | Raise _ => (bgm, vol_level)
           end in
         let! bgm :=
           if Qlt_bool (duration bgm) total_duration then
             let! ratio := truediv total_duration (duration bgm) in
             loop bgm (int ratio + 1)
           else Ok bgm in
         Ok (CompositeAudioClip voice_track
               (Volumex vol_level (Subclip 0 total_duration bgm))))
        (λ _, Ok (VoiceOnly voice_track))
  end.

End Engine.

End ShortsEngine.

(* ===================================================================== *)
(** * Notions used to state the properties                                 *)
(* ===================================================================== *)

Module Stated.

(** Order-preserving deduplication: every word is kept at its first
    occurrence. *)
Fixpoint dedup_first (ws : list string) : list string :=
  match ws with
  | [] => []
  | w :: ws' => w :: filter (λ x, x ≠ w) (dedup_first ws')
  end.

(** The stop words of the keyword filter, written out. *)
Definition stop_list : list string :=
  [ "the"; "a"; "an"; "is"; "are"; "was"; "were"; "what"; "to"; "in";
    "of"; "and"; "for"; "on"; "with"; "at"; "by"; "this"; "that";
    "these"; "those"; "which"; "who"; "when"; "where"; "how"; "why" ].

(** A word passes the keyword filter when it has more than four characters
    as it stands and, once the punctuation [.,?!] is stripped from its
    ends, is none of the stop words. *)
Definition passes_filter (w : string) : bool :=
  (4 <? String.length w)%nat
  && negb (bool_decide (PyStr.strip ".,?!" w ∈ stop_list)).

(** The stop-word-filtered words of raw length above four, stripped, in
    order: a walk along the words that keeps the stripped form of each word
    that passes the filter. *)
Fixpoint filtered_words (ws : list string) : list string :=
  match ws with
  | [] => []
  | w :: ws' =>
      if passes_filter w
      then PyStr.strip ".,?!" w :: filtered_words ws'
      else filtered_words ws'
  end.

(** The keywords a text yields by itself, as the claim words it: the
    order-preserving deduplication of the stop-word-filtered words of raw
    length above four of the lower-cased text.  Nothing here refers to the
    code of [extract_keywords_ordered]. *)
Definition keywords_of_text (t : string) : list string :=
  dedup_first (filtered_words (PyStr.split (PyStr.lower t))).

(** [n] instants evenly spaced across the interval from [from] to [to]:
    the [i]-th is [from + i * ((to - from) / n)]. *)
Definition evenly_spaced (from to : Q) (n : nat) : list Q :=
  (λ i : nat, from + inject_Z (Z.of_nat i) * ((to - from) / inject_Z (Z.of_nat n))) <$> seq 0 n.

(** A sound effect as [get_clip] returns it for a file found under
    [config_dir]. *)
Definition cue (config_dir : string) (normalize_ok : string → bool)
    (filename : string) (start_time volume : Q) : SFXManager.SfxClip :=
  SFXManager.mkSfx (config_dir +:+ "/" +:+ filename)
    (normalize_ok (config_dir +:+ "/" +:+ filename)) start_time volume.

(** The tracks the music may be chosen from: those of the mood's
    directory; if there are none, those at the top of the music directory;
    if there are none either, the legacy track when that file exists. *)
Definition music_candidates (glob : string → list string) (path_exists : string → bool)
    (mood : string) : list string :=
  match glob ("config/music/" +:+ mood +:+ "/*.mp3") with
  | [] =>
      match glob "config/music/*.mp3" with
      | [] => if path_exists "config/music.mp3" then ["config/music.mp3"] else []
      | shared => shared
      end
  | matched => matched
  end.

(** The mood of a theme name: the theme's own, or that of the default theme
    for an unknown name. *)
Definition mood_of (theme_name : string) : string :=
  match ShortsEngine.THEMES !! theme_name with
  | Some theme => ShortsEngine.music_mood theme
  | None => "energetic"
  end.

(** The music file as it enters the mix: normalized when the normalizer
    accepts it, raw otherwise. *)
Definition levelled (normalize_ok : string → bool) (chosen : string) (d : Q) : ShortsEngine.Bed :=
  if normalize_ok chosen
  then ShortsEngine.Normalized (ShortsEngine.AudioFile chosen d)
  else ShortsEngine.AudioFile chosen d.

(** The total length of a list of scenes. *)
Definition total_length (clips : list VideoProcessor.Scene) : Q :=
  foldr (λ c acc, VideoProcessor.scene_len c + acc) 0 clips.

(** A scene of full length: a draw from [1.5, 2.5] that was not trimmed. *)
Definition full_length (c : VideoProcessor.Scene) : Prop :=
  1.5 <= VideoProcessor.scene_len c ∧ VideoProcessor.scene_len c <= 2.5.

End Stated.

(* ===================================================================== *)
(** * Invariants                                                           *)
(* ===================================================================== *)

Module Invariants.
Import QuizTemplate VideoProcessor Stated.

(** What holds of the pool at every moment, for the submitted [tasks]:
    the tasks in the pool were submitted; what is stored under a key is the
    path derived from that key; every submitted task is pending, running,
    or has its path stored. *)
Record pool_inv (temp_dir vid_id : string) (tasks : list (string * string))
    (s : PoolState) : Prop := {
  inv_known : ∀ kt, kt ∈ pending s ++ running s → kt ∈ tasks;
  inv_stored : ∀ k p, generated_audio_paths s !! k = Some p →
                      p = (generate_single_audio temp_dir vid_id k "").2 ∧ k ∈ tasks.*1;
  inv_accounted : ∀ k t, (k, t) ∈ tasks →
                         (k, t) ∈ pending s ++ running s
                         ∨ generated_audio_paths s !! k =
                             Some (generate_single_audio temp_dir vid_id k "").2
}.

(** What the scene-selection loop maintains: the lengths of the clips add
    up to the generated duration, which stays within the target; while the
    target is not reached every clip has full length; at most the last clip
    is trimmed; the clips are numbered in order and zoomed by their number. *)
Record loop_inv (total_duration : Q) (st : LoopState) : Prop := {
  inv_sum : total_length (final_clips st) == current_generated_duration st;
  inv_below : current_generated_duration st <= total_duration;
  inv_full : current_generated_duration st < total_duration →
             Forall full_length (final_clips st);
  inv_shape : final_clips st = [] ∨
              ∃ init last, final_clips st = init ++ [last]
                           ∧ Forall full_length init
                           ∧ 0 < scene_len last ∧ scene_len last <= 2.5;
  inv_numbered : ∀ i c, final_clips st !! i = Some c →
                        scene_index c = i
                        ∧ 0 < scene_len c
                        ∧ apply_micro_zoom i (scene_len c) = Some (scene_scale c);
  inv_count : clip_index st = length (final_clips st)
}.

End Invariants.

(* ===================================================================== *)
(** * Concrete inputs                                                      *)
(* ===================================================================== *)

Module Samples.
Import QuizTemplate.

(** A script with every field the quiz template reads. *)
Definition sample_quiz : PromptManager.QuizScript :=
  PromptManager.mkQuizScript "gravity" "Most students fail this!"
    "Who studied gravity?" "Who studied gravity?"
    "Newton" "Newton" "Darwin" "Darwin" "Curie" "Curie" "Bohr" "Bohr"
    "A" "Newton" "Newton studied gravity deeply." "Check the link below".

Definition sample_script : gmap string string := PromptManager.payload sample_quiz.

(** The same explanation under another question. *)
Definition other_question : PromptManager.QuizScript :=
  PromptManager.mkQuizScript "orbits" "Only experts know this!"
    "Which force keeps planets in their orbits?"
    "Which force keeps planets in their orbits?"
    "Newton" "Newton" "Darwin" "Darwin" "Curie" "Curie" "Bohr" "Bohr"
    "A" "Newton" "Newton studied gravity deeply." "Check the link below".

(** Timings with a pause of five seconds between the think start and the
    answer. *)
Definition long_pause : gmap string Q :=
  sfx_timings (mkTimeline 0 1.0 2.0 3.0 4.0 5.0 6.0 11.0 13.0 15.0 19.0).

(** Timings as the quiz template computes them. *)
Definition template_timeline : Timeline :=
  timing (mkNarration (mkAudio "hook" 1.0) (mkAudio "q" 1.2)
            (mkAudio "a" 0.8) (mkAudio "b" 0.9) (mkAudio "c" 0.85)
            (mkAudio "d" 0.95) (mkAudio "think" 0.9)
            (mkAudio "expl" 1.6) (mkAudio "cta" 1.1)).

Definition template_timings : gmap string Q := sfx_timings template_timeline.

(** A music library without mood directories: one shared track of ten
    seconds, which the normalizer rejects. *)
Definition shared_only (pattern : string) : list string :=
  if String.eqb pattern "config/music/*.mp3" then ["config/music/shared.mp3"] else [].

Definition ten_seconds (path : string) : option Q := Some 10.0.

Definition one_minute (path : string) : option Q := Some 60.0.

Definition rejects (path : string) : bool := false.

(** A media library that loops audio clips, and one that does not. *)
Definition loops (path : string) : bool := true.
Definition no_loop (path : string) : bool := false.

(** A shared track of one minute, rejected by the normalizer, under a voice
    track of thirty-five seconds. *)
Definition raw_mix : result (ShortsEngine.Mix unit) :=
  ShortsEngine.add_background_music unit shared_only (λ _, false) one_minute rejects no_loop 7
    tt 35.0 "calm_blue".

(** A shared track of ten seconds under the same voice track, with a
    library that loops. *)
Definition looped_mix : result (ShortsEngine.Mix unit) :=
  ShortsEngine.add_background_music unit shared_only (λ _, false) ten_seconds rejects loops 7
    tt 35.0 "calm_blue".

(** A narration whose clips last one second each, except a think clip of
    four seconds. *)
Definition long_think : Narration :=
  mkNarration (mkAudio "hook" 1.0) (mkAudio "q" 1.0) (mkAudio "a" 1.0)
    (mkAudio "b" 1.0) (mkAudio "c" 1.0) (mkAudio "d" 1.0)
    (mkAudio "think" 4.0) (mkAudio "expl" 1.0) (mkAudio "cta" 1.0).

Definition sample_tasks : list (string * string) :=
  [ ("hook", "Most students fail this!");
    ("question", "Who studied gravity?");
    ("opt_a", "A: Newton"); ("opt_b", "B: Darwin");
    ("opt_c", "C: Curie"); ("opt_d", "D: Bohr");
    ("think", "Think fast!");
    ("explanation", "The answer is A! Newton studied gravity deeply.");
    ("cta", "Check the link below") ].

(** Two ways for the pool to work through nine tasks: finishing them in
    the order of submission, and finishing them out of order. *)
Definition in_order : list event :=
  [ Start; Start; Start; Start; Start;
    Finish 0; Start; Finish 0; Start; Finish 0; Start; Finish 0; Start;
    Finish 0; Finish 0; Finish 0; Finish 0; Finish 0 ].

Definition scrambled : list event :=
  [ Start; Start; Start; Start; Start;
    Finish 4; Start; Finish 2; Start; Finish 4; Start; Finish 0; Start;
    Finish 3; Finish 3; Finish 0; Finish 1; Finish 0 ].

(** The state the pool is left in by a schedule, for the sample tasks. *)
Definition after (es : list event) : PoolState :=
  default (submit_all []) (run_schedule "temp" "quiz" es (submit_all sample_tasks)).

(** Durations that differ from file to file: a tenth of a second for
    every character of the path. *)
Definition sample_duration (path : string) : Q :=
  inject_Z (Z.of_nat (String.length path)) / 10.

End Samples.

(* ===================================================================== *)
(** * prompt_manager.py: the fact and tip scripts                          *)
(* ===================================================================== *)

Module Schemas.

(** The JSON object the fact prompt asks for. *)
Record FactScript := mkFactScript {
  fact_slug : string;
  fact_hook_spoken : string;
  fact_title : string;
  fact_visual : string;
  fact_spoken : string;
  fact_cta_spoken : string
}.

Definition fact_payload (f : FactScript) : gmap string string :=
  list_to_map
    [ ("filename_slug", fact_slug f);
      ("hook_spoken", fact_hook_spoken f);
      ("fact_title", fact_title f);
      ("fact_visual", fact_visual f);
      ("fact_spoken", fact_spoken f);
      ("cta_spoken", fact_cta_spoken f) ].

(** The JSON object the tip prompt asks for. *)
Record TipScript := mkTipScript {
  tip_slug : string;
  tip_hook_spoken : string;
  tip_title : string;
  tip_visual : string;
  tip_spoken : string;
  bonus : string;
  tip_cta_spoken : string
}.

Definition tip_payload (t : TipScript) : gmap string string :=
  list_to_map
    [ ("filename_slug", tip_slug t);
      ("hook_spoken", tip_hook_spoken t);
      ("tip_title", tip_title t);
      ("tip_visual", tip_visual t);
      ("tip_spoken", tip_spoken t);
      ("bonus", bonus t);
      ("cta_spoken", tip_cta_spoken t) ].

(** The script fields [QuizTemplate.generate] reads with [script[...]]
    while it builds [audio_tasks]. *)
Definition narrated_fields : list string :=
  [ "hook_spoken"; "question_spoken"; "opt_a_spoken"; "opt_b_spoken";
    "opt_c_spoken"; "opt_d_spoken"; "correct_opt"; "explanation_spoken";
    "cta_spoken" ].

End Schemas.

(* ===================================================================== *)
(** * template_quiz.py: the timed overlays                                 *)
(* ===================================================================== *)

Module QuizVisuals.
Import QuizTemplate.

(** A visual clip on the time line: [set_start] with [set_duration] or
    [set_end]. *)
Record Overlay := mkOverlay { shows : string; from : Q; till : Q }.

(** [clip.set_start(t).set_duration(d)] *)
Definition lasting (what : string) (t d : Q) : Overlay := mkOverlay what t (t + d).

(** [clip.set_start(t).set_end(e)] *)
Definition ending (what : string) (t e : Q) : Overlay := mkOverlay what t e.

Definition segments : nat := 10.

(** The timer bar: [for i in range(segments)]. *)
Definition timer_bar (tl : Timeline) : list Overlay :=
  (λ i : nat,
     let dt := t_think tl + (THINK_TIME * inject_Z (Z.of_nat i + 1) / inject_Z (Z.of_nat segments)) in
     ending "bar" (t_think tl) dt) <$> seq 0 segments.

(** The countdown: [for i in range(int(THINK_TIME))], showing
    [int(THINK_TIME) - i] for one second. *)
Definition countdown (tl : Timeline) : list (Z * Overlay) :=
  (λ i : nat,
     let num := (ShortsEngine.int THINK_TIME - Z.of_nat i)%Z in
     (num, lasting "digit" (t_think tl + inject_Z (Z.of_nat i)) 1))
    <$> seq 0 (Z.to_nat (ShortsEngine.int THINK_TIME)).


End QuizVisuals.

(* ===================================================================== *)
(** * template_quiz_json_generator.py: the timing                          *)
(* ===================================================================== *)

Module QuizJson.
Import QuizTemplate.

(** [max(a, b)]: the first of the largest arguments. *)
Definition max (a b : Q) : Q := if Qlt_bool a b then b else a.

Definition THINK_TIME : Q := 3.0.
Definition OUTRO_DURATION : Q := 7.0.

Definition timing (n : Narration) : Timeline :=
  let t_hook := 0 in
  let t_q := t_hook + duration (aud_hook n) in
  let t_a := t_q + duration (aud_q n) in
  let t_b := t_a + duration (aud_a n) in
  let t_c := t_b + duration (aud_b n) in
  let t_d := t_c + duration (aud_c n) in
  let t_think := t_d + duration (aud_d n) in
  let t_ans := t_think + THINK_TIME in
  let t_cta := t_ans + duration (aud_expl n) in
  let t_outro := t_cta + max (duration (aud_cta n)) 6 in
  let total_dur := t_outro + OUTRO_DURATION in
  mkTimeline t_hook t_q t_a t_b t_c t_d t_think t_ans t_cta t_outro total_dur.

End QuizJson.

(* ===================================================================== *)
(** * template_tip.py: tasks, timing and narration                         *)
(* ===================================================================== *)

Module TipTemplate.
Import QuizTemplate.

(** The five opened narration clips. *)
Record Narration := mkNarration {
  aud_hook : AudioFileClip; aud_title : AudioFileClip;
  aud_content : AudioFileClip; aud_bonus : AudioFileClip;
  aud_cta : AudioFileClip
}.

Record Timeline := mkTimeline {
  t_hook : Q; t_title : Q; t_content : Q; t_bonus : Q; t_cta : Q; t_outro : Q;
  total_dur : Q
}.

Definition OUTRO_DURATION : Q := 4.0.

Definition timing (n : Narration) : Timeline :=
  let t_hook := 0 in
  let t_title := t_hook + duration (aud_hook n) in
  let t_content := t_title + duration (aud_title n) in
  let t_bonus := t_content + duration (aud_content n) in
  let t_cta := t_bonus + duration (aud_bonus n) in
  let t_outro := t_cta + duration (aud_cta n) in
  let total_dur := t_cta + duration (aud_cta n) + OUTRO_DURATION in
  mkTimeline t_hook t_title t_content t_bonus t_cta t_outro total_dur.

Definition audio_list (n : Narration) (tl : Timeline) : list Placed :=
  [ set_start (aud_hook n) (t_hook tl); set_start (aud_title n) (t_title tl);
    set_start (aud_content n) (t_content tl); set_start (aud_bonus n) (t_bonus tl);
    set_start (aud_cta n) (t_cta tl) ].

End TipTemplate.

(* ===================================================================== *)
(** * shorts_engine.py: the Ken Burns zoom and the music directories       *)
(* ===================================================================== *)

Module EngineMore.

(** [apply_ken_burns]: [None] when the clip is returned unchanged (it has
    no duration, or a duration of zero), else the scale function handed to
    [resize]. *)
Definition apply_ken_burns (clip_duration : option Q) (zoom_factor : Q) : option (Q → Q) :=
  match clip_duration with
  | None => None
  | Some d =>
      if Qeq_bool d 0 then None
      else Some (λ t, 1.0 + (zoom_factor - 1.0) * (t / d))
  end.

(** The mood directories [__init__] creates under the music directory. *)
Definition mood_directories : list string := ["energetic"; "calm"; "funky"].

End EngineMore.

(* ===================================================================== *)
(** * sfx_manager.py: the layers of the fact and tip templates             *)
(* ===================================================================== *)

Module SFXLayers.
Import SFXManager.

Section Layers.
Variable config_dir : string.
Variable path_exists : string → bool.
Variable load_ok : string → bool.
Variable normalize_ok : string → bool.
Variable random : nat → nat.

Abbreviation get := (get_clip config_dir path_exists load_ok normalize_ok random).

(** One block [if key in timings: clp = get_clip(...); if clp: append]. *)
Definition cue_at (timings : gmap string Q) (key name : string) (volume : Q)
    (sfx_layer : list SfxClip) : Rand (list SfxClip) :=
  match timings !! key with
  | Some t =>
      do clp <- get name t volume;
      ret (append_if sfx_layer clp)
  | None => ret sfx_layer
  end.

Definition generate_fact_sfx (timings : gmap string Q) : Rand (list SfxClip) :=
  let sfx_layer := [] in
  do sfx_layer <- cue_at timings "title" "glitch" 1.0 sfx_layer;
  do sfx_layer <- cue_at timings "details" "shutter" 1.0 sfx_layer;
  do sfx_layer <- cue_at timings "cta" "notification" 1.0 sfx_layer;
  do sfx_layer <- cue_at timings "outro" "swish_low" 1.0 sfx_layer;
  ret sfx_layer.

Definition generate_tip_sfx (timings : gmap string Q) : Rand (list SfxClip) :=
  let sfx_layer := [] in
  do sfx_layer <- cue_at timings "title" "zip" 1.0 sfx_layer;
  do sfx_layer <- cue_at timings "content" "marker" 1.0 sfx_layer;
  do sfx_layer <- cue_at timings "bonus" "pop" 0.2 sfx_layer;
  do sfx_layer <- cue_at timings "cta" "keyboard" 1.0 sfx_layer;
  do sfx_layer <- cue_at timings "outro" "swish_low" 1.0 sfx_layer;
  ret sfx_layer.

End Layers.

End SFXLayers.

(* ===================================================================== *)
(** * main_shorts_generator.py: column letters and output file names       *)
(* ===================================================================== *)

Module MainGenerator.
Import PyStr.

(** [chr(n)] for the code points used here. *)
Definition chr (n : Z) : ascii := ascii_of_nat (Z.to_nat n).

(** The loop of [get_col_letter]: [while n >= 0]. *)
Fixpoint col_loop (fuel : nat) (n : Z) (s : string) : outcome string :=
  match fuel with
  | O => OutOfFuel
  | S fuel' =>
      if (0 <=? n)%Z
      then
        let s := String (chr (n mod 26 + 65)) s in
        let n := (n / 26 - 1)%Z in
        col_loop fuel' n s
      else Done s
  end.

Definition get_col_letter (fuel : nat) (n : Z) : outcome string := col_loop fuel n "".

(** [os.path.join(a, b)] of [posixpath]. *)
Definition path_join (a b : string) : string :=
  if String.prefix "/" b then b
  else if is_empty a || String.prefix "/" (String.rev a) then a +:+ b
  else a +:+ "/" +:+ b.

(** [f"{base_filename}_V{version}.mp4"] *)
Definition versioned (base_filename : string) (version : nat) : string :=
  base_filename +:+ "_V" +:+ pretty version +:+ ".mp4".

Section Versions.
(** The paths that exist: [os.path.exists]. *)
Variable files : gset string.

Definition path_exists (path : string) : bool := bool_decide (path ∈ files).

(** The loop of [find_next_version]. *)
Fixpoint version_loop (fuel : nat) (output_dir base_filename : string) (version : nat)
    : outcome nat :=
  match fuel with
  | O => OutOfFuel
  | S fuel' =>
      if path_exists (path_join output_dir (versioned base_filename version))
      then version_loop fuel' output_dir base_filename (version + 1)
      else Done version
  end.

Definition find_next_version (fuel : nat) (output_dir base_filename : string) : outcome nat :=
  let version := 1%nat in
  version_loop fuel output_dir base_filename version.

End Versions.

(** [c.isalnum()] on ASCII characters. *)
Definition isalnum (c : ascii) : bool :=
  let n := nat_of_ascii c in
  ((48 <=? n) && (n <=? 57) || (65 <=? n) && (n <=? 90) || (97 <=? n) && (n <=? 122))%nat.

(** [''.join(c if c.isalnum() else '_' for c in s)] *)
Fixpoint underscored (s : string) : string :=
  match s with
  | EmptyString => EmptyString
  | String c s' => String (if isalnum c then c else "_"%char) (underscored s')
  end.

(** [re.sub(r'_+', '_', s)]: every run of underscores becomes one. *)
Fixpoint squeeze (s : string) : string :=
  match s with
  | EmptyString => EmptyString
  | String c s' =>
      if Ascii.eqb c "_" && String.prefix "_" s'
      then squeeze s'
      else String c (squeeze s')
  end.

(** [s[:n]] for [n >= 0]. *)
Fixpoint slice_to (s : string) (n : nat) : string :=
  match n, s with
  | S n', String c s' => String c (slice_to s' n')
  | _, _ => EmptyString
  end.

Definition normalize_filename_part (text : string) (max_len : nat) : string :=
  if is_empty text then slice_to "untitled" max_len
  else
    let safe := underscored (lower text) in
    let safe := strip "_" (squeeze safe) in
    let safe := if is_empty safe then "content" else safe in
    slice_to safe max_len.

End MainGenerator.

(* ===================================================================== *)
(** * karaoke_manager.py: subtitle chunks and their timing                 *)
(* ===================================================================== *)

Module KaraokeManager.
Import PyStr.

(** [word.endswith(('.', '!', '?', ',', ':'))] *)
Definition ends_sentence (word : string) : bool :=
  match last (list_ascii_of_string word) with
  | Some c => char_in c ".!?,:"
  | None => false
  end.

(** [sep.join(l)] *)
Fixpoint join (sep : string) (l : list string) : string :=
  match l with
  | [] => ""
  | [w] => w
  | w :: rest => w +:+ sep +:+ join sep rest
  end.

(** The loop of [_smart_split]: [for word in words]. *)
Fixpoint split_loop (max_words : Z) (words : list string)
    (chunks : list string) (current_chunk : list string) : list string * list string :=
  match words with
  | [] => (chunks, current_chunk)
  | word :: words' =>
      let current_chunk := current_chunk ++ [word] in
      let is_long := (max_words <=? Z.of_nat (length current_chunk))%Z in
      let ends := ends_sentence word in
      if is_long || ends
      then split_loop max_words words' (chunks ++ [join " " current_chunk]) []
      else split_loop max_words words' chunks current_chunk
  end.

(** [_smart_split(text, max_words)] *)
Definition smart_split (text : string) (max_words : Z) : list string :=
  let words := split text in
  let '(chunks, current_chunk) := split_loop max_words words [] [] in
  match current_chunk with
  | [] => chunks
  | _ => chunks ++ [join " " current_chunk]
  end.

(** One subtitle segment: the dict with keys [text], [start], [end] and
    [duration]. *)
Record Segment := mkSegment {
  seg_text : string; seg_start : Q; seg_end : Q; seg_duration : Q
}.

(** [len(s.replace(" ", ""))] *)
Definition count_chars (s : string) : Z :=
  Z.of_nat (String.length (SFXManager.replace " " "" s)).

(** The loop of [generate_timed_audio]: [for chunk in chunks]. *)
Fixpoint segment_loop (total_chars : Z) (total_duration : Q) (chunks : list string)
    (segments : list Segment) (current_start : Q) : list Segment :=
  match chunks with
  | [] => segments
  | chunk :: chunks' =>
      let chunk_chars := count_chars chunk in
      let estimated_duration :=
        (inject_Z chunk_chars / inject_Z total_chars) * total_duration in
      let segments :=
        segments ++ [mkSegment chunk current_start (current_start + estimated_duration)
                       estimated_duration] in
      segment_loop total_chars total_duration chunks' segments
        (current_start + estimated_duration)
  end.

(** The segments of [generate_timed_audio], for a synthesized clip that
    lasts [total_duration]. *)
Definition generate_timed_audio (full_text : string) (total_duration : Q) : list Segment :=
  let chunks := smart_split full_text 4 in
  let total_chars := count_chars full_text in
  let total_chars := if (total_chars =? 0)%Z then 1%Z else total_chars in
  let segments := [] in
  let current_start := 0.0 in
  segment_loop total_chars total_duration chunks segments current_start.

End KaraokeManager.

(* ===================================================================== *)
(** * voice_usage_tracker.py: quota state and usage history                *)
(* ===================================================================== *)

Module VoiceUsageTracker.
Import ShortsEngine.

Definition MONTHLY_QUOTA : Z := 1000000.

(** One entry of [quota_state['accounts']]. *)
Record Account := mkAccount { used_chars : Z; quota_limit : Z; available : Z }.

(** One entry of [usage_history]. *)
Record LogEntry := mkEntry {
  entry_timestamp : string; entry_account : string; entry_provider : string;
  entry_chars : Z; entry_voice : string; entry_video_id : option string;
  entry_cost_usd : Q
}.

(** The tracker: [quota_state] (its [last_reset] and [accounts]) and
    [usage_history].  The two JSON files the tracker saves them to after
    each change are not modelled. *)
Record Tracker := mkTracker {
  last_reset : string;
  accounts : gmap string Account;
  usage_history : list LogEntry
}.

(** A tracker that finds no files: [_initialize_quota_state] and an empty
    history. *)
Definition fresh (current_month : string) : Tracker := mkTracker current_month ∅ [].

Definition register_account (self : Tracker) (account_name : string) : Tracker :=
  match accounts self !! account_name with
  | None =>
      mkTracker (last_reset self)
        (<[account_name := mkAccount 0 MONTHLY_QUOTA MONTHLY_QUOTA]> (accounts self))
        (usage_history self)
  | Some _ => self
  end.

Record Status := mkStatus {
  status_used : Z; status_available : Z; status_limit : Z; percent_used : Q
}.

Definition get_account_status (self : Tracker) (account_name : string)
    : Tracker * result Status :=
  let self :=
    match accounts self !! account_name with
    | None => register_account self account_name
    | Some _ => self
    end in
  match accounts self !! account_name with
  | None => (self, Raise "KeyError")
  | Some acc =>
      (self,
       let! ratio := truediv (inject_Z (used_chars acc)) (inject_Z (quota_limit acc)) in
       Ok (mkStatus (used_chars acc) (available acc) (quota_limit acc) (ratio * 100)))
  end.

Fixpoint find_available_account (self : Tracker) (required_chars : Z)
    (account_names : list string) : Tracker * result (option string) :=
  match account_names with
  | [] => (self, Ok None)
  | acc_name :: rest =>
      match get_account_status self acc_name with
      | (self, Raise e) => (self, Raise e)
      | (self, Ok status) =>
          if (required_chars <=? status_available status)%Z
          then (self, Ok (Some acc_name))
          else find_available_account self required_chars rest
      end
  end.

Definition _estimate_cost (provider : string) (chars_used : Z) : Q :=
  if negb (String.eqb provider "google") then 0.0
  else
    let cost_per_million := 16.0 in
    (inject_Z chars_used / 1000000) * cost_per_million.

(** [log_usage]; [now] is the time stamp the entry gets. *)
Definition log_usage (self : Tracker) (now account_name provider : string)
    (chars_used : Z) (voice_used : string) (video_id : option string) : result Tracker :=
  let! self :=
    if String.eqb provider "google"
    then
      let self :=
        match accounts self !! account_name with
        | None => register_account self account_name
        | Some _ => self
        end in
      match accounts self !! account_name with
      | None => Raise "KeyError"
      | Some acc =>
          let used := (used_chars acc + chars_used)%Z in
          let acc := mkAccount used (quota_limit acc) (quota_limit acc - used) in
          Ok (mkTracker (last_reset self) (<[account_name := acc]> (accounts self))
                (usage_history self))
      end
    else Ok self in
  let log_entry :=
    mkEntry now account_name provider chars_used voice_used video_id
      (if String.eqb provider "google" then _estimate_cost provider chars_used else 0) in
  Ok (mkTracker (last_reset self) (accounts self) (usage_history self ++ [log_entry])).

(** The calls a client can make, and a run of them; a run stops at the
    first call that raises. *)
Inductive Call :=
| Register (account_name : string)
| GetStatus (account_name : string)
| FindAvailable (required_chars : Z) (account_names : list string)
| LogUsage (now account_name provider : string) (chars_used : Z) (voice_used : string)
    (video_id : option string).

Definition call (self : Tracker) (c : Call) : result Tracker :=
  match c with
  | Register account_name => Ok (register_account self account_name)
  | GetStatus account_name =>
      let '(self, r) := get_account_status self account_name in
      let! _ := r in Ok self
  | FindAvailable required_chars account_names =>
      let '(self, r) := find_available_account self required_chars account_names in
      let! _ := r in Ok self
  | LogUsage now account_name provider chars_used voice_used video_id =>
      log_usage self now account_name provider chars_used voice_used video_id
  end.

Fixpoint run (self : Tracker) (calls : list Call) : result Tracker :=
  match calls with
  | [] => Ok self
  | c :: calls' => let! self := call self c in run self calls'
  end.

End VoiceUsageTracker.

(* ===================================================================== *)
(** * Further notions used to state properties                             *)
(* ===================================================================== *)

Module Notions.

(** The files a list of tasks is synthesized into. *)
Definition paths_of (temp_dir vid_id : string) (tasks : list (string * string)) : list string :=
  (λ kt, (QuizTemplate.generate_single_audio temp_dir vid_id kt.1 kt.2).2) <$> tasks.

(** The text [extract_keywords_ordered] searches: the four fields it reads,
    joined by single spaces. *)
Definition searched_text (script : gmap string string) : string :=
  VideoProcessor.get script "question_text" +:+ " "
    +:+ VideoProcessor.get script "explanation_spoken" +:+ " "
    +:+ VideoProcessor.get script "fact_details" +:+ " "
    +:+ VideoProcessor.get script "tip_content".

(** A clip that lies within the first [limit] seconds of the source. *)
Definition within (limit : Q) (c : VideoProcessor.Scene) : Prop :=
  0 <= VideoProcessor.scene_start c
  ∧ VideoProcessor.scene_start c + VideoProcessor.scene_len c <= limit.

(** A sound effect whose file exists and could be opened. *)
Definition loaded (path_exists load_ok : string → bool) (c : SFXManager.SfxClip) : Prop :=
  path_exists (SFXManager.sfx_path c) = true ∧ load_ok (SFXManager.sfx_path c) = true.

(** The number a column name stands for in a spreadsheet: [A] is 1, [Z] is
    26, [AA] is 27; letters are digits from 1 to 26 in base 26. *)
Definition column_number (s : string) : Z :=
  fold_left (λ acc c, (acc * 26 + (Z.of_nat (nat_of_ascii c) - 64))%Z)
    (list_ascii_of_string s) 0%Z.

(** An upper-case letter. *)
Definition is_upper (c : ascii) : Prop :=
  (65 <= nat_of_ascii c <= 90)%nat.

(** A character of a normalized file-name part: a lower-case letter, a
    digit or an underscore. *)
Definition is_name_char (c : ascii) : Prop :=
  (97 <= nat_of_ascii c <= 122)%nat ∨ (48 <= nat_of_ascii c <= 57)%nat ∨ c = "_"%char.

(** An ASCII text: every character code is below 128. *)
Definition is_ascii_text (s : string) : Prop :=
  Forall (λ c, (nat_of_ascii c < 128)%nat) (list_ascii_of_string s).

(** The number of characters of [s] that are not the space character, and
    the number that are not white space. *)
Definition non_spaces (s : string) : nat :=
  length (filter (λ c, c ≠ " "%char) (list_ascii_of_string s)).

Definition non_blanks (s : string) : nat :=
  length (filter (λ c, PyStr.is_space c = false) (list_ascii_of_string s)).

(** A group of words is a proper subtitle chunk for a word limit: it has at
    least one word, at most [max_words] (one when the limit is smaller), and
    only its last word can end a sentence. *)
Definition proper_chunk (max_words : Z) (group : list string) : Prop :=
  (1 <= Z.of_nat (length group) <= Z.max 1 max_words)%Z
  ∧ Forall (λ w, KaraokeManager.ends_sentence w = false) (removelast group).

(** The characters the history records for an account with the provider
    [google]. *)
Definition logged_google (account_name : string)
    (history : list VoiceUsageTracker.LogEntry) : Z :=
  foldr Z.add 0%Z
    (VoiceUsageTracker.entry_chars <$>
       filter (λ e, VoiceUsageTracker.entry_provider e = "google"
                    ∧ VoiceUsageTracker.entry_account e = account_name) history).

(** The calls of a run that log usage. *)
Definition is_log (c : VoiceUsageTracker.Call) : bool :=
  match c with VoiceUsageTracker.LogUsage _ _ _ _ _ _ => true | _ => false end.

(** Quota state and history agree: every account has the monthly quota as
    its limit, what is available is the limit less what is used, and what is
    used is what the history records for it. *)
Definition books_balance (t : VoiceUsageTracker.Tracker) : Prop :=
  ∀ account_name,
    match VoiceUsageTracker.accounts t !! account_name with
    | Some acc =>
        VoiceUsageTracker.quota_limit acc = VoiceUsageTracker.MONTHLY_QUOTA
        ∧ VoiceUsageTracker.available acc =
            (VoiceUsageTracker.quota_limit acc - VoiceUsageTracker.used_chars acc)%Z
        ∧ VoiceUsageTracker.used_chars acc =
            logged_google account_name (VoiceUsageTracker.usage_history t)
    | None => logged_google account_name (VoiceUsageTracker.usage_history t) = 0%Z
    end.

(** The entry of [account_name] once the names of [inspected] have been
    looked at: an entry of [t] as it was; a new entry, with nothing used and
    the full monthly quota, for an inspected name that had none; and no
    entry for any other name. *)
Definition after_inspecting (t : VoiceUsageTracker.Tracker) (inspected : list string)
    (account_name : string) : option VoiceUsageTracker.Account :=
  match VoiceUsageTracker.accounts t !! account_name with
  | Some acc => Some acc
  | None =>
      if bool_decide (account_name ∈ inspected)
      then Some (VoiceUsageTracker.mkAccount 0 VoiceUsageTracker.MONTHLY_QUOTA
                   VoiceUsageTracker.MONTHLY_QUOTA)
      else None
  end.

(** A tracker with one account that has one thousand characters left. *)
Definition nearly_spent : VoiceUsageTracker.Tracker :=
  VoiceUsageTracker.mkTracker "2026-11"
    {[ "google_account1" := VoiceUsageTracker.mkAccount 999000 1000000 1000 ]}
    [ VoiceUsageTracker.mkEntry "2026-11-03T09:00:00" "google_account1" "google" 999000
        "en-IN-Neural2-A" None 15.984 ].

(** What an account has available, an unregistered one counting with the
    full monthly quota. *)
Definition quota_left (t : VoiceUsageTracker.Tracker) (account_name : string) : Z :=
  match VoiceUsageTracker.accounts t !! account_name with
  | Some acc => VoiceUsageTracker.available acc
  | None => VoiceUsageTracker.MONTHLY_QUOTA
  end.

End Notions.

(* ===================================================================== *)
(** * Properties of the timeline                                           *)
(* ===================================================================== *)

Section TimelineFacts.
Import QuizTemplate.

Lemma timing_closed_form (n : Narration) :
  let tl := timing n in
  t_think tl == duration (aud_hook n) + duration (aud_q n) + duration (aud_a n)
                + duration (aud_b n) + duration (aud_c n) + duration (aud_d n)
  ∧ t_ans tl == t_think tl + 3
  ∧ total_dur tl == t_ans tl + duration (aud_expl n) + duration (aud_cta n) + 4.
Proof.
  cbv [timing t_think t_ans total_dur THINK_TIME OUTRO_DURATION].
  repeat split; lra.
Qed.

(** Neighbouring starts never decrease when no step is negative. *)
Lemma starts_adjacent_le (n : Narration) (i : nat) (s s' : Q) :
  Forall (λ d, 0 <= d) (durations n) →
  starts (timing n) !! i = Some s →
  starts (timing n) !! S i = Some s' →
  s <= s'.
Proof.
  intros Hd Hs Hs'.
  repeat (apply Forall_cons_1 in Hd; destruct Hd as [? Hd]).
  do 10 (destruct i as [|i]; [cbn in Hs, Hs'; inversion Hs; inversion Hs'; subst;
          cbv [THINK_TIME] in *; lra |]).
  cbn in Hs. discriminate.
Qed.

End TimelineFacts.

(** C2.  In the timeline computed from the nine narration clips, every
    start but the first is the preceding start plus the preceding step, in
    the fixed role order hook, question, A, B, C, D, think, answer, cta,
    outro; the step is the duration of the role's clip, except after the
    think start, where it is exactly the constant 3.0 (so the answer starts
    at the think start plus 3.0), and the total duration is the outro start
    plus exactly 4.0.  When every clip duration is non-negative the starts
    never decrease. *)
Theorem timeline_accumulates (n : QuizTemplate.Narration) :
  let tl := QuizTemplate.timing n in
  (∀ i s d, QuizTemplate.starts tl !! i = Some s →
            QuizTemplate.steps n !! i = Some d →
            QuizTemplate.starts tl !! S i = Some (s + d))
  ∧ QuizTemplate.steps n =
      <[6%nat := 3.0]> (QuizTemplate.durations n)
  ∧ QuizTemplate.t_ans tl = QuizTemplate.t_think tl + 3.0
  ∧ QuizTemplate.total_dur tl = QuizTemplate.t_outro tl + 4.0
  ∧ (Forall (λ d, 0 <= d) (QuizTemplate.durations n) →
     ∀ i j s s', (i <= j)%nat →
                 QuizTemplate.starts tl !! i = Some s →
                 QuizTemplate.starts tl !! j = Some s' →
                 s <= s').
Proof.
  intros tl. split; [|split; [|split; [|split]]].
  - intros i s d Hs Hd.
    do 9 (destruct i as [|i]; [cbn in Hs, Hd |- *; congruence |]).
    cbn in Hd. discriminate.
  - reflexivity.
  - reflexivity.
  - reflexivity.
  - intros Hnn i j s s' Hij Hi Hj.
    induction Hij as [|j Hij IH] in s', Hj |- *.
    + rewrite Hi in Hj. inversion Hj. lra.
    + destruct (QuizTemplate.starts tl !! j) as [sj|] eqn:Ej.
      * specialize (IH sj eq_refl).
        pose proof (starts_adjacent_le n j sj s' Hnn Ej Hj). lra.
      * apply lookup_ge_None in Ej. apply lookup_lt_Some in Hj. lia.
Qed.

(** The scenario of the specification: durations 1.0, 1.2, 0.8, 0.9, 0.85,
    0.95 for hook, question and options, 0.9 for the think clip, 1.6 and
    1.1 for explanation and cta. *)
Lemma timeline_accumulates_witness :
  let n := QuizTemplate.mkNarration
             (QuizTemplate.mkAudio "hook" 1.0) (QuizTemplate.mkAudio "q" 1.2)
             (QuizTemplate.mkAudio "a" 0.8) (QuizTemplate.mkAudio "b" 0.9)
             (QuizTemplate.mkAudio "c" 0.85) (QuizTemplate.mkAudio "d" 0.95)
             (QuizTemplate.mkAudio "think" 0.9) (QuizTemplate.mkAudio "expl" 1.6)
             (QuizTemplate.mkAudio "cta" 1.1) in
  Forall (λ d, 0 <= d) (QuizTemplate.durations n) ∧
  QuizTemplate.t_think (QuizTemplate.timing n) == 5.7 ∧
  QuizTemplate.t_think (QuizTemplate.timing n) <= QuizTemplate.t_ans (QuizTemplate.timing n).
Proof.
  intros n.
  assert (Hnn : Forall (λ d, 0 <= d) (QuizTemplate.durations n)).
  { repeat constructor; vm_compute; discriminate. }
  split; [exact Hnn | split; [reflexivity |]].
  destruct (timeline_accumulates n) as (_ & _ & _ & _ & Hmono).
  apply (Hmono Hnn 6%nat 7%nat); [lia | reflexivity | reflexivity].
Defined.

(* ===================================================================== *)
(** * The think role                                                       *)
(* ===================================================================== *)

Section ThinkFacts.
Import QuizTemplate Samples.

Lemma audio_tasks_keys (script : gmap string string) (tasks : list (string * string)) :
  audio_tasks script = Some tasks →
  tasks.*1 = ["hook"; "question"; "opt_a"; "opt_b"; "opt_c"; "opt_d";
              "think"; "explanation"; "cta"].
Proof.
  unfold audio_tasks. intros H.
  repeat (match type of H with
          | context [?m !! ?k] => destruct (m !! k); cbn in H; [|discriminate]
          end).
  inversion H. reflexivity.
Qed.

Lemma audio_tasks_think (script : gmap string string) (tasks : list (string * string)) :
  audio_tasks script = Some tasks → tasks !! 6%nat = Some ("think", "Think fast!").
Proof.
  unfold audio_tasks. intros H.
  repeat (match type of H with
          | context [?m !! ?k] => destruct (m !! k); cbn in H; [|discriminate]
          end).
  inversion H. reflexivity.
Qed.

Lemma sample_script_tasks : audio_tasks sample_script = Some sample_tasks.
Proof. vm_compute. reflexivity. Qed.

End ThinkFacts.

(** C5, as stated, fails: it is not the case that the task table of every
    script lacks a task for the think role.  The table of the sample script
    holds one. *)
Lemma think_task_counterexample :
  ¬ (∀ script tasks, QuizTemplate.audio_tasks script = Some tasks →
                     "think" ∉ tasks.*1).
Proof.
  intros H.
  apply (H Samples.sample_script _ sample_script_tasks).
  apply (bool_decide_unpack _). vm_compute. exact I.
Qed.

(** C5, amended.  The think role does have a narration task: the fixed
    text "Think fast!" is synthesized like the others and its clip is placed
    at the think start.  The start of the answer does not depend on that
    clip: it is the sum of the durations of the hook, question and option
    clips plus the 3.0-second constant, and it is unchanged when the think
    clip is replaced by any other. *)
Theorem think_task_and_answer_start (script : gmap string string)
    (tasks : list (string * string)) (n : QuizTemplate.Narration) :
  QuizTemplate.audio_tasks script = Some tasks →
  ("think", "Think fast!") ∈ tasks
  ∧ QuizTemplate.audio_list n (QuizTemplate.timing n) !! 6%nat =
      Some (QuizTemplate.set_start (QuizTemplate.aud_think n)
              (QuizTemplate.t_think (QuizTemplate.timing n)))
  ∧ (∀ c, QuizTemplate.t_ans (QuizTemplate.timing (QuizTemplate.with_think n c)) =
          QuizTemplate.t_ans (QuizTemplate.timing n))
  ∧ QuizTemplate.t_ans (QuizTemplate.timing n) ==
      QuizTemplate.duration (QuizTemplate.aud_hook n)
      + QuizTemplate.duration (QuizTemplate.aud_q n)
      + QuizTemplate.duration (QuizTemplate.aud_a n)
      + QuizTemplate.duration (QuizTemplate.aud_b n)
      + QuizTemplate.duration (QuizTemplate.aud_c n)
      + QuizTemplate.duration (QuizTemplate.aud_d n) + 3.0.
Proof.
  intros Htasks. split; [|split; [|split]].
  - apply list_elem_of_lookup. exists 6%nat. exact (audio_tasks_think script tasks Htasks).
  - reflexivity.
  - intros c. reflexivity.
  - destruct (timing_closed_form n) as (Hthink & Hans & _).
    cbv zeta in Hthink, Hans. rewrite Hans, Hthink. lra.
Qed.

Lemma think_task_and_answer_start_witness :
  QuizTemplate.audio_tasks Samples.sample_script = Some Samples.sample_tasks ∧
  ("think", "Think fast!") ∈ Samples.sample_tasks.
Proof.
  split; [vm_compute; reflexivity |].
  exact (proj1 (think_task_and_answer_start Samples.sample_script _
                  (QuizTemplate.narration_by_role "temp" "quiz" (λ _, 1.0))
                  sample_script_tasks)).
Defined.

(* ===================================================================== *)
(** * Placement of the narration                                           *)
(* ===================================================================== *)

Section PlacementFacts.
Import QuizTemplate Samples.

(** Clips laid end to end, or further apart, do not overlap. *)
Lemma apart_no_overlap (p1 p2 : Placed) :
  placed_end p1 <= placed_start p2 → ¬ overlap p1 p2.
Proof. intros Hle (t & H1 & H2 & H3 & H4). lra. Qed.

End PlacementFacts.

(** C6, as stated, fails: with a think clip of four seconds the think clip,
    placed at 6.0, still plays at 9.5, half a second after the explanation
    clip has started at 9.0. *)
Lemma narration_overlap_counterexample :
  ¬ (∀ n, QuizTemplate.non_overlapping
            (QuizTemplate.audio_list n (QuizTemplate.timing n))).
Proof.
  intros H.
  apply (H Samples.long_think 6%nat 7%nat _ _ ltac:(lia) eq_refl eq_refl).
  exists 9.5. vm_compute. repeat split; discriminate.
Qed.

(** C6, amended.  Every narration clip is placed verbatim at the start the
    timeline gives its role, in role order.  When no clip has a negative
    duration and the think clip is no longer than the 3.0-second pause, no
    two placed clips overlap. *)
Theorem narration_placed_without_overlap (n : QuizTemplate.Narration) :
  let tl := QuizTemplate.timing n in
  let placed := QuizTemplate.audio_list n tl in
  QuizTemplate.placed_clip <$> placed =
    [ QuizTemplate.aud_hook n; QuizTemplate.aud_q n; QuizTemplate.aud_a n;
      QuizTemplate.aud_b n; QuizTemplate.aud_c n; QuizTemplate.aud_d n;
      QuizTemplate.aud_think n; QuizTemplate.aud_expl n; QuizTemplate.aud_cta n ]
  ∧ QuizTemplate.placed_start <$> placed = take 9 (QuizTemplate.starts tl)
  ∧ (Forall (λ d, 0 <= d) (QuizTemplate.durations n) →
     QuizTemplate.duration (QuizTemplate.aud_think n) <= QuizTemplate.THINK_TIME →
     QuizTemplate.non_overlapping placed).
Proof.
  intros tl placed. split; [reflexivity | split; [reflexivity |]].
  intros Hnn Hthink i j p1 p2 Hij H1 H2.
  apply apart_no_overlap.
  repeat (apply Forall_cons_1 in Hnn; destruct Hnn as [? Hnn]).
  cbv [QuizTemplate.THINK_TIME] in Hthink.
  subst placed tl.
  do 9 (destruct i as [|i];
        [ do 9 (destruct j as [|j]; [try lia; cbn in H1, H2;
                                     inversion H1; inversion H2; subst;
                                     cbv [QuizTemplate.placed_end QuizTemplate.placed_start
                                          QuizTemplate.placed_clip QuizTemplate.set_start
                                          QuizTemplate.timing QuizTemplate.THINK_TIME
                                          QuizTemplate.t_hook QuizTemplate.t_q QuizTemplate.t_a
                                          QuizTemplate.t_b QuizTemplate.t_c QuizTemplate.t_d
                                          QuizTemplate.t_think QuizTemplate.t_ans
                                          QuizTemplate.t_cta];
                                     lra |]);
          cbn in H2; discriminate |]).
  cbn in H1. discriminate.
Qed.

Lemma narration_placed_without_overlap_witness :
  let n := QuizTemplate.with_think Samples.long_think (QuizTemplate.mkAudio "think" 0.9) in
  Forall (λ d, 0 <= d) (QuizTemplate.durations n) ∧
  QuizTemplate.duration (QuizTemplate.aud_think n) <= QuizTemplate.THINK_TIME ∧
  QuizTemplate.non_overlapping (QuizTemplate.audio_list n (QuizTemplate.timing n)).
Proof.
  intros n.
  assert (Hnn : Forall (λ d, 0 <= d) (QuizTemplate.durations n)).
  { repeat constructor; vm_compute; discriminate. }
  assert (Hthink : QuizTemplate.duration (QuizTemplate.aud_think n) <= QuizTemplate.THINK_TIME).
  { vm_compute; discriminate. }
  split; [exact Hnn | split; [exact Hthink |]].
  exact (proj2 (proj2 (narration_placed_without_overlap n)) Hnn Hthink).
Defined.

(* ===================================================================== *)
(** * The worker pool and the order of completion                          *)
(* ===================================================================== *)

Section PoolFacts.
Import QuizTemplate.
Variables temp_dir vid_id : string.

Abbreviation path_of k := ((generate_single_audio temp_dir vid_id k "").2).
Abbreviation step := (pool_step temp_dir vid_id).
Abbreviation run := (pool_run temp_dir vid_id).

Local Ltac members :=
  repeat (progress rewrite ?elem_of_app, ?elem_of_cons, ?elem_of_nil in * );
  intuition congruence.

Abbreviation pool_inv := (Invariants.pool_inv temp_dir vid_id).

Lemma pool_inv_submit (tasks : list (string * string)) :
  pool_inv tasks (submit_all tasks).
Proof.
  split; cbn.
  - intros kt. rewrite app_nil_r. auto.
  - intros k p. rewrite lookup_empty. discriminate.
  - intros k t Hin. left. rewrite app_nil_r. exact Hin.
Qed.

Lemma pool_inv_step (tasks : list (string * string)) (s s' : PoolState) :
  pool_inv tasks s → step s s' → pool_inv tasks s'.
Proof.
  intros [Hknown Hstored Hacc] Hstep.
  destruct Hstep as [t q r g fs Hfree | q r1 k text r2 g fs]; cbn in *.
  - split; cbn.
    + intros kt Hin. apply Hknown. members.
    + exact Hstored.
    + intros k t' Hin. destruct (Hacc k t' Hin) as [H|H]; [left; members | by right].
  - split; cbn.
    + intros kt Hin. apply Hknown. members.
    + intros k' p. rewrite lookup_insert. case_decide as Hk.
      * subst k'. intros [= <-]. split; [reflexivity |].
        apply list_elem_of_fmap. exists (k, text). split; [reflexivity |].
        apply Hknown. members.
      * apply Hstored.
    + intros k' t' Hin. rewrite lookup_insert. case_decide as Hk.
      * right. subst k'. reflexivity.
      * destruct (Hacc k' t' Hin) as [H|H]; [left | by right].
        assert ((k', t') ≠ (k, text)) by congruence. members.
Qed.

Lemma pool_inv_run (tasks : list (string * string)) (s s' : PoolState) :
  run s s' → pool_inv tasks s → pool_inv tasks s'.
Proof.
  induction 1 as [|s1 s2 s3 Hstep _ IH]; [auto |].
  intros Hinv. apply IH. eapply pool_inv_step; eauto.
Qed.

(** Once the pool has drained, the store holds, under every submitted
    key and no other, the path derived from that key. *)
Lemma drained_store (tasks : list (string * string)) (s : PoolState) (k : string) :
  pool_inv tasks s → drained s →
  generated_audio_paths s !! k =
    if decide (k ∈ tasks.*1) then Some (path_of k) else None.
Proof.
  intros [Hknown Hstored Hacc] [Hp Hr]. case_decide as Hk.
  - apply list_elem_of_fmap in Hk as ([k' t] & -> & Hin). cbn.
    destruct (Hacc k' t Hin) as [H|H]; [|exact H].
    rewrite Hp, Hr in H. cbn in H. by apply elem_of_nil in H.
  - destruct (generated_audio_paths s !! k) as [p|] eqn:E; [|reflexivity].
    destruct (Hstored k p E) as [_ Hin]. contradiction.
Qed.

(** The scheduler only takes steps of the pool. *)
Lemma fire_step (e : event) (s s' : PoolState) :
  fire temp_dir vid_id e s = Some s' → step s s'.
Proof.
  destruct s as [q r g fs]. destruct e as [|i]; cbn.
  - destruct q as [|t q]; [discriminate |].
    case_decide as Hfree; [|discriminate].
    intros [= <-]. by constructor.
  - destruct (r !! i) as [[k text]|] eqn:E; [|discriminate].
    intros [= <-].
    rewrite <- (take_drop_middle r i (k, text) E) at 1.
    constructor.
Qed.

Lemma run_schedule_run (es : list event) (s s' : PoolState) :
  run_schedule temp_dir vid_id es s = Some s' → run s s'.
Proof.
  induction es as [|e es IH] in s |- *; cbn.
  - intros [= <-]. constructor.
  - destruct (fire temp_dir vid_id e s) as [s1|] eqn:E; cbn; [|discriminate].
    intros H. eapply run_step; [eapply fire_step; eauto | eauto].
Qed.

(** Whatever was submitted, the pool can drain: one task after another. *)
Lemma pool_can_drain (q : list (string * string)) (g : gmap string string) (fs : list string) :
  ∃ s, run (mkPool q [] g fs) s ∧ drained s.
Proof.
  induction q as [|[k text] q IH] in g, fs |- *.
  - eexists. split; [constructor | by split].
  - destruct (IH (<[(generate_single_audio temp_dir vid_id k text).1 :=
                     (generate_single_audio temp_dir vid_id k text).2]> g)
                 (fs ++ [(generate_single_audio temp_dir vid_id k text).2]))
      as (s & Hrun & Hdr).
    exists s. split; [|exact Hdr].
    eapply run_step; [apply step_start; cbn; unfold max_workers; lia |].
    eapply run_step; [apply (step_complete temp_dir vid_id q [] k text [] g fs) |].
    exact Hrun.
Qed.

Variable audio_duration : string → Q.

Lemma open_role_clip (tasks : list (string * string)) (s : PoolState) (k : string) :
  pool_inv tasks s → drained s → k ∈ tasks.*1 →
  open_clip audio_duration (generated_audio_paths s) k =
    Some (role_clip temp_dir vid_id audio_duration k).
Proof.
  intros Hinv Hdr Hk. unfold open_clip.
  rewrite (drained_store tasks s k Hinv Hdr).
  rewrite decide_True by exact Hk. reflexivity.
Qed.

End PoolFacts.

(** C1.  Let the nine narration tasks of a script be submitted to the pool
    of five workers, and let the pool run to completion in any order it
    allows, twice.  Both runs end with the same store of paths keyed by
    role, and both give the same timeline: the one computed in the fixed
    role order from the clip of each role.  Such a run exists. *)
Theorem timeline_independent_of_completion_order
    (temp_dir vid_id : string) (audio_duration : string → Q)
    (script : gmap string string) (tasks : list (string * string))
    (s1 s2 : QuizTemplate.PoolState) :
  QuizTemplate.audio_tasks script = Some tasks →
  QuizTemplate.pool_run temp_dir vid_id (QuizTemplate.submit_all tasks) s1 →
  QuizTemplate.drained s1 →
  QuizTemplate.pool_run temp_dir vid_id (QuizTemplate.submit_all tasks) s2 →
  QuizTemplate.drained s2 →
  QuizTemplate.generated_audio_paths s1 = QuizTemplate.generated_audio_paths s2
  ∧ QuizTemplate.generate_timeline audio_duration s1 =
      Some (QuizTemplate.timing
              (QuizTemplate.narration_by_role temp_dir vid_id audio_duration))
  ∧ QuizTemplate.generate_timeline audio_duration s2 =
      QuizTemplate.generate_timeline audio_duration s1
  ∧ (∃ s, QuizTemplate.pool_run temp_dir vid_id (QuizTemplate.submit_all tasks) s
          ∧ QuizTemplate.drained s).
Proof.
  intros Htasks Hrun1 Hdr1 Hrun2 Hdr2.
  pose proof (pool_inv_run temp_dir vid_id tasks _ _ Hrun1
                (pool_inv_submit temp_dir vid_id tasks)) as Hinv1.
  pose proof (pool_inv_run temp_dir vid_id tasks _ _ Hrun2
                (pool_inv_submit temp_dir vid_id tasks)) as Hinv2.
  assert (Hstore : QuizTemplate.generated_audio_paths s1 =
                   QuizTemplate.generated_audio_paths s2).
  { apply map_eq. intros k.
    rewrite (drained_store temp_dir vid_id tasks s1 k Hinv1 Hdr1).
    rewrite (drained_store temp_dir vid_id tasks s2 k Hinv2 Hdr2).
    reflexivity. }
  assert (Htl : QuizTemplate.generate_timeline audio_duration s1 =
                Some (QuizTemplate.timing
                        (QuizTemplate.narration_by_role temp_dir vid_id audio_duration))).
  { unfold QuizTemplate.generate_timeline, QuizTemplate.open_clips.
    pose proof (audio_tasks_keys script tasks Htasks) as Hkeys.
    repeat (rewrite (open_role_clip temp_dir vid_id audio_duration tasks s1 _ Hinv1 Hdr1)
              by (rewrite Hkeys; apply (bool_decide_unpack _); vm_compute; exact I);
            cbn [mbind option_bind]).
    reflexivity. }
  split; [exact Hstore | split; [exact Htl | split]].
  - unfold QuizTemplate.generate_timeline. rewrite Hstore. reflexivity.
  - apply pool_can_drain.
Qed.

Lemma timeline_independent_of_completion_order_witness :
  QuizTemplate.audio_files (Samples.after Samples.in_order) ≠
    QuizTemplate.audio_files (Samples.after Samples.scrambled)
  ∧ QuizTemplate.drained (Samples.after Samples.in_order)
  ∧ QuizTemplate.drained (Samples.after Samples.scrambled)
  ∧ QuizTemplate.generate_timeline Samples.sample_duration (Samples.after Samples.scrambled) =
      QuizTemplate.generate_timeline Samples.sample_duration (Samples.after Samples.in_order).
Proof.
  assert (Hrun1 : QuizTemplate.pool_run "temp" "quiz"
                    (QuizTemplate.submit_all Samples.sample_tasks)
                    (Samples.after Samples.in_order)).
  { apply run_schedule_run with (es := Samples.in_order). vm_compute. reflexivity. }
  assert (Hrun2 : QuizTemplate.pool_run "temp" "quiz"
                    (QuizTemplate.submit_all Samples.sample_tasks)
                    (Samples.after Samples.scrambled)).
  { apply run_schedule_run with (es := Samples.scrambled). vm_compute. reflexivity. }
  assert (Hdr1 : QuizTemplate.drained (Samples.after Samples.in_order)).
  { split; vm_compute; reflexivity. }
  assert (Hdr2 : QuizTemplate.drained (Samples.after Samples.scrambled)).
  { split; vm_compute; reflexivity. }
  split; [vm_compute; discriminate | split; [exact Hdr1 | split; [exact Hdr2 |]]].
  exact (proj1 (proj2 (proj2
           (timeline_independent_of_completion_order "temp" "quiz"
              Samples.sample_duration Samples.sample_script Samples.sample_tasks
              (Samples.after Samples.in_order) (Samples.after Samples.scrambled)
              sample_script_tasks Hrun1 Hdr1 Hrun2 Hdr2)))).
Defined.

(* ===================================================================== *)
(** * Searching the transcript                                             *)
(* ===================================================================== *)

Section SceneIndexFacts.
Import VideoProcessor.

Lemma seg_matches_iff (kw : string) (t : Q) (seg : Segment) :
  seg_matches kw t seg = true ↔
  t <= start seg ∧ PyStr.contains (PyStr.lower kw) (PyStr.lower (text seg)) = true.
Proof.
  unfold seg_matches. rewrite andb_true_iff, Qle_bool_iff. reflexivity.
Qed.

(** The scan stops at the first segment that passes the test. *)
Lemma scan_first (pre post : list Segment) (seg : Segment) (kw : string) (t : Q) :
  Forall (λ s, seg_matches kw t s = false) pre →
  seg_matches kw t seg = true →
  scan (pre ++ seg :: post) kw t = Some (start seg).
Proof.
  induction 1 as [|s pre Hs _ IH]; intros Hseg; cbn.
  - rewrite Hseg. reflexivity.
  - rewrite Hs. auto.
Qed.

Lemma scan_none (segments : list Segment) (kw : string) (t : Q) :
  Forall (λ s, seg_matches kw t s = false) segments →
  scan segments kw t = None.
Proof.
  induction 1 as [|s l Hs _ IH]; cbn; [reflexivity |].
  rewrite Hs. exact IH.
Qed.

(** A successful scan returns the start of a segment of the transcript
    that passes the test, and every earlier segment fails it. *)
Lemma scan_some (segments : list Segment) (kw : string) (t r : Q) :
  scan segments kw t = Some r →
  ∃ pre seg post, segments = pre ++ seg :: post ∧
                  Forall (λ s, seg_matches kw t s = false) pre ∧
                  seg_matches kw t seg = true ∧ r = start seg.
Proof.
  induction segments as [|s l IH]; cbn; [discriminate |].
  destruct (seg_matches kw t s) eqn:E.
  - intros [= <-]. exists [], s, l. auto.
  - intros H. destruct (IH H) as (pre & seg & post & -> & Hpre & Hseg & ->).
    exists (s :: pre), seg, post. auto.
Qed.

Lemma long_keyword_truthy (kw : string) :
  (3 < String.length kw)%nat →
  negb (PyStr.is_empty kw) && (3 <? String.length kw)%nat = true.
Proof.
  intros H. destruct kw; cbn in H; [lia |].
  cbn [PyStr.is_empty negb andb]. apply Nat.ltb_lt. exact H.
Qed.

End SceneIndexFacts.

(** C3.  [find_best_timestamp] scans the transcript forwards.  On ASCII
    text, where the model's [lower] and length are those of Python: for a
    keyword longer than three characters it returns the start of the first
    segment, in index order, whose start is at least [not_before] and whose
    text contains the keyword, both lower-cased.  When no segment passes
    that test, when the keyword is [None], or when the keyword has at most
    three characters, it returns exactly [not_before + 40]. *)
Theorem find_best_timestamp_first_match_or_skip
    (segments : list VideoProcessor.Segment) (keyword : option string) (not_before : Q) :
  (∀ kw, keyword = Some kw → Notions.is_ascii_text kw) →
  Forall (λ seg, Notions.is_ascii_text (VideoProcessor.text seg)) segments →
  let passes kw seg :=
    not_before <= VideoProcessor.start seg ∧
    PyStr.contains (PyStr.lower kw) (PyStr.lower (VideoProcessor.text seg)) = true in
  (∀ kw pre seg post,
     keyword = Some kw → (3 < String.length kw)%nat →
     segments = pre ++ seg :: post →
     Forall (λ s, ¬ passes kw s) pre → passes kw seg →
     VideoProcessor.find_best_timestamp segments keyword not_before =
       VideoProcessor.start seg)
  ∧ (∀ kw, keyword = Some kw → Forall (λ s, ¬ passes kw s) segments →
           VideoProcessor.find_best_timestamp segments keyword not_before = not_before + 40)
  ∧ (keyword = None →
     VideoProcessor.find_best_timestamp segments keyword not_before = not_before + 40)
  ∧ (∀ kw, keyword = Some kw → (String.length kw <= 3)%nat →
           VideoProcessor.find_best_timestamp segments keyword not_before = not_before + 40).
Proof.
  intros _ _ passes.
  assert (Hfail : ∀ kw l, Forall (λ s, ¬ passes kw s) l →
                          Forall (λ s, VideoProcessor.seg_matches kw not_before s = false) l).
  { intros kw l H. eapply Forall_impl; [exact H |]. intros s Hs. cbn beta in Hs |- *.
    apply not_true_is_false. rewrite seg_matches_iff. exact Hs. }
  split; [|split; [|split]].
  - intros kw pre seg post -> Hlen -> Hpre Hseg.
    unfold VideoProcessor.find_best_timestamp.
    rewrite (long_keyword_truthy kw Hlen).
    rewrite (scan_first pre post seg kw not_before); [reflexivity | auto |].
    apply seg_matches_iff. exact Hseg.
  - intros kw -> Hnone. unfold VideoProcessor.find_best_timestamp.
    rewrite (scan_none segments kw not_before) by auto.
    destruct (_ && _); reflexivity.
  - intros ->. reflexivity.
  - intros kw -> Hlen. unfold VideoProcessor.find_best_timestamp.
    replace (3 <? String.length kw)%nat with false
      by (symmetry; apply Nat.ltb_ge; exact Hlen).
    rewrite andb_false_r. reflexivity.
Qed.

(** The two scenarios of the specification: the keyword "gravity" against a
    transcript saying "Newton studied gravity deeply" at 12.0, and no
    keyword with [not_before] 10.0. *)
Lemma find_best_timestamp_first_match_or_skip_witness :
  VideoProcessor.find_best_timestamp
    [VideoProcessor.mkSegment 3.0 5.0 "Apples fall";
     VideoProcessor.mkSegment 12.0 15.0 "Newton studied gravity deeply"]
    (Some "Gravity") 0 = 12.0
  ∧ VideoProcessor.find_best_timestamp
      [VideoProcessor.mkSegment 12.0 15.0 "Newton studied gravity deeply"] None 10.0
    = 10.0 + 40.
Proof.
  split.
  - refine (proj1 (find_best_timestamp_first_match_or_skip _ (Some "Gravity") 0 _ _)
              "Gravity" [VideoProcessor.mkSegment 3.0 5.0 "Apples fall"]
              (VideoProcessor.mkSegment 12.0 15.0 "Newton studied gravity deeply") []
              eq_refl _ eq_refl _ _).
    + intros kw [= <-]. unfold Notions.is_ascii_text.
      repeat constructor; vm_compute; lia.
    + unfold Notions.is_ascii_text. repeat constructor; vm_compute; lia.
    + cbn. lia.
    + repeat constructor. intros [_ H]. vm_compute in H. discriminate.
    + split; [vm_compute; discriminate | vm_compute; reflexivity].
  - refine (proj1 (proj2 (proj2
             (find_best_timestamp_first_match_or_skip
                [VideoProcessor.mkSegment 12.0 15.0 "Newton studied gravity deeply"]
                None 10.0 _ _))) eq_refl).
    + intros kw H. discriminate H.
    + unfold Notions.is_ascii_text. repeat constructor; vm_compute; lia.
Defined.

(* ===================================================================== *)
(** * The alternating zoom                                                 *)
(* ===================================================================== *)

Section ZoomFacts.
Import VideoProcessor.

Lemma mod2_even (n : nat) : (n mod 2 =? 0)%nat = Nat.even n.
Proof.
  destruct (Nat.even n) eqn:E.
  - apply Nat.eqb_eq. apply Nat.even_spec in E as [k ->].
    rewrite Nat.mul_comm. apply Nat.Div0.mod_mul.
  - apply Nat.eqb_neq. intros H.
    apply Nat.Div0.mod_divides in H as [k ->].
    rewrite Nat.even_mul in E. cbn in E. discriminate.
Qed.

Lemma positive_not_zero (d : Q) : 0 < d → Qeq_bool d 0 = false.
Proof.
  intros H. apply not_true_is_false. intros E.
  apply Qeq_bool_iff in E. rewrite E in H. apply (Qlt_irrefl 0 H).
Qed.

(** The scale function of a clip with a positive duration. *)
Lemma apply_micro_zoom_positive (index : nat) (d : Q) :
  0 < d →
  apply_micro_zoom index d =
    Some (if Nat.even index
          then (λ t, 1 + (0.05 / d) * t)
          else (λ t, 1.05 - (0.05 / d) * t)).
Proof.
  intros H. unfold apply_micro_zoom.
  rewrite (positive_not_zero d H), mod2_even.
  destruct (Nat.even index); reflexivity.
Qed.

Lemma speed_times_duration (d : Q) : 0 < d → (0.05 / d) * d == 0.05.
Proof. intros H. field. intros E. rewrite E in H. apply (Qlt_irrefl 0 H). Qed.

End ZoomFacts.

(** C9.  For clips of positive duration, the zoom of the clip with an even
    index is [1 + (0.05/duration) * t], from 1.00 at its start to 1.05 at
    its end, and the zoom of the clip with an odd index is
    [1.05 - (0.05/duration) * t], from 1.05 to 1.00; so the scale at the end
    of a clip equals the scale at the start of the clip that follows it. *)
Theorem micro_zoom_continuous (index : nat) (d d' : Q) :
  0 < d → 0 < d' →
  ∃ zoom zoom',
    VideoProcessor.apply_micro_zoom index d = Some zoom
    ∧ VideoProcessor.apply_micro_zoom (S index) d' = Some zoom'
    ∧ (if Nat.even index
       then (∀ t, zoom t = 1 + (0.05 / d) * t) ∧ zoom 0 == 1.00 ∧ zoom d == 1.05
       else (∀ t, zoom t = 1.05 - (0.05 / d) * t) ∧ zoom 0 == 1.05 ∧ zoom d == 1.00)
    ∧ zoom d == zoom' 0.
Proof.
  intros Hd Hd'.
  rewrite (apply_micro_zoom_positive index d Hd).
  rewrite (apply_micro_zoom_positive (S index) d' Hd').
  rewrite Nat.even_succ, <- Nat.negb_even.
  pose proof (speed_times_duration d Hd) as Hs.
  eexists _, _. split; [reflexivity | split; [reflexivity |]].
  destruct (Nat.even index); cbn [negb]; repeat split; try reflexivity; try lra.
Qed.

Lemma micro_zoom_continuous_witness :
  0 < 2.0 ∧ 0 < 1.5 ∧
  ∃ zoom zoom',
    VideoProcessor.apply_micro_zoom 0 2.0 = Some zoom
    ∧ VideoProcessor.apply_micro_zoom 1 1.5 = Some zoom'
    ∧ ((∀ t, zoom t = 1 + (0.05 / 2.0) * t) ∧ zoom 0 == 1.00 ∧ zoom 2.0 == 1.05)
    ∧ zoom 2.0 == zoom' 0.
Proof.
  assert (H1 : 0 < 2.0) by (vm_compute; reflexivity).
  assert (H2 : 0 < 1.5) by (vm_compute; reflexivity).
  split; [exact H1 | split; [exact H2 |]].
  exact (micro_zoom_continuous 0 2.0 1.5 H1 H2).
Defined.

(* ===================================================================== *)
(** * The scene-selection loop                                             *)
(* ===================================================================== *)

Lemma Qlt_bool_iff (x y : Q) : Qlt_bool x y = true ↔ x < y.
Proof.
  unfold Qlt_bool. rewrite negb_true_iff. split.
  - intros H. apply Qnot_le_lt. intros Hle.
    apply Qle_bool_iff in Hle. congruence.
  - intros H. apply not_true_is_false. intros Hle.
    apply Qle_bool_iff in Hle. apply (Qlt_not_le _ _ H Hle).
Qed.

Lemma Qlt_bool_false (x y : Q) : Qlt_bool x y = false ↔ y <= x.
Proof.
  split.
  - intros H. apply Qnot_lt_le. intros Hlt. apply Qlt_bool_iff in Hlt. congruence.
  - intros H. apply not_true_is_false. intros Hlt.
    apply Qlt_bool_iff in Hlt. apply (Qlt_not_le _ _ Hlt H).
Qed.

Lemma total_length_snoc (clips : list VideoProcessor.Scene) (c : VideoProcessor.Scene) :
  Stated.total_length (clips ++ [c]) ==
    Stated.total_length clips + VideoProcessor.scene_len c.
Proof.
  induction clips as [|x l IH]; cbn.
  - lra.
  - fold (Stated.total_length (l ++ [c])). fold (Stated.total_length l).
    rewrite IH. lra.
Qed.

Section SelectorFacts.
Import VideoProcessor Stated.

Variable random : nat → Q.
Hypothesis random_unit : ∀ n, 0 <= random n ∧ random n <= 1.
Variable vid_duration : Q.
Variable transcript : list Segment.
Variable keywords : list string.
Variable total_duration : Q.

Abbreviation body := (loop_body random vid_duration transcript keywords total_duration).
Abbreviation loop := (while_loop random vid_duration transcript keywords total_duration).

Lemma uniform_pacing (n : nat) :
  1.5 <= uniform random 1.5 2.5 n ∧ uniform random 1.5 2.5 n <= 2.5.
Proof. unfold uniform. destruct (random_unit n). split; lra. Qed.

(** One pass of the loop, entered with the target not yet reached. *)
Lemma loop_body_step (st : LoopState) :
  current_generated_duration st < total_duration →
  ∃ st' c,
    body st = Some st'
    ∧ final_clips st' = final_clips st ++ [c]
    ∧ current_generated_duration st' = current_generated_duration st + scene_len c
    ∧ 0 < scene_len c ∧ scene_len c <= 2.5
    ∧ scene_len c <= total_duration - current_generated_duration st
    ∧ (1.5 <= scene_len c ∨ scene_len c = total_duration - current_generated_duration st)
    ∧ scene_index c = clip_index st
    ∧ clip_index st' = S (clip_index st)
    ∧ apply_micro_zoom (clip_index st) (scene_len c) = Some (scene_scale c).
Proof.
  intros Hlt. unfold loop_body.
  destruct (uniform_pacing (rng st)) as [Hlo Hhi].
  set (draw := uniform random 1.5 2.5 (rng st)) in *.
  set (remaining := total_duration - current_generated_duration st).
  assert (Hrem : 0 < remaining) by (unfold remaining; lra).
  assert (Hlen : ∃ len, (if Qlt_bool remaining draw then remaining else draw) = len
                        ∧ 0 < len ∧ len <= 2.5 ∧ len <= remaining
                        ∧ (1.5 <= len ∨ len = remaining)).
  { destruct (Qlt_bool remaining draw) eqn:E; eexists; (split; [reflexivity |]).
    - apply Qlt_bool_iff in E. repeat split; try lra; by right.
    - apply Qlt_bool_false in E. repeat split; try lra; by left. }
  destruct Hlen as (len & -> & Hpos & Hmax & Hfit & Hfull).
  rewrite (apply_micro_zoom_positive (clip_index st) len Hpos).
  destruct (Qlt_bool (safe_duration vid_duration) _); cbn [mbind option_bind];
    eexists _, _; (split; [reflexivity |]);
    cbn [final_clips current_generated_duration clip_index];
    (split; [reflexivity |]);
    cbn [scene_len scene_index scene_scale];
    rewrite (apply_micro_zoom_positive (clip_index st) len Hpos);
    repeat split; auto.
Qed.

Abbreviation loop_inv := (Invariants.loop_inv total_duration).

Lemma loop_inv_initial : 0 <= total_duration → loop_inv initial.
Proof.
  intros H. split; cbn.
  - reflexivity.
  - lra.
  - intros _. constructor.
  - by left.
  - intros i c. rewrite lookup_nil. discriminate.
  - reflexivity.
Qed.

Lemma loop_inv_body (st st' : LoopState) :
  loop_inv st → current_generated_duration st < total_duration →
  body st = Some st' →
  loop_inv st' ∧
  ∃ c, current_generated_duration st' = current_generated_duration st + scene_len c
       ∧ (1.5 <= scene_len c ∨ scene_len c = total_duration - current_generated_duration st).
Proof.
  intros [Hsum Hbelow Hfull Hshape Hnum Hcount] Hlt Hbody.
  destruct (loop_body_step st Hlt)
    as (st1 & c & Hb & Hclips & Hcur & Hpos & Hmax & Hfit & Hkind & Hidx & Hnext & Hzoom).
  rewrite Hb in Hbody. injection Hbody as <-.
  split; [|exists c; auto].
  split.
  - rewrite Hclips, Hcur, total_length_snoc, Hsum. reflexivity.
  - rewrite Hcur. lra.
  - rewrite Hcur, Hclips. intros Hmore.
    apply Forall_app. split; [auto |].
    constructor; [|constructor]. split; [|exact Hmax].
    destruct Hkind as [H|H]; [exact H | rewrite H in Hmore; lra].
  - right. exists (final_clips st), c. rewrite Hclips. auto.
  - rewrite Hclips. intros i c' Hi.
    apply lookup_app_Some in Hi as [Hi | [Hge Hi]]; [auto |].
    apply list_lookup_singleton_Some in Hi as [Hi <-].
    assert (i = clip_index st) as -> by (rewrite Hcount; lia).
    auto.
  - rewrite Hnext, Hclips, length_app, Hcount. cbn. lia.
Qed.

Lemma inject_nat_succ (k : nat) :
  inject_Z (Z.of_nat (S k)) == inject_Z (Z.of_nat k) + 1.
Proof. rewrite Nat2Z.inj_succ. unfold Z.succ. rewrite inject_Z_plus. reflexivity. Qed.

(** The loop ends: when what remains fits in [k] clips of the shortest
    pacing, more than [k] units of fuel always give the same final state. *)
Lemma while_loop_ends (k : nat) (st : LoopState) :
  loop_inv st →
  total_duration - current_generated_duration st <= 1.5 * inject_Z (Z.of_nat k) →
  ∃ st', (∀ fuel, (k < fuel)%nat → loop fuel st = Done st')
         ∧ loop_inv st'
         ∧ total_duration <= current_generated_duration st'.
Proof.
  induction k as [|k IH] in st |- *; intros Hinv Hrem.
  - exists st. change (inject_Z (Z.of_nat 0)) with 0 in Hrem.
    assert (Hdone : total_duration <= current_generated_duration st) by lra.
    split; [|auto].
    intros [|fuel] Hfuel; [lia |]. cbn.
    rewrite (proj2 (Qlt_bool_false _ _) Hdone). reflexivity.
  - destruct (Qlt_le_dec (current_generated_duration st) total_duration) as [Hlt | Hdone].
    + destruct (loop_body_step st Hlt) as (st1 & c & Hb & _).
      destruct (loop_inv_body st st1 Hinv Hlt Hb) as (Hinv1 & c1 & Hcur & Hkind).
      destruct (IH st1 Hinv1) as (st' & Hloop & Hinv' & Hdone).
      { rewrite inject_nat_succ in Hrem. rewrite Hcur.
        destruct Hkind as [H|H]; [lra |].
        rewrite H.
        assert (0 <= inject_Z (Z.of_nat k))
          by (change 0 with (inject_Z 0); rewrite <- Zle_Qle; lia).
        lra. }
      exists st'. split; [|auto].
      intros [|fuel] Hfuel; [lia |]. cbn.
      rewrite (proj2 (Qlt_bool_iff _ _) Hlt), Hb.
      apply Hloop. lia.
    + exists st. split; [|auto].
      intros [|fuel] Hfuel; [lia |]. cbn.
      rewrite (proj2 (Qlt_bool_false _ _) Hdone). reflexivity.
Qed.

(** Enough iterations for a target: one per second and a half. *)
Lemma enough_fuel :
  0 <= total_duration →
  total_duration <= 1.5 * inject_Z (Z.of_nat (Z.to_nat (Qceiling (total_duration / 1.5)))).
Proof.
  intros H.
  pose proof (Qle_ceiling (total_duration / 1.5)) as Hc.
  assert (H0 : 0 <= total_duration / 1.5).
  { apply Qle_shift_div_l; [reflexivity | lra]. }
  assert (Hz : (0 <= Qceiling (total_duration / 1.5))%Z).
  { change 0%Z with (Qceiling 0). apply Qceiling_resp_le. exact H0. }
  rewrite Z2Nat.id by exact Hz.
  assert (E : total_duration == 1.5 * (total_duration / 1.5)) by (field; discriminate).
  lra.
Qed.

End SelectorFacts.

(** From the initial state the loop reaches a final state that satisfies
    the invariant and has reached the target. *)
Lemma select_scenes_ends (random : nat → Q) (vid_duration : Q)
    (transcript : list VideoProcessor.Segment) (keywords : list string)
    (total_duration : Q) :
  (∀ n, 0 <= random n ∧ random n <= 1) → 0 <= total_duration →
  ∃ st,
    (∀ fuel, (Z.to_nat (Qceiling (total_duration / 1.5)) < fuel)%nat →
             VideoProcessor.while_loop random vid_duration transcript keywords
               total_duration fuel VideoProcessor.initial = Done st)
    ∧ Invariants.loop_inv total_duration st
    ∧ VideoProcessor.current_generated_duration st == total_duration.
Proof.
  intros Hrandom Htotal.
  destruct (while_loop_ends random Hrandom vid_duration transcript keywords total_duration
              (Z.to_nat (Qceiling (total_duration / 1.5))) VideoProcessor.initial
              (loop_inv_initial total_duration Htotal))
    as (st & Hloop & Hinv & Hdone).
  { pose proof (enough_fuel total_duration Htotal). cbn. lra. }
  exists st. split; [exact Hloop | split; [exact Hinv |]].
  pose proof (Invariants.inv_below _ _ Hinv). lra.
Qed.

(** C4.  For a positive target, and draws of [random.random()] in the unit
    interval, the scene-selection loop ends: every sufficient number of
    iterations gives the same clips.  Their lengths sum to the target.  All
    clips but the last have a length drawn from [1.5, 2.5]; the last has a
    positive length of at most 2.5, equal to what the others leave of the
    target. *)
Theorem scene_lengths_sum_to_target (random : nat → Q) (vid_duration : Q)
    (transcript : list VideoProcessor.Segment) (keywords : list string)
    (total_duration : Q) :
  (∀ n, 0 <= random n ∧ random n <= 1) → 0 < total_duration →
  ∃ clips init last,
    (∀ fuel, (Z.to_nat (Qceiling (total_duration / 1.5)) < fuel)%nat →
             VideoProcessor.prepare_video_for_short random vid_duration transcript
               keywords total_duration fuel = Done clips)
    ∧ Stated.total_length clips == total_duration
    ∧ clips = init ++ [last]
    ∧ Forall Stated.full_length init
    ∧ 0 < VideoProcessor.scene_len last
    ∧ VideoProcessor.scene_len last <= 2.5
    ∧ VideoProcessor.scene_len last == total_duration - Stated.total_length init.
Proof.
  intros Hrandom Htotal.
  destruct (select_scenes_ends random vid_duration transcript keywords total_duration
              Hrandom (Qlt_le_weak _ _ Htotal))
    as (st & Hloop & Hinv & Hdone).
  pose proof (Invariants.inv_sum _ _ Hinv) as Hsum.
  destruct (Invariants.inv_shape _ _ Hinv) as [Hnil | (init & last & Hclips & Hinit & Hpos & Hmax)].
  { rewrite Hnil in Hsum. cbn in Hsum. lra. }
  exists (VideoProcessor.final_clips st), init, last.
  split; [|split; [|split; [|split; [|split; [|split]]]]]; auto.
  - intros fuel Hfuel. unfold VideoProcessor.prepare_video_for_short.
    rewrite (Hloop fuel Hfuel). reflexivity.
  - lra.
  - rewrite Hclips, total_length_snoc in Hsum. lra.
Qed.

Lemma scene_lengths_sum_to_target_witness :
  (∀ n : nat, 0 <= 0.5 ∧ 0.5 <= 1) ∧ 0 < 5.0 ∧
  ∃ clips init last,
    (∀ fuel, (Z.to_nat (Qceiling (5.0 / 1.5)) < fuel)%nat →
             VideoProcessor.prepare_video_for_short (λ _, 0.5) 60.0
               [VideoProcessor.mkSegment 12.0 15.0 "Newton studied gravity deeply"]
               ["gravity"] 5.0 fuel = Done clips)
    ∧ Stated.total_length clips == 5.0
    ∧ clips = init ++ [last]
    ∧ Forall Stated.full_length init
    ∧ 0 < VideoProcessor.scene_len last
    ∧ VideoProcessor.scene_len last <= 2.5
    ∧ VideoProcessor.scene_len last == 5.0 - Stated.total_length init.
Proof.
  assert (H1 : ∀ n : nat, 0 <= 0.5 ∧ 0.5 <= 1)
    by (intros _; split; vm_compute; discriminate).
  assert (H2 : 0 < 5.0) by (vm_compute; reflexivity).
  split; [exact H1 | split; [exact H2 |]].
  exact (scene_lengths_sum_to_target (λ _, 0.5) 60.0
           [VideoProcessor.mkSegment 12.0 15.0 "Newton studied gravity deeply"]
           ["gravity"] 5.0 H1 H2).
Defined.

(** In the clips the loop produces, the zoom at the end of each clip is the
    zoom at the start of the next. *)
Lemma scenes_zoom_continuous (random : nat → Q) (vid_duration : Q)
    (transcript : list VideoProcessor.Segment) (keywords : list string)
    (total_duration : Q) (fuel i : nat) (clips : list VideoProcessor.Scene)
    (c c' : VideoProcessor.Scene) :
  (∀ n, 0 <= random n ∧ random n <= 1) → 0 <= total_duration →
  (Z.to_nat (Qceiling (total_duration / 1.5)) < fuel)%nat →
  VideoProcessor.prepare_video_for_short random vid_duration transcript keywords
    total_duration fuel = Done clips →
  clips !! i = Some c → clips !! S i = Some c' →
  VideoProcessor.scene_scale c (VideoProcessor.scene_len c) ==
    VideoProcessor.scene_scale c' 0.
Proof.
  intros Hrandom Htotal Hfuel Hrun Hc Hc'.
  destruct (select_scenes_ends random vid_duration transcript keywords total_duration
              Hrandom Htotal) as (st & Hloop & Hinv & _).
  unfold VideoProcessor.prepare_video_for_short in Hrun.
  rewrite (Hloop fuel Hfuel) in Hrun. injection Hrun as <-.
  destruct (Invariants.inv_numbered _ _ Hinv i c Hc) as (_ & Hpos & Hz).
  destruct (Invariants.inv_numbered _ _ Hinv (S i) c' Hc') as (_ & Hpos' & Hz').
  rewrite (apply_micro_zoom_positive i _ Hpos) in Hz.
  rewrite (apply_micro_zoom_positive (S i) _ Hpos') in Hz'.
  rewrite Nat.even_succ, <- Nat.negb_even in Hz'.
  pose proof (speed_times_duration _ Hpos) as Hs.
  destruct (Nat.even i); cbn [negb] in Hz';
    injection Hz as <-; injection Hz' as <-; lra.
Qed.


(* ===================================================================== *)
(** * The keyword queue                                                    *)
(* ===================================================================== *)

Section KeywordFacts.
Import VideoProcessor Stated.

Lemma lower_app (a b : string) :
  PyStr.lower (a +:+ b) = PyStr.lower a +:+ PyStr.lower b.
Proof. induction a as [|c a IH]; simpl; [reflexivity | rewrite IH; reflexivity]. Qed.

(** Two spaces at the end of a text add no word. *)
Lemma split_from_trailing (cur s : string) :
  PyStr.split_from cur (s +:+ "  ") = PyStr.split_from cur s.
Proof.
  induction s as [|c s IH] in cur |- *; simpl.
  - destruct cur; reflexivity.
  - rewrite !IH. reflexivity.
Qed.

(** Neither does a space in front of it. *)
Lemma split_padded (s : string) :
  PyStr.split (" " +:+ s +:+ "  ") = PyStr.split s.
Proof. unfold PyStr.split. simpl. apply split_from_trailing. Qed.

(** The loop with its [seen] set keeps the first occurrence of every word
    not seen before. *)
Lemma dedup_loop_filter (ws : list string) (seen : gset string) (ordered : list string) :
  dedup_loop ws seen ordered = ordered ++ filter (λ w, w ∉ seen) (dedup_first ws).
Proof.
  induction ws as [|w ws IH] in seen, ordered |- *; cbn [dedup_loop dedup_first].
  - rewrite filter_nil, app_nil_r. reflexivity.
  - case_bool_decide as Hw.
    + rewrite IH, filter_cons_False by (intros H; exact (H Hw)).
      rewrite list_filter_filter_l; [reflexivity |].
      intros x Hx ->. exact (Hx Hw).
    + rewrite IH, filter_cons_True by exact Hw.
      rewrite <- app_assoc. cbn [app]. do 2 f_equal.
      rewrite list_filter_filter. apply list_filter_iff.
      intros x. rewrite elem_of_union, elem_of_singleton. tauto.
Qed.

Lemma dedup_loop_first (ws : list string) : dedup_loop ws ∅ [] = dedup_first ws.
Proof.
  rewrite dedup_loop_filter. cbn [app].
  induction (dedup_first ws) as [|x l IH]; [reflexivity |].
  rewrite filter_cons_True by apply not_elem_of_empty. by rewrite IH.
Qed.

(** The list comprehension of the code filters as the claim says. *)
Lemma clean_filtered_words (ws : list string) : clean ws = filtered_words ws.
Proof.
  unfold clean. induction ws as [|w ws IH]; [reflexivity |].
  cbn [filtered_words]. unfold passes_filter.
  assert (Hstop : PyStr.strip ".,?!" w ∈ stop_words ↔ PyStr.strip ".,?!" w ∈ stop_list).
  { unfold stop_words, stop_list. apply elem_of_list_to_set. }
  destruct (decide ((PyStr.strip ".,?!" w ∉ stop_words) ∧ (4 < String.length w)%nat))
    as [[Hs Hl] | Hno].
  - rewrite filter_cons_True by (split; assumption). cbn [fmap list_fmap].
    replace (4 <? String.length w)%nat with true by (symmetry; by apply Nat.ltb_lt).
    rewrite bool_decide_eq_false_2 by (intros H; apply Hs, Hstop, H).
    cbn [andb negb]. f_equal. exact IH.
  - rewrite filter_cons_False by exact Hno.
    destruct (4 <? String.length w)%nat eqn:El; cbn [andb]; [| exact IH].
    apply Nat.ltb_lt in El.
    rewrite bool_decide_eq_true_2; [exact IH |].
    apply Hstop. destruct (decide (PyStr.strip ".,?!" w ∈ stop_words)) as [Hin | Hout];
      [exact Hin | exfalso; apply Hno; split; assumption].
Qed.

(** What the quiz payload answers to the four lookups of the extraction. *)
Lemma payload_lookups (q : PromptManager.QuizScript) :
  get (PromptManager.payload q) "question_text" = ""
  ∧ get (PromptManager.payload q) "explanation_spoken" = PromptManager.explanation_spoken q
  ∧ get (PromptManager.payload q) "fact_details" = ""
  ∧ get (PromptManager.payload q) "tip_content" = "".
Proof. repeat split; vm_compute; reflexivity. Qed.

End KeywordFacts.

(** C10.  For every quiz script with an ASCII [explanation_spoken], the
    keyword queue is computed from [explanation_spoken] alone: it is the
    order-preserving deduplication of the stripped lower-cased words of that
    text whose raw length exceeds four and whose stripped form is no stop
    word.  The fields [question_text], [fact_details] and [tip_content] are
    absent from a quiz script, so two quiz scripts with the same
    [explanation_spoken] have the same queue, whatever their question. *)
Theorem quiz_keywords_from_explanation_only (q : PromptManager.QuizScript) :
  Notions.is_ascii_text (PromptManager.explanation_spoken q) →
  PromptManager.payload q !! "question_text" = None
  ∧ PromptManager.payload q !! "fact_details" = None
  ∧ PromptManager.payload q !! "tip_content" = None
  ∧ VideoProcessor.extract_keywords_ordered (PromptManager.payload q) =
      Stated.keywords_of_text (PromptManager.explanation_spoken q)
  ∧ (∀ q', PromptManager.explanation_spoken q' = PromptManager.explanation_spoken q →
           VideoProcessor.extract_keywords_ordered (PromptManager.payload q') =
           VideoProcessor.extract_keywords_ordered (PromptManager.payload q)).
Proof.
  intros _.
  assert (Hall : ∀ q0, VideoProcessor.extract_keywords_ordered (PromptManager.payload q0) =
                       Stated.keywords_of_text (PromptManager.explanation_spoken q0)).
  { intros q0. unfold VideoProcessor.extract_keywords_ordered, Stated.keywords_of_text.
    destruct (payload_lookups q0) as (-> & -> & -> & ->).
    rewrite dedup_loop_first, clean_filtered_words.
    change ("" +:+ " " +:+ PromptManager.explanation_spoken q0 +:+ " " +:+ "" +:+ " " +:+ "")
      with (" " +:+ PromptManager.explanation_spoken q0 +:+ "  ").
    rewrite !lower_app.
    change (PyStr.lower " ") with " ". change (PyStr.lower "  ") with "  ".
    rewrite split_padded. reflexivity. }
  split; [vm_compute; reflexivity |].
  split; [vm_compute; reflexivity |].
  split; [vm_compute; reflexivity |].
  split; [apply Hall |].
  intros q' Heq. rewrite !Hall, Heq. reflexivity.
Qed.

Lemma quiz_keywords_from_explanation_only_witness :
  Notions.is_ascii_text (PromptManager.explanation_spoken Samples.sample_quiz)
  ∧ PromptManager.explanation_spoken Samples.other_question =
      PromptManager.explanation_spoken Samples.sample_quiz
  ∧ VideoProcessor.extract_keywords_ordered (PromptManager.payload Samples.sample_quiz) =
      ["newton"; "studied"; "gravity"; "deeply"]
  ∧ VideoProcessor.extract_keywords_ordered (PromptManager.payload Samples.other_question) =
      VideoProcessor.extract_keywords_ordered (PromptManager.payload Samples.sample_quiz).
Proof.
  assert (Ha : Notions.is_ascii_text (PromptManager.explanation_spoken Samples.sample_quiz)).
  { unfold Notions.is_ascii_text. apply (bool_decide_unpack _). vm_compute. exact I. }
  split; [exact Ha |].
  split; [reflexivity | split; [vm_compute; reflexivity |]].
  exact (proj2 (proj2 (proj2 (proj2
           (quiz_keywords_from_explanation_only Samples.sample_quiz Ha))))
           Samples.other_question eq_refl).
Defined.

(* ===================================================================== *)
(** * The sound-effect layer                                               *)
(* ===================================================================== *)

Section SfxFacts.
Import SFXManager Stated.

Variable config_dir : string.
Variable path_exists load_ok normalize_ok : string → bool.
Variable random : nat → nat.
Hypothesis all_exist : ∀ p, path_exists p = true.
Hypothesis all_load : ∀ p, load_ok p = true.

(** A single-file asset that exists and loads gives its cue and draws no
    random number. *)
Lemma get_clip_single (name filename : string) (start_time volume : Q) (r : nat) :
  assets !! name = Some (One filename) →
  PyStr.is_empty filename = false →
  get_clip config_dir path_exists load_ok normalize_ok random name start_time volume r =
    (Some (cue config_dir normalize_ok filename start_time (mixing_rules name volume)), r).
Proof.
  intros Hasset Hname. unfold get_clip. rewrite Hasset.
  cbn [truthy]. rewrite Hname. cbn [negb].
  unfold bind, ret, load_clip. rewrite !all_exist, all_load. reflexivity.
Qed.

(** The six assets of the quiz, with the volume the mixing rules leave. *)
Lemma get_whoosh (start_time volume : Q) (r : nat) :
  get_clip config_dir path_exists load_ok normalize_ok random "whoosh" start_time volume r =
    (Some (cue config_dir normalize_ok "whoosh.wav" start_time (volume * 0.15)), r).
Proof. apply (get_clip_single "whoosh" "whoosh.wav"); vm_compute; reflexivity. Qed.

Lemma get_pop (start_time volume : Q) (r : nat) :
  get_clip config_dir path_exists load_ok normalize_ok random "pop" start_time volume r =
    (Some (cue config_dir normalize_ok "pop_soft.mp3" start_time volume), r).
Proof. apply (get_clip_single "pop" "pop_soft.mp3"); vm_compute; reflexivity. Qed.

Lemma get_tick (start_time volume : Q) (r : nat) :
  get_clip config_dir path_exists load_ok normalize_ok random "tick" start_time volume r =
    (Some (cue config_dir normalize_ok "tick.wav" start_time volume), r).
Proof. apply (get_clip_single "tick" "tick.wav"); vm_compute; reflexivity. Qed.

Lemma get_success (start_time volume : Q) (r : nat) :
  get_clip config_dir path_exists load_ok normalize_ok random "success" start_time volume r =
    (Some (cue config_dir normalize_ok "correct.wav" start_time volume), r).
Proof. apply (get_clip_single "success" "correct.wav"); vm_compute; reflexivity. Qed.

Lemma get_flip (start_time volume : Q) (r : nat) :
  get_clip config_dir path_exists load_ok normalize_ok random "flip" start_time volume r =
    (Some (cue config_dir normalize_ok "paper-slide.wav" start_time (volume * 0.15)), r).
Proof. apply (get_clip_single "flip" "paper-slide.wav"); vm_compute; reflexivity. Qed.

Lemma get_swish_low (start_time volume : Q) (r : nat) :
  get_clip config_dir path_exists load_ok normalize_ok random "swish_low" start_time volume r =
    (Some (cue config_dir normalize_ok "swish_low.wav" start_time (volume * 0.25)), r).
Proof. apply (get_clip_single "swish_low" "swish_low.wav"); vm_compute; reflexivity. Qed.

Lemma evenly_spaced_length (from to : Q) (n : nat) : length (evenly_spaced from to n) = n.
Proof. unfold evenly_spaced. rewrite length_fmap. apply length_seq. Qed.

End SfxFacts.

(** C7, as stated, fails: with five seconds between the think start (6.0)
    and the answer (11.0), the ticks are not evenly spaced across the pause,
    for any number of ticks.  There are twelve of them and the second one is
    at 6.25, not at 6.0 + 5/12. *)
Lemma ticks_span_counterexample :
  ¬ (∀ (timings : gmap string Q) (think ans : Q),
       timings !! "think" = Some think → timings !! "ans" = Some ans → think < ans →
       ∃ N, Forall2 Qeq
              (SFXManager.starts_of "config/sfx/tick.wav"
                 (SFXManager.generate_quiz_sfx "config/sfx" (λ _, true) (λ _, true)
                    (λ _, true) (λ _, O) timings 0%nat).1)
              (Stated.evenly_spaced think ans N)).
Proof.
  intros H.
  destruct (H Samples.long_pause 6.0 11.0) as [N HN];
    [vm_compute; reflexivity | vm_compute; reflexivity | vm_compute; reflexivity |].
  pose proof (Forall2_length _ _ _ HN) as Hlen.
  rewrite evenly_spaced_length in Hlen. subst N.
  vm_compute in HN.
  inversion HN as [|? ? ? ? _ HN1]; subst.
  inversion HN1 as [|? ? ? ? Hsecond _]; subst.
  discriminate Hsecond.
Qed.

(** C7, amended.  For timings that hold every quiz role, and sound files
    that exist and load, the layer is: the whoosh at the question start
    minus 0.2; one pop at the start of each option; twelve ticks at the
    think start plus 0.00, 0.25, ..., 2.75, whatever the start of the
    answer; the chime at the answer start; the paper slide at the cta start;
    the deep swish at the outro start.  No random number is drawn.  The
    ticks are evenly spaced across the pause when the answer starts 3.0
    seconds after the think start, as in the timings of the quiz template. *)
Theorem quiz_sfx_layer (config_dir : string) (path_exists load_ok normalize_ok : string → bool)
    (random : nat → nat) (timings : gmap string Q) (r : nat)
    (q a b c d think ans cta outro : Q) :
  (∀ p, path_exists p = true) → (∀ p, load_ok p = true) →
  timings !! "q" = Some q →
  timings !! "a" = Some a → timings !! "b" = Some b →
  timings !! "c" = Some c → timings !! "d" = Some d →
  timings !! "think" = Some think → timings !! "ans" = Some ans →
  timings !! "cta" = Some cta → timings !! "outro" = Some outro →
  let sfx := Stated.cue config_dir normalize_ok in
  let tick_at (i : nat) := think + inject_Z (Z.of_nat i) * 0.25 in
  SFXManager.generate_quiz_sfx config_dir path_exists load_ok normalize_ok random timings r =
    ([ sfx "whoosh.wav" (q - 0.2) (0.5 * 0.15);
       sfx "pop_soft.mp3" a 0.15; sfx "pop_soft.mp3" b 0.15;
       sfx "pop_soft.mp3" c 0.15; sfx "pop_soft.mp3" d 0.15 ]
     ++ ((λ i, sfx "tick.wav" (tick_at i) 0.6) <$> seq 0 12)
     ++ [ sfx "correct.wav" ans 0.7;
          sfx "paper-slide.wav" cta (1.0 * 0.15);
          sfx "swish_low.wav" outro (0.6 * 0.25) ],
     r)
  ∧ (ans == think + 3.0 →
     Forall2 Qeq (tick_at <$> seq 0 12) (Stated.evenly_spaced think ans 12)).
Proof.
  intros Hexist Hload Hq Ha Hb Hc Hd Hthink Hans Hcta Houtro sfx tick_at.
  split.
  - unfold SFXManager.generate_quiz_sfx, SFXManager.bind, SFXManager.ret.
    cbn [SFXManager.for_each seq]. unfold SFXManager.bind, SFXManager.ret.
    rewrite Hq, Ha, Hb, Hc, Hd, Hthink, Hans, Hcta, Houtro.
    pose proof (get_whoosh config_dir path_exists load_ok normalize_ok random Hexist Hload) as Hw.
    pose proof (get_pop config_dir path_exists load_ok normalize_ok random Hexist Hload) as Hp.
    pose proof (get_tick config_dir path_exists load_ok normalize_ok random Hexist Hload) as Ht.
    pose proof (get_success config_dir path_exists load_ok normalize_ok random Hexist Hload) as Hs.
    pose proof (get_flip config_dir path_exists load_ok normalize_ok random Hexist Hload) as Hf.
    pose proof (get_swish_low config_dir path_exists load_ok normalize_ok random Hexist Hload) as Hl.
    rewrite Hw. cbv beta iota.
    do 4 (rewrite Hp; cbv beta iota).
    do 12 (rewrite Ht; cbv beta iota).
    rewrite Hs. cbv beta iota. rewrite Hf. cbv beta iota. rewrite Hl. cbv beta iota.
    reflexivity.
  - intros Hpause.
    assert (Hstep : (ans - think) / inject_Z (Z.of_nat 12) == 0.25).
    { rewrite Hpause. vm_compute (inject_Z _). field. }
    unfold Stated.evenly_spaced.
    induction (seq 0 12) as [|i l IH]; cbn [fmap list_fmap]; constructor; [|exact IH].
    unfold tick_at. rewrite Hstep. reflexivity.
Qed.

Lemma quiz_sfx_layer_witness :
  QuizTemplate.t_ans Samples.template_timeline ==
    QuizTemplate.t_think Samples.template_timeline + 3.0
  ∧ Forall2 Qeq
      ((λ i : nat, QuizTemplate.t_think Samples.template_timeline
                   + inject_Z (Z.of_nat i) * 0.25) <$> seq 0 12)
      (Stated.evenly_spaced (QuizTemplate.t_think Samples.template_timeline)
         (QuizTemplate.t_ans Samples.template_timeline) 12).
Proof.
  assert (Hpause : QuizTemplate.t_ans Samples.template_timeline ==
                   QuizTemplate.t_think Samples.template_timeline + 3.0)
    by reflexivity.
  split; [exact Hpause |].
  exact (proj2 (quiz_sfx_layer "config/sfx" (λ _, true) (λ _, true) (λ _, true) (λ _, O)
                  Samples.template_timings 0%nat
                  (QuizTemplate.t_q Samples.template_timeline)
                  (QuizTemplate.t_a Samples.template_timeline)
                  (QuizTemplate.t_b Samples.template_timeline)
                  (QuizTemplate.t_c Samples.template_timeline)
                  (QuizTemplate.t_d Samples.template_timeline)
                  (QuizTemplate.t_think Samples.template_timeline)
                  (QuizTemplate.t_ans Samples.template_timeline)
                  (QuizTemplate.t_cta Samples.template_timeline)
                  (QuizTemplate.t_outro Samples.template_timeline)
                  (λ _, eq_refl) (λ _, eq_refl)
                  eq_refl eq_refl eq_refl eq_refl eq_refl eq_refl eq_refl eq_refl eq_refl)
           Hpause).
Defined.

(* ===================================================================== *)
(** * Background music                                                     *)
(* ===================================================================== *)

Lemma int_floor (x : Q) : 0 <= x → ShortsEngine.int x = Qfloor x.
Proof.
  destruct x as [n d]. unfold Qle. cbn. intros H.
  apply Z.quot_div_nonneg; lia.
Qed.

Lemma ceiling_le_floor_succ (x : Q) : (Qceiling x <= Qfloor x + 1)%Z.
Proof.
  pose proof (Qceiling_lt x) as Hc. pose proof (Qlt_floor x) as Hf.
  assert (H : inject_Z (Qceiling x - 1) < inject_Z (Qfloor x + 1))
    by (eapply Qlt_trans; eauto).
  rewrite <- Zlt_Qlt in H. lia.
Qed.

(** Enough repetitions to cover the target. *)
Lemma loop_covers (total d : Q) :
  0 < d → total <= inject_Z (Qfloor (total / d) + 1) * d.
Proof.
  intros Hd. pose proof (Qlt_floor (total / d)) as Hf.
  assert (E : total == total / d * d) by (field; lra).
  rewrite E at 1. apply Qmult_le_compat_r; lra.
Qed.

Lemma get_theme_mood (theme_name : string) :
  ∃ theme, ShortsEngine.get_theme theme_name = Ok theme
           ∧ ShortsEngine.music_mood theme = Stated.mood_of theme_name.
Proof.
  unfold ShortsEngine.get_theme, Stated.mood_of.
  replace (ShortsEngine.THEMES !! "energetic_yellow")
    with (Some (ShortsEngine.mkTheme (15, 23, 42)%Z "#FACC15" "#22C55E"
                  "Energetic Yellow" "energetic"))
    by (vm_compute; reflexivity).
  eexists. split; [reflexivity |].
  destruct (ShortsEngine.THEMES !! theme_name); reflexivity.
Qed.

Section MusicFacts.
Import ShortsEngine Stated.

Variable V : Type.
Variable glob : string → list string.
Variable path_exists : string → bool.
Variable load : string → option Q.
Variable normalize_ok : string → bool.
Variable loop_ok : string → bool.
Variable random : nat.

(** A choice among at least one track succeeds and is one of them. *)
Lemma choice_member (tracks : list string) :
  tracks ≠ [] → ∃ chosen, choice random tracks = Ok chosen ∧ chosen ∈ tracks.
Proof.
  intros Hne. unfold choice. destruct tracks as [|t ts] eqn:E; [congruence |].
  rewrite <- E.
  assert (Hlt : (random mod length tracks < length tracks)%nat).
  { apply Nat.mod_upper_bound. rewrite E. cbn. lia. }
  destruct (lookup_lt_is_Some_2 tracks _ Hlt) as [c Hc].
  exists c. rewrite Hc. split; [reflexivity |].
  apply list_elem_of_lookup. eauto.
Qed.

Lemma levelled_facts (chosen : string) (d : Q) :
  duration (levelled normalize_ok chosen d) = d
  ∧ source (levelled normalize_ok chosen d) = chosen
  ∧ normalized (levelled normalize_ok chosen d) = normalize_ok chosen.
Proof. unfold levelled. destruct (normalize_ok chosen) eqn:E; cbn; auto. Qed.

(** Every way through [add_background_music]. *)
Lemma add_background_music_cases (voice_track : V) (total_duration : Q) (theme_name : string) :
  let result :=
    add_background_music V glob path_exists load normalize_ok loop_ok random
      voice_track total_duration theme_name in
  let tracks := music_candidates glob path_exists (mood_of theme_name) in
  (tracks = [] ∧ result = Ok (VoiceOnly voice_track))
  ∨ ∃ chosen, choice random tracks = Ok chosen ∧ chosen ∈ tracks ∧
      ((load chosen = None ∧ result = Ok (VoiceOnly voice_track))
       ∨ ∃ d, load chosen = Some d ∧
           ((d < total_duration ∧ d == 0 ∧ result = Ok (VoiceOnly voice_track))
            ∨ (d < total_duration ∧ ¬ d == 0 ∧ loop_ok chosen = false
               ∧ result = Ok (VoiceOnly voice_track))
            ∨ (d < total_duration ∧ ¬ d == 0 ∧ loop_ok chosen = true ∧
               result = Ok (CompositeAudioClip voice_track
                              (Volumex 0.12
                                 (Subclip 0 total_duration
                                    (Loop (int (total_duration / d) + 1)
                                          (levelled normalize_ok chosen d))))))
            ∨ (total_duration <= d ∧
               result = Ok (CompositeAudioClip voice_track
                              (Volumex 0.12
                                 (Subclip 0 total_duration (levelled normalize_ok chosen d))))))).
Proof.
  intros result tracks. subst result.
  unfold add_background_music.
  destruct (get_theme_mood theme_name) as (theme & Hget & Hmood).
  rewrite Hget. cbn [ShortsEngine.bind]. cbv zeta. rewrite Hmood.
  change (music_dir +:+ "/" +:+ mood_of theme_name +:+ "/" +:+ "*.mp3")
    with ("config/music/" +:+ mood_of theme_name +:+ "/*.mp3").
  change (music_dir +:+ "/" +:+ "*.mp3") with "config/music/*.mp3".
  assert (Htracks :
    tracks = match glob ("config/music/" +:+ mood_of theme_name +:+ "/*.mp3") with
             | [] =>
                 match glob "config/music/*.mp3" with
                 | [] => if path_exists "config/music.mp3" then ["config/music.mp3"] else []
                 | shared => shared
                 end
             | matched => matched
             end) by reflexivity.
  clearbody tracks.
  destruct (glob ("config/music/" +:+ mood_of theme_name +:+ "/*.mp3")) as [|m ms];
    [destruct (glob "config/music/*.mp3") as [|sh shs];
       [destruct (path_exists "config/music.mp3") |] |].
  2: { left. split; [exact Htracks | reflexivity]. }
  all: right;
    match goal with
    | |- context [ShortsEngine.bind (choice random ?l) _] =>
        destruct (choice_member l ltac:(discriminate)) as (chosen & Hchoice & Hin);
        rewrite Hchoice
    end;
    cbn [ShortsEngine.bind];
    exists chosen; (split; [rewrite Htracks; exact Hchoice |]);
    (split; [rewrite Htracks; exact Hin |]);
    unfold open_audio, try_except;
    (destruct (load chosen) as [d|]; [right; exists d; split; [reflexivity |] | by left]);
    cbn [ShortsEngine.bind]; unfold audio_normalize; cbn [source];
    pose proof (levelled_facts chosen d) as (Hdur & _);
    unfold levelled in *;
    destruct (normalize_ok chosen);
    cbn [duration] in *;
    (destruct (Qlt_bool d total_duration) eqn:Elt;
     [ apply Qlt_bool_iff in Elt; unfold truediv;
       destruct (Qeq_bool d 0) eqn:Ez;
       [ apply Qeq_bool_iff in Ez; left; auto
       | apply Qeq_bool_neq in Ez; cbn [ShortsEngine.bind]; unfold loop; cbn [source];
         destruct (loop_ok chosen) eqn:El;
         [ right; right; left; auto | right; left; auto ] ]
     | apply Qlt_bool_false in Elt; right; right; right; auto ]).
Qed.
End MusicFacts.

(** C8, as stated, fails where it says that a failure of the normalizer
    gives the voice-only mix: with a track of one minute that loads and
    that the normalizer rejects, under a voice track of thirty-five
    seconds, the track is mixed under the voice all the same, at its raw
    level.  The track is long enough, so the library is not asked to loop
    it. *)
Lemma normalization_failure_counterexample :
  ¬ (∀ (glob : string → list string) (path_exists : string → bool)
       (load : string → option Q) (normalize_ok loop_ok : string → bool) (random : nat)
       (voice_track : unit) (total_duration : Q) (theme_name : string),
       (∀ p, load p = None) ∨ (∀ p, normalize_ok p = false) →
       ShortsEngine.add_background_music unit glob path_exists load normalize_ok loop_ok
         random voice_track total_duration theme_name
       = Ok (ShortsEngine.VoiceOnly voice_track)).
Proof.
  intros H.
  specialize (H Samples.shared_only (λ _, false) Samples.one_minute Samples.rejects
                Samples.no_loop 7%nat tt 35.0 "calm_blue" (or_intror (λ _, eq_refl))).
  vm_compute in H. discriminate H.
Qed.

(** C8, amended.  Adding background music never raises: it returns the
    voice track alone or the voice track over a music bed.  The track is
    chosen among those of the mood's directory, or else those at the top of
    the music directory, or else the legacy track; when none of these exists
    the voice track is returned unchanged.  What happens next depends on the
    chosen track alone.  If it fails to load, the voice track is returned.
    If it loads and is at least as long as the target, it is trimmed to the
    target and mixed in at gain 0.12, normalized if the normalizer accepted
    it and raw otherwise: a failure of the normalizer is absorbed.  If it is
    shorter than the target, the library is asked to loop it
    [int(total_duration / duration) + 1] times: when the track has no
    duration, or the library does not loop it, the voice track is returned;
    otherwise the looped track is trimmed and mixed in the same way, and
    for a positive track duration the number of repetitions is the floor of
    the ratio plus one, at least its ceiling, and enough to cover the
    target.  A bed always plays one of the candidate tracks and spans
    exactly [total_duration]. *)
Theorem background_music_never_raises (V : Type)
    (glob : string → list string) (path_exists : string → bool)
    (load : string → option Q) (normalize_ok loop_ok : string → bool) (random : nat)
    (voice_track : V) (total_duration : Q) (theme_name : string) :
  let result :=
    ShortsEngine.add_background_music V glob path_exists load normalize_ok loop_ok random
      voice_track total_duration theme_name in
  let tracks := Stated.music_candidates glob path_exists (Stated.mood_of theme_name) in
  let voice_only := result = Ok (ShortsEngine.VoiceOnly voice_track) in
  (voice_only ∨ ∃ bed, result = Ok (ShortsEngine.CompositeAudioClip voice_track bed))
  ∧ (tracks = [] → voice_only)
  ∧ (tracks ≠ [] → ∃ chosen, ShortsEngine.choice random tracks = Ok chosen)
  ∧ (∀ chosen, ShortsEngine.choice random tracks = Ok chosen →
       chosen ∈ tracks
       ∧ (load chosen = None → voice_only)
       ∧ ∀ d, load chosen = Some d →
           let track := Stated.levelled normalize_ok chosen d in
           (total_duration <= d →
            result = Ok (ShortsEngine.CompositeAudioClip voice_track
                           (ShortsEngine.Volumex 0.12
                              (ShortsEngine.Subclip 0 total_duration track))))
           ∧ (d == 0 → 0 < total_duration → voice_only)
           ∧ (d < total_duration → loop_ok chosen = false → voice_only)
           ∧ (d < total_duration → ¬ d == 0 → loop_ok chosen = true →
              result = Ok (ShortsEngine.CompositeAudioClip voice_track
                             (ShortsEngine.Volumex 0.12
                                (ShortsEngine.Subclip 0 total_duration
                                   (ShortsEngine.Loop
                                      (ShortsEngine.int (total_duration / d) + 1) track))))
              ∧ (0 < d →
                 ShortsEngine.int (total_duration / d) = Qfloor (total_duration / d)
                 ∧ (Qceiling (total_duration / d)
                    <= ShortsEngine.int (total_duration / d) + 1)%Z
                 ∧ total_duration <=
                     ShortsEngine.duration
                       (ShortsEngine.Loop
                          (ShortsEngine.int (total_duration / d) + 1) track))))
  ∧ (∀ bed, result = Ok (ShortsEngine.CompositeAudioClip voice_track bed) →
       ShortsEngine.source bed ∈ tracks
       ∧ ShortsEngine.duration bed == total_duration
       ∧ ShortsEngine.normalized bed = normalize_ok (ShortsEngine.source bed)
       ∧ ∃ inner, bed = ShortsEngine.Volumex 0.12
                          (ShortsEngine.Subclip 0 total_duration inner)).
Proof.
  intros result tracks voice_only. subst voice_only.
  destruct (add_background_music_cases V glob path_exists load normalize_ok loop_ok random
              voice_track total_duration theme_name)
    as [[Ht Hr] | (chosen & Hc & Hin & [[Hl Hr] | (d & Hl &
         [(Hlt & Hz & Hr) | [(Hlt & Hz & Hlo & Hr) | [(Hlt & Hz & Hlo & Hr) | (Hge & Hr)]]])])];
    fold tracks in Ht || (fold tracks in Hc; fold tracks in Hin); fold result in Hr;
    try destruct (levelled_facts normalize_ok chosen d) as (Hdur & Hsrc & Hnorm).
  - (* no candidate *)
    split; [by left |]. split; [auto |]. split; [intros Hne; contradiction |].
    split; [intros c Hchoice; rewrite Ht in Hchoice; discriminate Hchoice |].
    intros bed Hb. rewrite Hr in Hb. discriminate Hb.
  - (* the chosen file does not load *)
    split; [by left |].
    split; [auto |]. split; [eauto |].
    split; [| intros bed Hb; rewrite Hr in Hb; discriminate Hb].
    intros c Hchoice. assert (c = chosen) as -> by congruence.
    split; [exact Hin |]. split; [auto |]. intros d Hd. congruence.
  - (* a track without duration: the division raises and is absorbed *)
    split; [by left |].
    split; [auto |]. split; [eauto |].
    split; [| intros bed Hb; rewrite Hr in Hb; discriminate Hb].
    intros c Hchoice. assert (c = chosen) as -> by congruence.
    split; [exact Hin |]. split; [auto |]. intros d' Hd track.
    assert (d' = d) as -> by congruence.
    split; [intros Hge; exfalso; lra |]. split; [auto |]. split; [auto |].
    intros _ Hnz. contradiction.
  - (* a short track that the library does not loop *)
    split; [by left |].
    split; [auto |]. split; [eauto |].
    split; [| intros bed Hb; rewrite Hr in Hb; discriminate Hb].
    intros c Hchoice. assert (c = chosen) as -> by congruence.
    split; [exact Hin |]. split; [auto |]. intros d' Hd track.
    assert (d' = d) as -> by congruence.
    split; [intros Hge; exfalso; lra |]. split; [auto |]. split; [auto |].
    intros _ _ Hyes. congruence.
  - (* a short track, looped *)
    split; [right; eauto |].
    split; [intros Ht; rewrite Ht in Hin; by apply elem_of_nil in Hin |].
    split; [eauto |].
    split.
    + intros c Hchoice. assert (c = chosen) as -> by congruence.
      split; [exact Hin |]. split; [intros Hno; congruence |]. intros d' Hd track.
      assert (d' = d) as -> by congruence.
      split; [intros Hge; exfalso; lra |].
      split; [intros Hzero; contradiction |].
      split; [intros _ Hno; congruence |].
      intros _ _ _. split; [exact Hr |]. intros Hpos.
      assert (Hratio : 0 <= total_duration / d).
      { apply Qle_shift_div_l; [exact Hpos | lra]. }
      subst track. cbn [ShortsEngine.duration].
      rewrite (int_floor _ Hratio), Hdur.
      split; [reflexivity | split; [apply ceiling_le_floor_succ | by apply loop_covers]].
    + intros bed Hb. rewrite Hr in Hb. injection Hb as <-.
      cbn [ShortsEngine.source ShortsEngine.duration ShortsEngine.normalized].
      rewrite Hsrc, Hnorm.
      split; [exact Hin | split; [lra | split; [reflexivity | eauto]]].
  - (* a track long enough *)
    split; [right; eauto |].
    split; [intros Ht; rewrite Ht in Hin; by apply elem_of_nil in Hin |].
    split; [eauto |].
    split.
    + intros c Hchoice. assert (c = chosen) as -> by congruence.
      split; [exact Hin |]. split; [intros Hno; congruence |]. intros d' Hd track.
      assert (d' = d) as -> by congruence.
      split; [intros _; exact Hr |].
      split; [intros Hzero Hpos; exfalso; rewrite Hzero in Hge; lra |].
      split; [intros Hlt; exfalso; lra |].
      intros Hlt. exfalso. lra.
    + intros bed Hb. rewrite Hr in Hb. injection Hb as <-.
      cbn [ShortsEngine.source ShortsEngine.duration ShortsEngine.normalized].
      rewrite Hsrc, Hnorm.
      split; [exact Hin | split; [lra | split; [reflexivity | eauto]]].
Qed.

(** A shared track of one minute, rejected by the normalizer, under a
    voice track of thirty-five seconds: trimmed and mixed in raw.  The
    same with a track of ten seconds and a library that loops: four
    repetitions, trimmed. *)
Lemma background_music_never_raises_witness :
  ShortsEngine.choice 7
    (Stated.music_candidates Samples.shared_only (λ _, false) (Stated.mood_of "calm_blue"))
    = Ok "config/music/shared.mp3"
  ∧ Samples.raw_mix =
      Ok (ShortsEngine.CompositeAudioClip tt
            (ShortsEngine.Volumex 0.12
               (ShortsEngine.Subclip 0 35.0
                  (ShortsEngine.AudioFile "config/music/shared.mp3" 60.0))))
  ∧ Samples.looped_mix =
      Ok (ShortsEngine.CompositeAudioClip tt
            (ShortsEngine.Volumex 0.12
               (ShortsEngine.Subclip 0 35.0
                  (ShortsEngine.Loop (ShortsEngine.int (35.0 / 10.0) + 1)
                     (ShortsEngine.AudioFile "config/music/shared.mp3" 10.0))))).
Proof.
  assert (Hchoice : ShortsEngine.choice 7
            (Stated.music_candidates Samples.shared_only (λ _, false)
               (Stated.mood_of "calm_blue"))
          = Ok "config/music/shared.mp3") by (vm_compute; reflexivity).
  split; [exact Hchoice |]. split.
  - destruct (background_music_never_raises unit Samples.shared_only (λ _, false)
                Samples.one_minute Samples.rejects Samples.no_loop 7%nat tt 35.0 "calm_blue")
      as (_ & _ & _ & Hby & _).
    destruct (Hby _ Hchoice) as (_ & _ & Hd).
    destruct (Hd 60.0 eq_refl) as (Hlong & _).
    apply Hlong. vm_compute. discriminate.
  - destruct (background_music_never_raises unit Samples.shared_only (λ _, false)
                Samples.ten_seconds Samples.rejects Samples.loops 7%nat tt 35.0 "calm_blue")
      as (_ & _ & _ & Hby & _).
    destruct (Hby _ Hchoice) as (_ & _ & Hd).
    destruct (Hd 10.0 eq_refl) as (_ & _ & _ & Hshort).
    apply Hshort; [vm_compute; reflexivity | vm_compute; discriminate | reflexivity].
Defined.

(* ===================================================================== *)
(** * Further properties of the quiz template                              *)
(* ===================================================================== *)

(** The whole quiz lasts as long as the eight narration clips other than
    the think clip, plus the 3.0-second pause and the 4.0-second outro; the
    think clip has no influence on it.  With clips of non-negative duration
    a quiz therefore lasts at least seven seconds. *)
Theorem quiz_total_duration (n : QuizTemplate.Narration) :
  QuizTemplate.total_dur (QuizTemplate.timing n) ==
    QuizTemplate.duration (QuizTemplate.aud_hook n)
    + QuizTemplate.duration (QuizTemplate.aud_q n)
    + QuizTemplate.duration (QuizTemplate.aud_a n)
    + QuizTemplate.duration (QuizTemplate.aud_b n)
    + QuizTemplate.duration (QuizTemplate.aud_c n)
    + QuizTemplate.duration (QuizTemplate.aud_d n)
    + QuizTemplate.duration (QuizTemplate.aud_expl n)
    + QuizTemplate.duration (QuizTemplate.aud_cta n) + 7.0
  ∧ (∀ c, QuizTemplate.total_dur (QuizTemplate.timing (QuizTemplate.with_think n c)) =
          QuizTemplate.total_dur (QuizTemplate.timing n))
  ∧ (Forall (λ d, 0 <= d) (QuizTemplate.durations n) →
     7.0 <= QuizTemplate.total_dur (QuizTemplate.timing n)).
Proof.
  destruct (timing_closed_form n) as (Hthink & Hans & Htotal). cbv zeta in *.
  split; [rewrite Htotal, Hans, Hthink; lra |].
  split; [intros c; reflexivity |].
  intros Hnn. repeat (apply Forall_cons_1 in Hnn; destruct Hnn as [? Hnn]).
  rewrite Htotal, Hans, Hthink. lra.
Qed.

Lemma quiz_total_duration_witness :
  Forall (λ d, 0 <= d) (QuizTemplate.durations Samples.long_think)
  ∧ 7.0 <= QuizTemplate.total_dur (QuizTemplate.timing Samples.long_think).
Proof.
  assert (Hnn : Forall (λ d, 0 <= d) (QuizTemplate.durations Samples.long_think)).
  { repeat constructor; vm_compute; discriminate. }
  split; [exact Hnn |].
  exact (proj2 (proj2 (quiz_total_duration Samples.long_think)) Hnn).
Defined.

(** Building the narration tasks raises [KeyError] exactly when the script
    lacks one of the nine fields it reads.  A script that follows the quiz
    schema never lacks one: it yields the nine tasks, in role order, with
    the option letters and the answer sentence prepended. *)
Theorem audio_tasks_needs_every_field (script : gmap string string) :
  (QuizTemplate.audio_tasks script = None ↔
   ∃ field, field ∈ Schemas.narrated_fields ∧ script !! field = None)
  ∧ (∀ q, script = PromptManager.payload q →
          QuizTemplate.audio_tasks script =
            Some [ ("hook", PromptManager.hook_spoken q);
                   ("question", PromptManager.question_spoken q);
                   ("opt_a", "A: " +:+ PromptManager.opt_a_spoken q);
                   ("opt_b", "B: " +:+ PromptManager.opt_b_spoken q);
                   ("opt_c", "C: " +:+ PromptManager.opt_c_spoken q);
                   ("opt_d", "D: " +:+ PromptManager.opt_d_spoken q);
                   ("think", "Think fast!");
                   ("explanation",
                    "The answer is " +:+ PromptManager.correct_opt q +:+ "! "
                      +:+ PromptManager.explanation_spoken q);
                   ("cta", PromptManager.cta_spoken q) ]).
Proof.
  split.
  - unfold QuizTemplate.audio_tasks, Schemas.narrated_fields. split.
    + intros H.
      repeat (match type of H with
              | context [?m !! ?k] =>
                  destruct (m !! k) eqn:?; cbn in H;
                  [| exists k; split; [apply (bool_decide_unpack _); vm_compute; exact I | assumption]]
              end).
      discriminate H.
    + intros (field & Hin & Hnone).
      repeat (apply elem_of_cons in Hin as [-> | Hin];
              [repeat (match goal with
                       | |- context [?m !! ?k] =>
                           first [ rewrite Hnone; reflexivity
                                 | destruct (m !! k); cbn; [|reflexivity] ]
                       end) |]).
      by apply elem_of_nil in Hin.
  - intros q ->. vm_compute. reflexivity.
Qed.

Lemma audio_tasks_needs_every_field_witness :
  (∃ field, field ∈ Schemas.narrated_fields ∧
            delete "correct_opt" Samples.sample_script !! field = None)
  ∧ QuizTemplate.audio_tasks (delete "correct_opt" Samples.sample_script) = None.
Proof.
  assert (H : ∃ field, field ∈ Schemas.narrated_fields ∧
                       delete "correct_opt" Samples.sample_script !! field = None).
  { exists "correct_opt". split; [apply (bool_decide_unpack _); vm_compute; exact I |].
    vm_compute. reflexivity. }
  split; [exact H |].
  exact (proj2 (proj1 (audio_tasks_needs_every_field
                         (delete "correct_opt" Samples.sample_script))) H).
Defined.

(* ===================================================================== *)
(** * The files of the narration                                           *)
(* ===================================================================== *)

Lemma string_of_list_app (a b : string) :
  list_ascii_of_string (a +:+ b) = list_ascii_of_string a ++ list_ascii_of_string b.
Proof. induction a as [|c a IH]; simpl; [reflexivity | by rewrite IH]. Qed.

Lemma list_ascii_inj (a b : string) :
  list_ascii_of_string a = list_ascii_of_string b → a = b.
Proof.
  intros H. rewrite <- (string_of_list_ascii_of_string a),
                    <- (string_of_list_ascii_of_string b).
  by rewrite H.
Qed.

(** A common suffix can be cancelled. *)
Lemma string_app_inv_tail (a b s : string) : a +:+ s = b +:+ s → a = b.
Proof.
  intros H. apply list_ascii_inj.
  apply (f_equal list_ascii_of_string) in H.
  rewrite !string_of_list_app in H.
  by apply app_inv_tail in H.
Qed.

Lemma path_key_inj (temp_dir vid_id k1 text1 k2 text2 : string) :
  (QuizTemplate.generate_single_audio temp_dir vid_id k1 text1).2 =
  (QuizTemplate.generate_single_audio temp_dir vid_id k2 text2).2 →
  k1 = k2.
Proof.
  unfold QuizTemplate.generate_single_audio. cbn [snd]. intros H.
  apply String.app_inj in H. apply (String.app_inj "/") in H.
  apply String.app_inj in H. apply (String.app_inj "_") in H.
  by apply string_app_inv_tail in H.
Qed.

(** Different roles are synthesized into different files: the path
    determines the key, whatever the directory, the video id and the
    texts. *)
Theorem audio_paths_distinct (temp_dir vid_id k1 text1 k2 text2 : string) :
  (QuizTemplate.generate_single_audio temp_dir vid_id k1 text1).2 =
  (QuizTemplate.generate_single_audio temp_dir vid_id k2 text2).2 →
  k1 = k2.
Proof. apply path_key_inj. Qed.

Lemma audio_paths_distinct_witness :
  (QuizTemplate.generate_single_audio "temp" "quiz" "hook" "Hello").2 =
  (QuizTemplate.generate_single_audio "temp" "quiz" "hook" "Bye").2
  ∧ "hook" = "hook".
Proof.
  assert (H : (QuizTemplate.generate_single_audio "temp" "quiz" "hook" "Hello").2 =
              (QuizTemplate.generate_single_audio "temp" "quiz" "hook" "Bye").2)
    by reflexivity.
  split; [exact H |].
  exact (audio_paths_distinct "temp" "quiz" "hook" "Hello" "hook" "Bye" H).
Defined.

Section CleanupFacts.
Import QuizTemplate Notions.
Variables temp_dir vid_id : string.

Abbreviation paths := (paths_of temp_dir vid_id).

(** Every submitted file is, at every moment, recorded as finished, or on
    its way: running or pending. *)
Lemma files_conserved (s s' : PoolState) (all : list string) :
  pool_step temp_dir vid_id s s' →
  audio_files s ++ paths (running s) ++ paths (pending s) ≡ₚ all →
  audio_files s' ++ paths (running s') ++ paths (pending s') ≡ₚ all.
Proof.
  intros Hstep Hall. destruct Hstep as [t q r g fs Hfree | q r1 k text r2 g fs];
    cbn [audio_files running pending] in *; rewrite <- Hall; unfold paths_of.
  - rewrite fmap_app, fmap_cons. cbn [fmap list_fmap].
    rewrite <- !app_assoc. cbn [app]. reflexivity.
  - rewrite !fmap_app, fmap_cons, <- !app_assoc. cbn [app fst snd].
    apply Permutation_app_head. apply Permutation_middle.
Qed.

Lemma files_conserved_run (s s' : PoolState) (all : list string) :
  pool_run temp_dir vid_id s s' →
  audio_files s ++ paths (running s) ++ paths (pending s) ≡ₚ all →
  audio_files s' ++ paths (running s') ++ paths (pending s') ≡ₚ all.
Proof.
  induction 1 as [|s1 s2 s3 Hstep _ IH]; [auto |].
  intros H. apply IH. eapply files_conserved; eauto.
Qed.

End CleanupFacts.

(** Whatever the order of completion, once the pool has drained the list of
    files kept for the final clean-up holds the file of each of the nine
    tasks exactly once. *)
Theorem cleanup_list_complete (temp_dir vid_id : string) (script : gmap string string)
    (tasks : list (string * string)) (s : QuizTemplate.PoolState) :
  QuizTemplate.audio_tasks script = Some tasks →
  QuizTemplate.pool_run temp_dir vid_id (QuizTemplate.submit_all tasks) s →
  QuizTemplate.drained s →
  QuizTemplate.audio_files s ≡ₚ Notions.paths_of temp_dir vid_id tasks
  ∧ NoDup (QuizTemplate.audio_files s)
  ∧ length (QuizTemplate.audio_files s) = 9%nat.
Proof.
  intros Htasks Hrun [Hp Hr].
  assert (Hperm : QuizTemplate.audio_files s ≡ₚ Notions.paths_of temp_dir vid_id tasks).
  { pose proof (files_conserved_run temp_dir vid_id _ s
                  (Notions.paths_of temp_dir vid_id tasks) Hrun) as H.
    rewrite Hp, Hr in H. cbn in H. rewrite app_nil_r in H. apply H. reflexivity. }
  pose proof (audio_tasks_keys script tasks Htasks) as Hkeys.
  split; [exact Hperm | split].
  - rewrite Hperm. unfold Notions.paths_of.
    assert (Hfst : (λ kt : string * string,
                      (QuizTemplate.generate_single_audio temp_dir vid_id kt.1 kt.2).2)
                     <$> tasks =
                   (λ k, (QuizTemplate.generate_single_audio temp_dir vid_id k "").2)
                     <$> tasks.*1).
    { rewrite <- list_fmap_compose. apply list_fmap_ext. intros i [k t] _. reflexivity. }
    rewrite Hfst. apply NoDup_fmap_2_strong.
    + intros k1 k2 _ _. apply path_key_inj.
    + rewrite Hkeys. apply (bool_decide_unpack _). vm_compute. exact I.
  - rewrite Hperm. unfold Notions.paths_of. rewrite length_fmap.
    rewrite <- (length_fmap fst), Hkeys. reflexivity.
Qed.

Lemma cleanup_list_complete_witness :
  QuizTemplate.audio_files (Samples.after Samples.scrambled) ≡ₚ
    Notions.paths_of "temp" "quiz" Samples.sample_tasks
  ∧ head (QuizTemplate.audio_files (Samples.after Samples.scrambled)) =
      Some "temp/quiz_opt_c.mp3".
Proof.
  assert (Hrun : QuizTemplate.pool_run "temp" "quiz"
                   (QuizTemplate.submit_all Samples.sample_tasks)
                   (Samples.after Samples.scrambled)).
  { apply run_schedule_run with (es := Samples.scrambled). vm_compute. reflexivity. }
  assert (Hdr : QuizTemplate.drained (Samples.after Samples.scrambled)).
  { split; vm_compute; reflexivity. }
  split; [| vm_compute; reflexivity].
  exact (proj1 (cleanup_list_complete "temp" "quiz" Samples.sample_script
                  Samples.sample_tasks (Samples.after Samples.scrambled)
                  sample_script_tasks Hrun Hdr)).
Defined.

(* ===================================================================== *)
(** * Further properties of the video processor                            *)
(* ===================================================================== *)

(** The search never goes backwards: on ASCII text the timestamp returned
    is at least [not_before].  It is either the forward skip
    [not_before + 40], or the start of a segment of the transcript that
    contains the keyword, for a keyword longer than three characters. *)
Theorem find_best_timestamp_moves_forward
    (segments : list VideoProcessor.Segment) (keyword : option string) (not_before : Q) :
  (∀ kw, keyword = Some kw → Notions.is_ascii_text kw) →
  Forall (λ seg, Notions.is_ascii_text (VideoProcessor.text seg)) segments →
  let found := VideoProcessor.find_best_timestamp segments keyword not_before in
  not_before <= found
  ∧ (found = not_before + 40
     ∨ ∃ kw seg,
         keyword = Some kw ∧ (3 < String.length kw)%nat ∧ seg ∈ segments
         ∧ found = VideoProcessor.start seg
         ∧ PyStr.contains (PyStr.lower kw) (PyStr.lower (VideoProcessor.text seg)) = true).
Proof.
  intros _ _ found. subst found. unfold VideoProcessor.find_best_timestamp.
  destruct keyword as [kw|]; [|split; [lra | by left]].
  destruct (negb (PyStr.is_empty kw) && (3 <? String.length kw)%nat) eqn:Ekw;
    [|split; [lra | by left]].
  destruct (VideoProcessor.scan segments kw not_before) as [t|] eqn:Escan;
    [|split; [lra | by left]].
  apply scan_some in Escan as (pre & seg & post & -> & _ & Hseg & ->).
  apply seg_matches_iff in Hseg as [Hle Hin].
  apply andb_true_iff in Ekw as [_ Hlen]. apply Nat.ltb_lt in Hlen.
  split; [exact Hle |]. right. exists kw, seg.
  repeat split; auto. apply elem_of_app. right. by left.
Qed.

Lemma find_best_timestamp_moves_forward_witness :
  let segments := [VideoProcessor.mkSegment 3.0 5.0 "Apples fall";
                   VideoProcessor.mkSegment 12.0 15.0 "Newton studied gravity deeply"] in
  (∀ kw, Some "GRAVITY" = Some kw → Notions.is_ascii_text kw)
  ∧ Forall (λ seg, Notions.is_ascii_text (VideoProcessor.text seg)) segments
  ∧ 5.0 <= VideoProcessor.find_best_timestamp segments (Some "GRAVITY") 5.0.
Proof.
  intros segments.
  assert (Hk : ∀ kw, Some "GRAVITY" = Some kw → Notions.is_ascii_text kw).
  { intros kw [= <-]. unfold Notions.is_ascii_text. repeat constructor; vm_compute; lia. }
  assert (Hs : Forall (λ seg, Notions.is_ascii_text (VideoProcessor.text seg)) segments).
  { unfold Notions.is_ascii_text. repeat constructor; vm_compute; lia. }
  split; [exact Hk | split; [exact Hs |]].
  exact (proj1 (find_best_timestamp_moves_forward segments (Some "GRAVITY") 5.0 Hk Hs)).
Defined.

Lemma find_forward (segments : list VideoProcessor.Segment) (keyword : option string)
    (not_before : Q) :
  not_before <= VideoProcessor.find_best_timestamp segments keyword not_before.
Proof.
  unfold VideoProcessor.find_best_timestamp.
  destruct keyword as [kw|]; [|lra].
  destruct (negb (PyStr.is_empty kw) && (3 <? String.length kw)%nat); [|lra].
  destruct (VideoProcessor.scan segments kw not_before) as [t|] eqn:Escan; [|lra].
  apply scan_some in Escan as (pre & seg & post & -> & _ & Hseg & ->).
  by apply seg_matches_iff in Hseg as [Hle _].
Qed.

Section KeywordQueueFacts.
Import VideoProcessor Stated.

Lemma dedup_first_elem (ws : list string) (x : string) : x ∈ dedup_first ws ↔ x ∈ ws.
Proof.
  induction ws as [|w ws IH]; cbn [dedup_first]; [reflexivity |].
  rewrite !elem_of_cons, list_elem_of_filter, IH.
  destruct (decide (x = w)); tauto.
Qed.

Lemma dedup_first_NoDup (ws : list string) : NoDup (dedup_first ws).
Proof.
  induction ws as [|w ws IH]; cbn [dedup_first]; constructor.
  - rewrite list_elem_of_filter. tauto.
  - by apply NoDup_filter.
Qed.

End KeywordQueueFacts.

(** For every script whose searched text is ASCII the keyword queue holds
    no keyword twice and no stop word, and every keyword is the stripped
    form of a word of the lower-cased searched text whose raw length exceeds
    four. *)
Theorem keywords_distinct_and_filtered (script : gmap string string) :
  Notions.is_ascii_text (Notions.searched_text script) →
  let queue := VideoProcessor.extract_keywords_ordered script in
  NoDup queue
  ∧ ∀ k, k ∈ queue →
         (k ∉ VideoProcessor.stop_words)
         ∧ ∃ w, w ∈ PyStr.split (PyStr.lower (Notions.searched_text script))
                ∧ (4 < String.length w)%nat
                ∧ k = PyStr.strip ".,?!" w.
Proof.
  intros _ queue. subst queue. unfold VideoProcessor.extract_keywords_ordered.
  fold (Notions.searched_text script).
  rewrite dedup_loop_first. split; [apply dedup_first_NoDup |].
  intros k Hk. apply (proj1 (dedup_first_elem _ _)) in Hk.
  unfold VideoProcessor.clean in Hk.
  apply list_elem_of_fmap in Hk as (w & -> & Hw).
  apply list_elem_of_filter in Hw as [[Hstop Hlen] Hw].
  split; [exact Hstop |]. exists w. auto.
Qed.

(** Scripts that follow the fact and tip schemas define none of the four
    fields the extraction reads, so their keyword queue is empty; every
    scene of such a video is then placed by the forward skip, whatever the
    transcript says. *)
Theorem fact_and_tip_scripts_have_no_keywords
    (f : Schemas.FactScript) (t : Schemas.TipScript) :
  VideoProcessor.extract_keywords_ordered (Schemas.fact_payload f) = []
  ∧ VideoProcessor.extract_keywords_ordered (Schemas.tip_payload t) = []
  ∧ ∀ transcript (clip_index : nat) marker,
      VideoProcessor.find_best_timestamp transcript
        (VideoProcessor.extract_keywords_ordered (Schemas.tip_payload t) !! clip_index)
        marker = marker + 40
      ∧ VideoProcessor.find_best_timestamp transcript
          (VideoProcessor.extract_keywords_ordered (Schemas.fact_payload f) !! clip_index)
          marker = marker + 40.
Proof.
  assert (Hf : VideoProcessor.extract_keywords_ordered (Schemas.fact_payload f) = [])
    by (vm_compute; reflexivity).
  assert (Ht : VideoProcessor.extract_keywords_ordered (Schemas.tip_payload t) = [])
    by (vm_compute; reflexivity).
  split; [exact Hf | split; [exact Ht |]].
  intros transcript i marker. rewrite Hf, Ht, lookup_nil. split; reflexivity.
Qed.

Lemma keywords_distinct_and_filtered_witness :
  Notions.is_ascii_text (Notions.searched_text Samples.sample_script)
  ∧ "gravity" ∈ VideoProcessor.extract_keywords_ordered Samples.sample_script
  ∧ "gravity" ∉ VideoProcessor.stop_words.
Proof.
  assert (Ha : Notions.is_ascii_text (Notions.searched_text Samples.sample_script)).
  { unfold Notions.is_ascii_text. apply (bool_decide_unpack _). vm_compute. exact I. }
  assert (H : "gravity" ∈ VideoProcessor.extract_keywords_ordered Samples.sample_script)
    by (apply (bool_decide_unpack _); vm_compute; exact I).
  split; [exact Ha | split; [exact H |]].
  exact (proj1 (proj2 (keywords_distinct_and_filtered Samples.sample_script Ha) "gravity" H)).
Defined.

Section WindowFacts.
Import VideoProcessor Stated Notions.

Variable random : nat → Q.
Hypothesis random_unit : ∀ n, 0 <= random n ∧ random n <= 1.
Variable vid_duration : Q.
Variable transcript : list Segment.
Variable keywords : list string.
Variable total_duration : Q.

Abbreviation body := (loop_body random vid_duration transcript keywords total_duration).
Abbreviation loop := (while_loop random vid_duration transcript keywords total_duration).
Abbreviation safe := (safe_duration vid_duration).

(** A property of the state that holds at the start and that every pass
    through the body keeps, holds when the loop is done. *)
Lemma while_loop_keeps (P : LoopState → Prop) :
  (∀ st st', P st → current_generated_duration st < total_duration →
             body st = Some st' → P st') →
  ∀ fuel st st', P st → loop fuel st = Done st' → P st'.
Proof.
  intros Hkeep. induction fuel as [|fuel IH]; intros st st' HP; cbn; [discriminate |].
  destruct (Qlt_bool (current_generated_duration st) total_duration) eqn:E.
  - apply Qlt_bool_iff in E.
    destruct (body st) as [st1|] eqn:Hb; [|discriminate].
    apply IH. eapply Hkeep; eauto.
  - intros [= <-]. exact HP.
Qed.

(** The safety-trimmed duration never exceeds the duration of the source,
    and is at least four seconds when the source is. *)
Lemma safe_duration_bounds :
  safe <= vid_duration ∧ (4 <= vid_duration → 4 <= safe).
Proof.
  unfold safe_duration. destruct (Qlt_bool (vid_duration - 5.0) 10) eqn:E.
  - split; [lra | auto].
  - apply Qlt_bool_false in E. split; intros; lra.
Qed.

(** A rewind lands in the first quarter of the safe zone. *)
Lemma rewind_range (n : nat) :
  4 <= safe →
  1 <= uniform random 1.0 (safe / 4) n ∧ 4 * uniform random 1.0 (safe / 4) n <= safe.
Proof.
  intros H4. unfold uniform. destruct (random_unit n) as [H0 H1].
  assert (Hquarter : safe / 4 == safe * (1 # 4)) by reflexivity.
  set (w := safe / 4 - 1.0) in *.
  assert (Hw : w == safe * (1 # 4) - 1.0) by (unfold w; rewrite Hquarter; reflexivity).
  assert (Hq : 0 <= w) by lra.
  assert (Hw0 : 0 <= w * random n) by (apply Qmult_le_0_compat; assumption).
  assert (Hw1 : w * random n <= w).
  { rewrite (Qmult_comm w). rewrite <- (Qmult_1_l w) at 2.
    apply Qmult_le_compat_r; assumption. }
  clearbody w. set (p := w * random n) in *. clearbody p.
  split; lra.
Qed.

(** Where one pass of the loop puts its clip. *)
Lemma loop_body_window (st st' : LoopState) :
  4 <= safe → 0 <= current_time_marker st →
  current_generated_duration st < total_duration →
  body st = Some st' →
  ∃ c, final_clips st' = final_clips st ++ [c]
       ∧ within safe c
       ∧ 0 <= current_time_marker st'.
Proof.
  intros H4 Hmark Hlt. unfold loop_body.
  destruct (uniform_pacing random random_unit (rng st)) as [Hlo Hhi].
  set (draw := uniform random 1.5 2.5 (rng st)) in *.
  set (remaining := total_duration - current_generated_duration st).
  assert (Hrem : 0 < remaining) by (unfold remaining; lra).
  assert (Hlen : ∃ len, (if Qlt_bool remaining draw then remaining else draw) = len
                        ∧ 0 < len ∧ len <= 2.5).
  { destruct (Qlt_bool remaining draw) eqn:E; eexists; (split; [reflexivity |]).
    - apply Qlt_bool_iff in E. split; lra.
    - split; lra. }
  destruct Hlen as (len & -> & Hpos & Hmax).
  rewrite (apply_micro_zoom_positive (clip_index st) len Hpos).
  pose proof (find_forward transcript (keywords !! clip_index st) (current_time_marker st))
    as Hfwd.
  set (found := find_best_timestamp transcript (keywords !! clip_index st)
                  (current_time_marker st)) in *.
  destruct (Qlt_bool safe (found + len)) eqn:E; cbn [mbind option_bind];
    intros [= <-]; eexists; (split; [reflexivity |]);
    cbn [current_time_marker]; unfold within; cbn [scene_start scene_len].
  - destruct (rewind_range (S (rng st)) H4) as [Hr1 Hr2]. repeat split; lra.
  - apply Qlt_bool_false in E. repeat split; lra.
Qed.

End WindowFacts.

(** For a source of at least four seconds, every clip the loop extracts
    lies within the safety-trimmed part of the source: it starts at a
    non-negative time and ends by the safe duration, which never exceeds
    the duration of the source. *)
Theorem scenes_stay_in_safe_zone (random : nat → Q) (vid_duration : Q)
    (transcript : list VideoProcessor.Segment) (keywords : list string)
    (total_duration : Q) :
  (∀ n, 0 <= random n ∧ random n <= 1) → 4 <= vid_duration → 0 <= total_duration →
  ∃ clips,
    (∀ fuel, (Z.to_nat (Qceiling (total_duration / 1.5)) < fuel)%nat →
             VideoProcessor.prepare_video_for_short random vid_duration transcript
               keywords total_duration fuel = Done clips)
    ∧ Forall (Notions.within (VideoProcessor.safe_duration vid_duration)) clips
    ∧ VideoProcessor.safe_duration vid_duration <= vid_duration.
Proof.
  intros Hrandom Hvid Htotal.
  destruct (select_scenes_ends random vid_duration transcript keywords total_duration
              Hrandom Htotal) as (st & Hloop & _ & _).
  destruct (safe_duration_bounds vid_duration) as [Hsafe H4]. specialize (H4 Hvid).
  exists (VideoProcessor.final_clips st). split; [|split; [|exact Hsafe]].
  - intros fuel Hfuel. unfold VideoProcessor.prepare_video_for_short.
    rewrite (Hloop fuel Hfuel). reflexivity.
  - refine (proj2 (while_loop_keeps random vid_duration transcript keywords total_duration
                     (λ s, 0 <= VideoProcessor.current_time_marker s
                           ∧ Forall (Notions.within (VideoProcessor.safe_duration vid_duration))
                               (VideoProcessor.final_clips s))
                     _ _ VideoProcessor.initial st _ (Hloop _ (Nat.lt_succ_diag_r _)))).
    + intros s s' [Hmark Hall] Hlt Hbody.
      destruct (loop_body_window random Hrandom vid_duration transcript keywords
                  total_duration s s' H4 Hmark Hlt Hbody) as (c & -> & Hc & Hmark').
      split; [exact Hmark' |].
      apply Forall_app. split; [exact Hall | by constructor].
    + split; [cbn; lra | constructor].
Qed.

Lemma scenes_stay_in_safe_zone_witness :
  (∀ n : nat, 0 <= 0.5 ∧ 0.5 <= 1) ∧ 4 <= 60.0 ∧ 0 <= 5.0
  ∧ ∃ clips,
      (∀ fuel, (Z.to_nat (Qceiling (5.0 / 1.5)) < fuel)%nat →
               VideoProcessor.prepare_video_for_short (λ _, 0.5) 60.0
                 [VideoProcessor.mkSegment 12.0 15.0 "Newton studied gravity deeply"]
                 ["gravity"] 5.0 fuel = Done clips)
      ∧ Forall (Notions.within (VideoProcessor.safe_duration 60.0)) clips
      ∧ VideoProcessor.safe_duration 60.0 <= 60.0.
Proof.
  assert (H1 : ∀ n : nat, 0 <= 0.5 ∧ 0.5 <= 1)
    by (intros _; split; vm_compute; discriminate).
  assert (H2 : 4 <= 60.0) by (vm_compute; discriminate).
  assert (H3 : 0 <= 5.0) by (vm_compute; discriminate).
  split; [exact H1 | split; [exact H2 | split; [exact H3 |]]].
  exact (scenes_stay_in_safe_zone (λ _, 0.5) 60.0
           [VideoProcessor.mkSegment 12.0 15.0 "Newton studied gravity deeply"]
           ["gravity"] 5.0 H1 H2 H3).
Defined.

Lemma full_lengths_sum (clips : list VideoProcessor.Scene) :
  Forall Stated.full_length clips →
  1.5 * inject_Z (Z.of_nat (length clips)) <= Stated.total_length clips
  ∧ Stated.total_length clips <= 2.5 * inject_Z (Z.of_nat (length clips)).
Proof.
  induction 1 as [|c l [Hlo Hhi] _ [IHlo IHhi]].
  - cbn [length Stated.total_length foldr].
    change (inject_Z (Z.of_nat 0)) with 0. split; lra.
  - cbn [length Stated.total_length foldr]. fold (Stated.total_length l).
    rewrite inject_nat_succ. split; lra.
Qed.

(** The number of clips follows from the target: with [n] clips, the
    target is at most [2.5 * n] seconds, and at least [1.5 * (n - 1)]
    seconds. *)
Theorem scene_count_bounds (random : nat → Q) (vid_duration : Q)
    (transcript : list VideoProcessor.Segment) (keywords : list string)
    (total_duration : Q) :
  (∀ n, 0 <= random n ∧ random n <= 1) → 0 < total_duration →
  ∃ clips,
    (∀ fuel, (Z.to_nat (Qceiling (total_duration / 1.5)) < fuel)%nat →
             VideoProcessor.prepare_video_for_short random vid_duration transcript
               keywords total_duration fuel = Done clips)
    ∧ total_duration <= 2.5 * inject_Z (Z.of_nat (length clips))
    ∧ 1.5 * (inject_Z (Z.of_nat (length clips)) - 1) < total_duration.
Proof.
  intros Hrandom Htotal.
  destruct (select_scenes_ends random vid_duration transcript keywords total_duration
              Hrandom (Qlt_le_weak _ _ Htotal)) as (st & Hloop & Hinv & Hdone).
  pose proof (Invariants.inv_sum _ _ Hinv) as Hsum.
  destruct (Invariants.inv_shape _ _ Hinv) as [Hnil | (init & last & Hclips & Hinit & Hpos & Hmax)].
  { rewrite Hnil in Hsum. cbn in Hsum. lra. }
  exists (VideoProcessor.final_clips st). split.
  - intros fuel Hfuel. unfold VideoProcessor.prepare_video_for_short.
    rewrite (Hloop fuel Hfuel). reflexivity.
  - rewrite Hclips in Hsum |- *. rewrite total_length_snoc in Hsum.
    rewrite length_app, Nat.add_1_r, inject_nat_succ.
    destruct (full_lengths_sum init Hinit) as [Hlo Hhi]. split; lra.
Qed.

Lemma scene_count_bounds_witness :
  (∀ n : nat, 0 <= 0.5 ∧ 0.5 <= 1) ∧ 0 < 5.0
  ∧ ∃ clips,
      (∀ fuel, (Z.to_nat (Qceiling (5.0 / 1.5)) < fuel)%nat →
               VideoProcessor.prepare_video_for_short (λ _, 0.5) 60.0 [] [] 5.0 fuel
                 = Done clips)
      ∧ 5.0 <= 2.5 * inject_Z (Z.of_nat (length clips))
      ∧ 1.5 * (inject_Z (Z.of_nat (length clips)) - 1) < 5.0.
Proof.
  assert (H1 : ∀ n : nat, 0 <= 0.5 ∧ 0.5 <= 1)
    by (intros _; split; vm_compute; discriminate).
  assert (H2 : 0 < 5.0) by (vm_compute; reflexivity).
  split; [exact H1 | split; [exact H2 |]].
  exact (scene_count_bounds (λ _, 0.5) 60.0 [] [] 5.0 H1 H2).
Defined.

(* ===================================================================== *)
(** * Further properties of the sound-effect manager                       *)
(* ===================================================================== *)

Section SfxLayerFacts.
Import SFXManager SFXLayers Stated.

Variable config_dir : string.
Variable path_exists load_ok normalize_ok : string → bool.
Variable random : nat → nat.

Abbreviation get := (get_clip config_dir path_exists load_ok normalize_ok random).

Abbreviation loaded := (Notions.loaded path_exists load_ok).

(** What [get_clip] guarantees of a clip it returns. *)
Lemma get_clip_some (name : string) (start_time volume : Q) (r r' : nat) (c : SfxClip) :
  get name start_time volume r = (Some c, r') →
  loaded c ∧ sfx_start c = start_time ∧ sfx_volume c = mixing_rules name volume.
Proof.
  unfold get_clip, bind, ret, load_clip.
  destruct (assets !! name) as [asset|]; [|intros H; cbv beta in H; discriminate H].
  destruct (negb (truthy asset)); [intros H; cbv beta in H; discriminate H |].
  match goal with
  | |- context [match ?e with (a, r0) => _ end] => destruct e as [filename r1]
  end.
  set (path := if path_exists (config_dir +:+ "/" +:+ filename)
               then config_dir +:+ "/" +:+ filename
               else if String.eqb name "pop"
                    then replace ".mp3" ".wav" (config_dir +:+ "/" +:+ filename)
                    else config_dir +:+ "/" +:+ filename).
  destruct (path_exists path) eqn:Hex; cbn [negb]; [|intros H; discriminate H].
  destruct (load_ok path) eqn:Hload; cbn [negb]; [|intros H; discriminate H].
  intros [= <- <-]. repeat split; assumption.
Qed.

Lemma append_get_loaded (name : string) (start_time volume : Q)
    (l : list SfxClip) (r : nat) :
  Forall loaded l →
  Forall loaded ((bind (get name start_time volume) (λ clp, ret (append_if l clp))) r).1.
Proof.
  intros Hl. unfold bind, ret.
  destruct (get name start_time volume r) as [[c|] r'] eqn:E; cbn; [|exact Hl].
  apply Forall_app. split; [exact Hl |]. constructor; [|constructor].
  by apply get_clip_some in E as [Hc _].
Qed.

Lemma bind_loaded (m : Rand (list SfxClip)) (k : list SfxClip → Rand (list SfxClip)) :
  (∀ r, Forall loaded (m r).1) →
  (∀ l r, Forall loaded l → Forall loaded (k l r).1) →
  ∀ r, Forall loaded (bind m k r).1.
Proof.
  intros Hm Hk r. unfold bind. specialize (Hm r).
  destruct (m r) as [l r']. cbn in Hm. by apply Hk.
Qed.

Lemma for_each_loaded {A} (xs : list A) (body : A → list SfxClip → Rand (list SfxClip)) :
  (∀ x l r, Forall loaded l → Forall loaded (body x l r).1) →
  ∀ l r, Forall loaded l → Forall loaded (for_each xs body l r).1.
Proof.
  intros Hbody. induction xs as [|x xs IH]; intros l r Hl; cbn [for_each].
  - exact Hl.
  - apply bind_loaded; [intros r0; by apply Hbody | apply IH].
Qed.

Lemma cue_at_loaded (timings : gmap string Q) (key name : string) (volume : Q)
    (l : list SfxClip) (r : nat) :
  Forall loaded l →
  Forall loaded (cue_at config_dir path_exists load_ok normalize_ok random
                   timings key name volume l r).1.
Proof.
  intros Hl. unfold cue_at. destruct (timings !! key); [|exact Hl].
  by apply append_get_loaded.
Qed.

Lemma quiz_layer_loaded (timings : gmap string Q) (r : nat) :
  Forall loaded
    (generate_quiz_sfx config_dir path_exists load_ok normalize_ok random timings r).1.
Proof.
  unfold generate_quiz_sfx.
  apply bind_loaded; [intros r0; destruct (timings !! "q");
                      [by apply append_get_loaded | constructor] |].
  intros l1 r1 H1. apply bind_loaded.
  { intros r0. apply for_each_loaded; [|exact H1].
    intros key l r2 Hl. destruct (timings !! key); [by apply append_get_loaded | exact Hl]. }
  intros l2 r2 H2. apply bind_loaded.
  { intros r0. destruct (timings !! "think"); [|exact H2].
    apply for_each_loaded; [|exact H2].
    intros i l r3 Hl. by apply append_get_loaded. }
  intros l3 r3 H3. apply bind_loaded;
    [intros r0; destruct (timings !! "ans"); [by apply append_get_loaded | exact H3] |].
  intros l4 r4 H4. apply bind_loaded;
    [intros r0; destruct (timings !! "cta"); [by apply append_get_loaded | exact H4] |].
  intros l5 r5 H5. apply bind_loaded;
    [intros r0; destruct (timings !! "outro"); [by apply append_get_loaded | exact H5] |].
  intros l6 r6 H6. exact H6.
Qed.

Lemma fact_layer_loaded (timings : gmap string Q) (r : nat) :
  Forall loaded
    (generate_fact_sfx config_dir path_exists load_ok normalize_ok random timings r).1.
Proof.
  unfold generate_fact_sfx.
  repeat (apply bind_loaded; [intros ?; apply cue_at_loaded; first [constructor | assumption] |];
          intros ? ? ?).
  unfold ret. cbn [fst]. assumption.
Qed.

Lemma tip_layer_loaded (timings : gmap string Q) (r : nat) :
  Forall loaded
    (generate_tip_sfx config_dir path_exists load_ok normalize_ok random timings r).1.
Proof.
  unfold generate_tip_sfx.
  repeat (apply bind_loaded; [intros ?; apply cue_at_loaded; first [constructor | assumption] |];
          intros ? ? ?).
  unfold ret. cbn [fst]. assumption.
Qed.

End SfxLayerFacts.

(** Whatever the timings and whatever is on disk, every cue of the quiz,
    fact and tip layers plays a file that exists and that could be opened;
    a missing or unreadable sound file only means a missing cue.  With no
    sound file on disk the three layers are empty. *)
Theorem sfx_layers_play_existing_files (config_dir : string)
    (path_exists load_ok normalize_ok : string → bool) (random : nat → nat)
    (timings : gmap string Q) (r : nat) :
  let quiz := (SFXManager.generate_quiz_sfx config_dir path_exists load_ok normalize_ok
                 random timings r).1 in
  let fact := (SFXLayers.generate_fact_sfx config_dir path_exists load_ok normalize_ok
                 random timings r).1 in
  let tip := (SFXLayers.generate_tip_sfx config_dir path_exists load_ok normalize_ok
                random timings r).1 in
  (∀ c, c ∈ quiz ++ fact ++ tip →
        path_exists (SFXManager.sfx_path c) = true
        ∧ load_ok (SFXManager.sfx_path c) = true)
  ∧ ((∀ p, path_exists p = false) → quiz = [] ∧ fact = [] ∧ tip = []).
Proof.
  intros quiz fact tip.
  assert (Hall : Forall (Notions.loaded path_exists load_ok) (quiz ++ fact ++ tip)).
  { rewrite !Forall_app. split; [apply quiz_layer_loaded |].
    split; [apply fact_layer_loaded | apply tip_layer_loaded]. }
  split.
  - intros c Hc. rewrite Forall_forall in Hall. exact (Hall c Hc).
  - intros Hnone.
    assert (Hempty : ∀ l, Forall (Notions.loaded path_exists load_ok) l → l = []).
    { intros [|c l] Hl; [reflexivity |].
      apply Forall_cons_1 in Hl as [[Hex _] _]. rewrite Hnone in Hex. discriminate. }
    rewrite !Forall_app in Hall. destruct Hall as (Hq & Hf & Ht).
    repeat split; by apply Hempty.
Qed.

Lemma sfx_layers_play_existing_files_witness :
  (∀ p : string, (λ _ : string, false) p = false)
  ∧ (SFXManager.generate_quiz_sfx "config/sfx" (λ _, false) (λ _, true) (λ _, true)
       (λ _, O) Samples.template_timings 0%nat).1 = [].
Proof.
  assert (H : ∀ p : string, (λ _ : string, false) p = false) by reflexivity.
  split; [exact H |].
  exact (proj1 (proj2 (sfx_layers_play_existing_files "config/sfx" (λ _, false)
                         (λ _, true) (λ _, true) (λ _, O)
                         Samples.template_timings 0%nat) H)).
Defined.

Section MixingFacts.
Import SFXManager.

Lemma rule_attenuates (name key : string) (factor volume : Q) :
  0 <= factor → factor <= 1 → 0 <= volume →
  0 <= rule name key factor volume ∧ rule name key factor volume <= volume.
Proof.
  intros Hf0 Hf1 Hv. unfold rule. destruct (String.eqb name key); [|split; lra].
  split; [by apply Qmult_le_0_compat |].
  rewrite <- (Qmult_1_r volume) at 2. rewrite !(Qmult_comm volume).
  apply Qmult_le_compat_r; assumption.
Qed.

End MixingFacts.

(** The mixing rules never amplify: whatever the name of the asset, a
    non-negative volume comes out non-negative and no larger than it went
    in. *)
Theorem mixing_rules_never_amplify (name : string) (volume : Q) :
  0 <= volume →
  0 <= SFXManager.mixing_rules name volume
  ∧ SFXManager.mixing_rules name volume <= volume.
Proof.
  intros Hv. unfold SFXManager.mixing_rules.
  repeat match goal with
  | |- context [SFXManager.rule name ?k ?f ?v] =>
      lazymatch v with
      | context [SFXManager.rule] => fail
      | _ =>
          let H := fresh "H" in
          assert (H : 0 <= SFXManager.rule name k f v
                      ∧ SFXManager.rule name k f v <= v)
            by (apply rule_attenuates; [vm_compute; discriminate
                                       | vm_compute; discriminate | lra]);
          destruct H;
          generalize dependent (SFXManager.rule name k f v); intros
      end
  end.
  split; lra.
Qed.

Lemma mixing_rules_never_amplify_witness :
  0 <= 0.5 ∧ SFXManager.mixing_rules "whoosh" 0.5 <= 0.5.
Proof.
  assert (H : 0 <= 0.5) by (vm_compute; discriminate).
  split; [exact H |].
  exact (proj2 (mixing_rules_never_amplify "whoosh" 0.5 H)).
Defined.

Section FallbackFacts.
Import SFXManager.

(** Replacing [".mp3"] leaves alone a prefix that holds no dot. *)
Lemma replace_after_dotless (dir rest : string) :
  Forall (λ c, c ≠ "."%char) (list_ascii_of_string dir) →
  replace_go ".mp3" ".wav" 0 (dir +:+ rest) = dir +:+ replace_go ".mp3" ".wav" 0 rest.
Proof.
  induction dir as [|c dir IH]; intros Hdir; [reflexivity |].
  cbn [list_ascii_of_string] in Hdir. apply Forall_cons_1 in Hdir as [Hc Hdir].
  change (String c dir +:+ rest) with (String c (dir +:+ rest)).
  cbn [replace_go String.prefix].
  destruct (ascii_dec "." c) as [E|_]; [by symmetry in E |].
  rewrite (IH Hdir). reflexivity.
Qed.

End FallbackFacts.

(** The pop has a second chance: when [pop_soft.mp3] is missing from a
    sound directory whose name holds no dot, and [pop_soft.wav] exists and
    opens, the pop is played from the [.wav] file, at the requested time
    and volume. *)
Theorem pop_falls_back_to_wav (config_dir : string)
    (path_exists load_ok normalize_ok : string → bool) (random : nat → nat)
    (start_time volume : Q) (r : nat) :
  Forall (λ c, c ≠ "."%char) (list_ascii_of_string config_dir) →
  path_exists (config_dir +:+ "/pop_soft.mp3") = false →
  path_exists (config_dir +:+ "/pop_soft.wav") = true →
  load_ok (config_dir +:+ "/pop_soft.wav") = true →
  SFXManager.get_clip config_dir path_exists load_ok normalize_ok random
    "pop" start_time volume r =
    (Some (SFXManager.mkSfx (config_dir +:+ "/pop_soft.wav")
             (normalize_ok (config_dir +:+ "/pop_soft.wav")) start_time volume), r).
Proof.
  intros Hdir Hmp3 Hwav Hload. unfold SFXManager.get_clip.
  replace (SFXManager.assets !! "pop") with (Some (SFXManager.One "pop_soft.mp3"))
    by (vm_compute; reflexivity).
  cbn [SFXManager.truthy PyStr.is_empty negb].
  unfold SFXManager.bind, SFXManager.ret, SFXManager.load_clip.
  change (config_dir +:+ "/" +:+ "pop_soft.mp3") with (config_dir +:+ "/pop_soft.mp3").
  rewrite Hmp3. cbn [String.eqb Ascii.eqb Bool.eqb].
  unfold SFXManager.replace. rewrite (replace_after_dotless config_dir _ Hdir).
  change (SFXManager.replace_go ".mp3" ".wav" 0 "/pop_soft.mp3") with "/pop_soft.wav".
  rewrite Hwav, Hload. reflexivity.
Qed.

Lemma pop_falls_back_to_wav_witness :
  let on_disk (p : string) := String.eqb p "config/sfx/pop_soft.wav" in
  SFXManager.get_clip "config/sfx" on_disk (λ _, true) (λ _, true) (λ _, O)
    "pop" 2.0 0.15 0%nat =
    (Some (SFXManager.mkSfx "config/sfx/pop_soft.wav" true 2.0 0.15), 0%nat).
Proof.
  intros on_disk.
  refine (pop_falls_back_to_wav "config/sfx" on_disk (λ _, true) (λ _, true) (λ _, O)
            2.0 0.15 0%nat _ eq_refl eq_refl eq_refl).
  repeat constructor; discriminate.
Defined.

Section AssetPoolFacts.
Import SFXManager SFXLayers Stated.

Variable config_dir : string.
Variable path_exists load_ok normalize_ok : string → bool.
Variable random : nat → nat.
Hypothesis all_exist : ∀ p, path_exists p = true.
Hypothesis all_load : ∀ p, load_ok p = true.

(** An asset with a pool of files draws one random number and plays a
    file of its pool. *)
Lemma get_clip_pool (name : string) (fs : list string) (start_time volume : Q) (r : nat) :
  assets !! name = Some (Pool fs) → fs ≠ [] →
  ∃ f, f ∈ fs ∧
       get_clip config_dir path_exists load_ok normalize_ok random name start_time volume r =
         (Some (cue config_dir normalize_ok f start_time (mixing_rules name volume)), S r).
Proof.
  intros Hasset Hne. unfold get_clip. rewrite Hasset.
  destruct fs as [|f0 fs0] eqn:Efs; [congruence |]. rewrite <- Efs.
  assert (Hlt : (random r mod length fs < length fs)%nat).
  { apply Nat.mod_upper_bound. rewrite Efs. cbn. lia. }
  destruct (lookup_lt_is_Some_2 fs _ Hlt) as [f Hf].
  exists f. split; [apply list_elem_of_lookup; eauto |].
  replace (negb (truthy (Pool fs))) with false by (rewrite Efs; reflexivity).
  unfold bind, ret, choice, load_clip. rewrite Hf. cbn [default].
  rewrite !all_exist, all_load. reflexivity.
Qed.

End AssetPoolFacts.

(** With its sound files in place, the layer of the tip template has one
    cue per role, in this order: a zip at the title, the marker at the
    content, a pop at the bonus, a keyboard at the cta and the deep swish at
    the outro.  The zip and the keyboard are files of their pools, and two
    random numbers are drawn for them. *)
Theorem tip_sfx_layer (config_dir : string) (path_exists load_ok normalize_ok : string → bool)
    (random : nat → nat) (timings : gmap string Q) (r : nat)
    (title content bonus cta outro : Q) :
  (∀ p, path_exists p = true) → (∀ p, load_ok p = true) →
  timings !! "title" = Some title → timings !! "content" = Some content →
  timings !! "bonus" = Some bonus →
  timings !! "cta" = Some cta → timings !! "outro" = Some outro →
  let sfx := Stated.cue config_dir normalize_ok in
  ∃ zip keyboard,
    zip ∈ ["zip.wav"; "zip1.wav"; "zip2.wav"]
    ∧ keyboard ∈ ["keyboard1.wav"; "keyboard2.wav"]
    ∧ SFXLayers.generate_tip_sfx config_dir path_exists load_ok normalize_ok random timings r =
        ([ sfx zip title (1.0 * 0.2);
           sfx "marker.wav" content (1.0 * 0.2);
           sfx "pop_soft.mp3" bonus 0.2;
           sfx keyboard cta (1.0 * 0.25);
           sfx "swish_low.wav" outro (1.0 * 0.25) ],
         S (S r)).
Proof.
  intros Hexist Hload Htitle Hcontent Hbonus Hcta Houtro sfx.
  destruct (get_clip_pool config_dir path_exists load_ok normalize_ok random Hexist Hload
              "zip" ["zip.wav"; "zip1.wav"; "zip2.wav"] title 1.0 r)
    as (zip & Hzip & Hgz); [vm_compute; reflexivity | discriminate |].
  destruct (get_clip_pool config_dir path_exists load_ok normalize_ok random Hexist Hload
              "keyboard" ["keyboard1.wav"; "keyboard2.wav"] cta 1.0 (S r))
    as (kb & Hkb & Hgk); [vm_compute; reflexivity | discriminate |].
  pose proof (get_clip_single config_dir path_exists load_ok normalize_ok random
                Hexist Hload "marker" "marker.wav" content 1.0 (S r)) as Hgm.
  pose proof (get_pop config_dir path_exists load_ok normalize_ok random Hexist Hload
                bonus 0.2 (S r)) as Hgp.
  pose proof (get_swish_low config_dir path_exists load_ok normalize_ok random Hexist Hload
                outro 1.0 (S (S r))) as Hgs.
  exists zip, kb. split; [exact Hzip | split; [exact Hkb |]].
  unfold SFXLayers.generate_tip_sfx, SFXLayers.cue_at, SFXManager.bind, SFXManager.ret.
  rewrite Htitle, Hcontent, Hbonus, Hcta, Houtro.
  rewrite Hgz. cbv beta iota.
  rewrite Hgm by (vm_compute; reflexivity). cbv beta iota.
  rewrite Hgp. cbv beta iota.
  rewrite Hgk. cbv beta iota.
  rewrite Hgs. cbv beta iota.
  reflexivity.
Qed.

Lemma tip_sfx_layer_witness :
  ∃ zip keyboard,
    zip ∈ ["zip.wav"; "zip1.wav"; "zip2.wav"]
    ∧ keyboard ∈ ["keyboard1.wav"; "keyboard2.wav"]
    ∧ SFXLayers.generate_tip_sfx "config/sfx" (λ _, true) (λ _, true) (λ _, true)
        (λ n, S n)
        (<["title" := 1.0]> (<["content" := 2.0]> (<["bonus" := 3.0]>
           (<["cta" := 5.0]> (<["outro" := 6.0]> ∅))))) 0%nat =
        ([ Stated.cue "config/sfx" (λ _, true) zip 1.0 (1.0 * 0.2);
           Stated.cue "config/sfx" (λ _, true) "marker.wav" 2.0 (1.0 * 0.2);
           Stated.cue "config/sfx" (λ _, true) "pop_soft.mp3" 3.0 0.2;
           Stated.cue "config/sfx" (λ _, true) keyboard 5.0 (1.0 * 0.25);
           Stated.cue "config/sfx" (λ _, true) "swish_low.wav" 6.0 (1.0 * 0.25) ],
         2%nat).
Proof.
  exact (tip_sfx_layer "config/sfx" (λ _, true) (λ _, true) (λ _, true) (λ n, S n)
           (<["title" := 1.0]> (<["content" := 2.0]> (<["bonus" := 3.0]>
              (<["cta" := 5.0]> (<["outro" := 6.0]> ∅))))) 0%nat
           1.0 2.0 3.0 5.0 6.0 (λ _, eq_refl) (λ _, eq_refl)
           eq_refl eq_refl eq_refl eq_refl eq_refl).
Defined.

(* ===================================================================== *)
(** * The timer, the cards and the other templates                         *)
(* ===================================================================== *)

Section TimerFacts.
Import QuizTemplate QuizVisuals.

Lemma inject_nat_range (i n : nat) :
  (i < n)%nat →
  0 <= inject_Z (Z.of_nat i) ∧ inject_Z (Z.of_nat i) + 1 <= inject_Z (Z.of_nat n).
Proof.
  intros H. split.
  - change 0 with (inject_Z 0). rewrite <- Zle_Qle. lia.
  - change 1 with (inject_Z 1). rewrite <- inject_Z_plus, <- Zle_Qle. lia.
Qed.

(** The [i]-th segment of the timer bar. *)
Lemma timer_bar_lookup (tl : Timeline) (i : nat) (o : Overlay) :
  timer_bar tl !! i = Some o →
  (i < 10)%nat ∧ from o = t_think tl
  ∧ till o == t_think tl + 0.3 * (inject_Z (Z.of_nat i) + 1).
Proof.
  unfold timer_bar. rewrite list_lookup_fmap.
  destruct (seq 0 segments !! i) as [j|] eqn:E; [|discriminate].
  apply lookup_seq in E as [-> Hlt]. cbn [fmap option_fmap option_map].
  intros [= <-]. split; [exact Hlt | split; [reflexivity |]].
  cbn [till ending]. unfold QuizTemplate.THINK_TIME, segments.
  rewrite inject_Z_plus. change (inject_Z 1) with 1.
  change (inject_Z (Z.of_nat 10)) with 10. field.
Qed.

(** The [i]-th digit of the countdown. *)
Lemma countdown_lookup (tl : Timeline) (i : nat) (num : Z) (o : Overlay) :
  countdown tl !! i = Some (num, o) →
  (i < 3)%nat ∧ num = (3 - Z.of_nat i)%Z
  ∧ from o = t_think tl + inject_Z (Z.of_nat i)
  ∧ till o = t_think tl + inject_Z (Z.of_nat i) + 1.
Proof.
  unfold countdown. rewrite list_lookup_fmap.
  change (Z.to_nat (ShortsEngine.int QuizTemplate.THINK_TIME)) with 3%nat.
  change (ShortsEngine.int QuizTemplate.THINK_TIME) with 3%Z.
  destruct (seq 0 3 !! i) as [j|] eqn:E; [|discriminate].
  apply lookup_seq in E as [-> Hlt]. cbn [fmap option_fmap option_map].
  intros [= <- <-]. auto.
Qed.

End TimerFacts.

(** The timer fills the think pause and nothing more.  The ten segments of
    the bar all start with the pause and end one after the other, three
    tenths of a second apart, the last one exactly when the answer starts.
    The countdown shows 3, 2 and 1 for one second each, back to back, from
    the start of the pause to the start of the answer. *)
Theorem timer_fills_the_pause (n : QuizTemplate.Narration) :
  let tl := QuizTemplate.timing n in
  let bar := QuizVisuals.timer_bar tl in
  let digits := QuizVisuals.countdown tl in
  length bar = 10%nat
  ∧ (∀ i o, bar !! i = Some o →
            QuizVisuals.from o = QuizTemplate.t_think tl
            ∧ QuizTemplate.t_think tl < QuizVisuals.till o
            ∧ QuizVisuals.till o <= QuizTemplate.t_ans tl)
  ∧ (∀ i o o', bar !! i = Some o → bar !! S i = Some o' →
               QuizVisuals.till o' == QuizVisuals.till o + 0.3)
  ∧ (∀ o, last bar = Some o → QuizVisuals.till o == QuizTemplate.t_ans tl)
  ∧ digits.*1 = [3; 2; 1]%Z
  ∧ Forall (λ o, QuizVisuals.till o == QuizVisuals.from o + 1) digits.*2
  ∧ (∀ o, head digits.*2 = Some o → QuizVisuals.from o == QuizTemplate.t_think tl)
  ∧ (∀ i o o', digits.*2 !! i = Some o → digits.*2 !! S i = Some o' →
               QuizVisuals.till o == QuizVisuals.from o')
  ∧ (∀ o, last digits.*2 = Some o → QuizVisuals.till o == QuizTemplate.t_ans tl).
Proof.
  intros tl bar digits.
  assert (Hans : QuizTemplate.t_ans tl == QuizTemplate.t_think tl + 3).
  { change (QuizTemplate.t_ans tl) with (QuizTemplate.t_think tl + 3.0). lra. }
  split; [reflexivity |].
  split.
  { intros i o Ho. apply timer_bar_lookup in Ho as (Hi & Hfrom & Htill).
    destruct (inject_nat_range i 10 Hi) as [H0 H1].
    change (inject_Z (Z.of_nat 10)) with 10 in H1.
    split; [exact Hfrom |]. rewrite Htill, Hans. split; lra. }
  split.
  { intros i o o' Ho Ho'.
    apply timer_bar_lookup in Ho as (_ & _ & Htill).
    apply timer_bar_lookup in Ho' as (_ & _ & Htill').
    rewrite Htill, Htill', inject_nat_succ. lra. }
  split.
  { intros o Ho. rewrite last_lookup in Ho. change (pred (length bar)) with 9%nat in Ho.
    apply timer_bar_lookup in Ho as (_ & _ & Htill). rewrite Htill, Hans.
    change (inject_Z (Z.of_nat 9)) with 9. lra. }
  split; [reflexivity |].
  assert (Hdigit : ∀ i o, digits.*2 !! i = Some o →
                          (i < 3)%nat
                          ∧ QuizVisuals.from o = QuizTemplate.t_think tl + inject_Z (Z.of_nat i)
                          ∧ QuizVisuals.till o =
                              QuizTemplate.t_think tl + inject_Z (Z.of_nat i) + 1).
  { intros i o Ho. rewrite list_lookup_fmap in Ho.
    destruct (digits !! i) as [[num o1]|] eqn:E; [|discriminate].
    injection Ho as <-. apply countdown_lookup in E as (Hi & _ & Hfrom & Htill). auto. }
  split.
  { apply Forall_lookup. intros i o Ho. apply Hdigit in Ho as (_ & -> & ->). reflexivity. }
  split.
  { intros o Ho. rewrite head_lookup in Ho. apply Hdigit in Ho as (_ & -> & _).
    change (inject_Z (Z.of_nat 0)) with 0. lra. }
  split.
  { intros i o o' Ho Ho'. apply Hdigit in Ho as (_ & _ & ->).
    apply Hdigit in Ho' as (_ & -> & _). rewrite inject_nat_succ. lra. }
  intros o Ho. rewrite last_lookup in Ho. change (pred (length digits.*2)) with 2%nat in Ho.
  apply Hdigit in Ho as (_ & _ & ->). rewrite Hans.
  change (inject_Z (Z.of_nat 2)) with 2. lra.
Qed.

Lemma timer_fills_the_pause_witness :
  QuizVisuals.timer_bar (QuizTemplate.timing Samples.long_think) !! 9%nat =
    Some (QuizVisuals.mkOverlay "bar" (0 + 1.0 + 1.0 + 1.0 + 1.0 + 1.0 + 1.0)
            (0 + 1.0 + 1.0 + 1.0 + 1.0 + 1.0 + 1.0 + 3.0 * inject_Z 10 / inject_Z 10))
  ∧ QuizVisuals.from
      (QuizVisuals.mkOverlay "bar" (0 + 1.0 + 1.0 + 1.0 + 1.0 + 1.0 + 1.0)
         (0 + 1.0 + 1.0 + 1.0 + 1.0 + 1.0 + 1.0 + 3.0 * inject_Z 10 / inject_Z 10)) =
    QuizTemplate.t_think (QuizTemplate.timing Samples.long_think).
Proof.
  assert (H : QuizVisuals.timer_bar (QuizTemplate.timing Samples.long_think) !! 9%nat =
    Some (QuizVisuals.mkOverlay "bar" (0 + 1.0 + 1.0 + 1.0 + 1.0 + 1.0 + 1.0)
            (0 + 1.0 + 1.0 + 1.0 + 1.0 + 1.0 + 1.0 + 3.0 * inject_Z 10 / inject_Z 10)))
    by reflexivity.
  split; [exact H |].
  exact (proj1 (proj1 (proj2 (timer_fills_the_pause Samples.long_think)) 9%nat _ H)).
Defined.





Section JsonFacts.
Import QuizTemplate.

Lemma max_bounds (a b : Q) :
  a <= QuizJson.max a b ∧ b <= QuizJson.max a b
  ∧ (QuizJson.max a b = a ∨ QuizJson.max a b = b).
Proof.
  unfold QuizJson.max. destruct (Qlt_bool a b) eqn:E.
  - apply Qlt_bool_iff in E. repeat split; [lra | lra | now right].
  - apply Qlt_bool_false in E. repeat split; [lra | lra | now left].
Qed.

End JsonFacts.

(** The JSON generator keeps the quiz timeline up to the call to action and
    only stretches its end.  Every start up to the call to action is the one
    of the rendered quiz; the outro starts when the call-to-action narration
    has ended but never less than six seconds after it started; and the video
    is at least three seconds longer than the rendered quiz, exactly three
    when the call to action lasts six seconds or more. *)
Theorem json_timing_stretches_quiz_end (n : QuizTemplate.Narration) :
  let quiz := QuizTemplate.timing n in
  let json := QuizJson.timing n in
  let cta := QuizTemplate.duration (QuizTemplate.aud_cta n) in
  take 9 (QuizTemplate.starts json) = take 9 (QuizTemplate.starts quiz)
  ∧ QuizTemplate.t_cta json + cta <= QuizTemplate.t_outro json
  ∧ QuizTemplate.t_cta json + 6 <= QuizTemplate.t_outro json
  ∧ (QuizTemplate.t_outro json == QuizTemplate.t_cta json + cta
     ∨ QuizTemplate.t_outro json == QuizTemplate.t_cta json + 6)
  ∧ QuizTemplate.total_dur json == QuizTemplate.t_outro json + 7
  ∧ QuizTemplate.total_dur quiz + 3 <= QuizTemplate.total_dur json
  ∧ (6 <= cta → QuizTemplate.total_dur json == QuizTemplate.total_dur quiz + 3)
  ∧ (cta <= 6 → QuizTemplate.total_dur json
                == QuizTemplate.t_cta quiz + 13).
Proof.
  intros quiz json cta.
  destruct (max_bounds cta 6) as (Ha & Hb & Hc).
  split; [reflexivity |].
  subst quiz json. cbn.
  unfold QuizJson.OUTRO_DURATION, QuizJson.THINK_TIME, QuizTemplate.OUTRO_DURATION,
    QuizTemplate.THINK_TIME.
  fold cta. set (m := QuizJson.max cta 6) in *. clearbody m.
  repeat split; try lra.
  - destruct Hc as [-> | ->]; [left | right]; lra.
  - intros H. destruct Hc as [-> | ->]; lra.
  - intros H. destruct Hc as [-> | ->]; lra.
Qed.

Lemma json_timing_stretches_quiz_end_witness :
  let n := QuizTemplate.with_think Samples.long_think (QuizTemplate.mkAudio "think" 0.9) in
  QuizTemplate.duration (QuizTemplate.aud_cta n) <= 6
  ∧ QuizTemplate.total_dur (QuizJson.timing n) == QuizTemplate.t_cta (QuizTemplate.timing n) + 13.
Proof.
  intros n.
  assert (H : QuizTemplate.duration (QuizTemplate.aud_cta n) <= 6).
  { vm_compute. discriminate. }
  split; [exact H |].
  exact (proj2 (proj2 (proj2 (proj2 (proj2 (proj2 (proj2
           (json_timing_stretches_quiz_end n))))))) H).
Defined.

Section ThemeFacts.

Lemma themes_moods :
  map_Forall (λ _ theme, ShortsEngine.music_mood theme ∈ EngineMore.mood_directories)
    ShortsEngine.THEMES.
Proof.
  apply map_Forall_to_list.
  apply (bool_decide_unpack _). vm_compute. exact I.
Qed.

End ThemeFacts.

(** Every theme lookup lands on a mood that has a music directory.  Whatever
    name is asked for, [get_theme] returns a theme and never raises, an
    unknown name gets the theme of [energetic_yellow], and the mood of the
    returned theme is one of the three mood directories the engine creates. *)
Theorem theme_mood_has_a_directory (theme_name : string) :
  ∃ theme, ShortsEngine.get_theme theme_name = Ok theme
           ∧ ShortsEngine.music_mood theme ∈ EngineMore.mood_directories
           ∧ (ShortsEngine.THEMES !! theme_name = None →
              ShortsEngine.get_theme "energetic_yellow" = Ok theme).
Proof.
  unfold ShortsEngine.get_theme.
  destruct (ShortsEngine.THEMES !! "energetic_yellow") as [dflt|] eqn:Ed;
    [| vm_compute in Ed; discriminate Ed].
  destruct (ShortsEngine.THEMES !! theme_name) as [theme|] eqn:Et.
  - exists theme. split; [reflexivity |]. split; [| discriminate].
    exact (themes_moods _ _ Et).
  - exists dflt. split; [reflexivity |]. split; [| reflexivity].
    exact (themes_moods _ _ Ed).
Qed.

Lemma theme_mood_has_a_directory_witness :
  ShortsEngine.THEMES !! "no_such_theme" = None
  ∧ ∃ theme, ShortsEngine.get_theme "no_such_theme" = Ok theme
             ∧ ShortsEngine.get_theme "energetic_yellow" = Ok theme.
Proof.
  assert (H : ShortsEngine.THEMES !! "no_such_theme" = None) by (vm_compute; reflexivity).
  split; [exact H |].
  destruct (theme_mood_has_a_directory "no_such_theme") as (theme & Hget & _ & Hdef).
  exists theme. split; [exact Hget | exact (Hdef H)].
Defined.

(** The Ken Burns zoom runs from no zoom to the zoom factor.  A clip without
    a duration, or with a duration of zero, is returned unchanged; any other
    clip is resized by a scale that is 1 at its start, the zoom factor at its
    end, and half way between the two in the middle; for a zoom factor of at
    least 1 and a positive duration the scale never decreases. *)
Theorem ken_burns_zoom_endpoints (d zoom_factor : Q) :
  EngineMore.apply_ken_burns None zoom_factor = None
  ∧ (d == 0 → EngineMore.apply_ken_burns (Some d) zoom_factor = None)
  ∧ (¬ d == 0 →
     ∃ scale, EngineMore.apply_ken_burns (Some d) zoom_factor = Some scale
              ∧ scale 0 == 1
              ∧ scale d == zoom_factor
              ∧ scale (d / 2) == (1 + zoom_factor) / 2
              ∧ (1 <= zoom_factor → 0 < d →
                 ∀ t t', t <= t' → scale t <= scale t')).
Proof.
  split; [reflexivity |]. unfold EngineMore.apply_ken_burns. split.
  - intros Hd. apply Qeq_bool_iff in Hd. rewrite Hd. reflexivity.
  - intros Hd. destruct (Qeq_bool d 0) eqn:E; [apply Qeq_bool_iff in E; contradiction |].
    eexists. split; [reflexivity |]. cbv beta.
    split; [field; exact Hd |]. split; [field; exact Hd |]. split; [field; exact Hd |].
    intros Hz Hpos t t' Ht.
    assert (Hdiv : t / d <= t' / d).
    { unfold Qdiv. apply Qmult_le_compat_r; [exact Ht |].
      apply Qlt_le_weak, Qinv_lt_0_compat, Hpos. }
    assert (Hmul : (zoom_factor - 1.0) * (t / d) <= (zoom_factor - 1.0) * (t' / d)).
    { rewrite (Qmult_comm _ (t / d)), (Qmult_comm _ (t' / d)).
      apply Qmult_le_compat_r; [exact Hdiv | lra]. }
    lra.
Qed.

Lemma ken_burns_zoom_endpoints_witness :
  ¬ 8.0 == 0
  ∧ ∃ scale, EngineMore.apply_ken_burns (Some 8.0) 1.15 = Some scale ∧ scale 8.0 == 1.15.
Proof.
  assert (H : ¬ 8.0 == 0) by (vm_compute; discriminate).
  split; [exact H |].
  destruct (proj2 (proj2 (ken_burns_zoom_endpoints 8.0 1.15)) H)
    as (scale & Hs & _ & Hend & _).
  exists scale. split; [exact Hs | exact Hend].
Defined.

(* ===================================================================== *)
(** * Column letters and output file names                                 *)
(* ===================================================================== *)

Section ColumnFacts.
Import MainGenerator.

Lemma string_app_assoc (a b c : string) : (a +:+ b) +:+ c = a +:+ (b +:+ c).
Proof.
  apply list_ascii_inj. rewrite !string_of_list_app. apply eq_sym, app_assoc.
Qed.

Lemma string_app_nil_r (a : string) : a +:+ "" = a.
Proof.
  apply list_ascii_inj. rewrite string_of_list_app. apply app_nil_r.
Qed.

Lemma column_number_app (p s : string) :
  Notions.column_number (p +:+ s) =
    fold_left (λ acc c, (acc * 26 + (Z.of_nat (nat_of_ascii c) - 64))%Z)
      (list_ascii_of_string s) (Notions.column_number p).
Proof.
  unfold Notions.column_number.
  rewrite string_of_list_app. apply fold_left_app.
Qed.

Lemma chr_letter (d : Z) :
  (0 <= d < 26)%Z → nat_of_ascii (chr (d + 65)) = Z.to_nat (d + 65).
Proof.
  intros Hd. unfold chr. apply nat_ascii_embedding. lia.
Qed.

(** The loop writes, in front of [s], the name of column [n + 1]. *)
Lemma col_loop_spec (fuel : nat) :
  ∀ (n : Z) (s : string),
    (-1 <= n)%Z → (Z.to_nat (n + 1) < fuel)%nat →
    ∃ p, col_loop fuel n s = Done (p +:+ s)
         ∧ Notions.column_number p = (n + 1)%Z
         ∧ Forall Notions.is_upper (list_ascii_of_string p)
         ∧ (n = (-1)%Z → p = "")
         ∧ ((0 <= n < 26)%Z → String.length p = 1%nat).
Proof.
  induction fuel as [|fuel IH]; intros n s Hn Hf; [lia |].
  cbn [col_loop]. destruct (0 <=? n)%Z eqn:E.
  - apply Z.leb_le in E.
    pose proof (Z.mod_pos_bound n 26 ltac:(lia)) as Hm.
    pose proof (Z.div_mod n 26 ltac:(lia)) as Hdm.
    assert (Hq : (0 <= n / 26)%Z) by (apply Z.div_pos; lia).
    assert (Hlt : (n / 26 < n + 1)%Z) by lia.
    destruct (IH (n / 26 - 1)%Z (String (chr (n mod 26 + 65)) s)) as (p & Hp & Hnum & Hup & Hz & _);
      [lia | lia |].
    exists (p +:+ String (chr (n mod 26 + 65)) "").
    split.
    { rewrite Hp, string_app_assoc. reflexivity. }
    split.
    { rewrite column_number_app, Hnum. cbn [list_ascii_of_string fold_left].
      rewrite chr_letter by exact Hm. lia. }
    split.
    { rewrite string_of_list_app. apply Forall_app. split; [exact Hup |].
      constructor; [| constructor].
      unfold Notions.is_upper. rewrite chr_letter by exact Hm. lia. }
    split; [lia |].
    intros Hsmall. rewrite Hz; [reflexivity |].
    rewrite Z.div_small by lia. reflexivity.
  - apply Z.leb_gt in E. exists "".
    split; [reflexivity |]. split; [cbn; lia |]. split; [constructor |].
    split; [reflexivity | lia].
Qed.

End ColumnFacts.

(** Column letters name the column.  For every index from 0 the loop of
    [get_col_letter] ends (after at most one round more than the index), and
    the letters it returns are upper-case letters that read, as a spreadsheet
    column name, as column number index + 1: A for index 0, a single letter up
    to index 25, and the round trip through the column number gives the index
    back.  A negative index gives the empty string. *)
Theorem get_col_letter_names_the_column (n : Z) (fuel : nat) :
  (Z.to_nat (n + 1) < fuel)%nat →
  ∃ s, MainGenerator.get_col_letter fuel n = Done s
       ∧ ((0 <= n)%Z →
          (Notions.column_number s - 1)%Z = n
          ∧ Forall Notions.is_upper (list_ascii_of_string s))
       ∧ ((0 <= n < 26)%Z → String.length s = 1%nat)
       ∧ ((n < 0)%Z → s = "").
Proof.
  intros Hf. unfold MainGenerator.get_col_letter.
  destruct (Z_lt_le_dec n 0) as [Hneg | Hpos].
  - exists "". destruct fuel as [|fuel]; [lia |]. cbn [MainGenerator.col_loop].
    destruct (0 <=? n)%Z eqn:E; [apply Z.leb_le in E; lia |].
    repeat split; try reflexivity; lia.
  - destruct (col_loop_spec fuel n "" ltac:(lia) Hf) as (p & Hp & Hnum & Hup & _ & Hone).
    rewrite string_app_nil_r in Hp. exists p. split; [exact Hp |].
    split; [intros _; split; [lia | exact Hup] |].
    split; [exact Hone | lia].
Qed.

Lemma get_col_letter_names_the_column_witness :
  (Z.to_nat (27 + 1) < 29)%nat
  ∧ ∃ s, MainGenerator.get_col_letter 29 27 = Done s
         ∧ (Notions.column_number s - 1)%Z = 27%Z.
Proof.
  assert (H : (Z.to_nat (27 + 1) < 29)%nat) by (vm_compute; lia).
  split; [exact H |].
  destruct (get_col_letter_names_the_column 27 29 H) as (s & Hs & Hround & _).
  exists s. split; [exact Hs | exact (proj1 (Hround ltac:(lia)))].
Defined.

Section VersionFacts.
Import MainGenerator.

Lemma prefix_slash_app (a b : string) :
  String.prefix "/" (a +:+ b) = if PyStr.is_empty a then String.prefix "/" b else String.prefix "/" a.
Proof.
  destruct a as [|c a]; [reflexivity |].
  change (String c a +:+ b) with (String c (a +:+ b)).
  cbn [String.prefix PyStr.is_empty].
  destruct (Ascii.ascii_dec _ _); [| reflexivity].
  assert (Hnil : ∀ s, String.prefix "" s = true) by (intros []; reflexivity).
  by rewrite !Hnil.
Qed.

(** Two versions of one base name never share a path. *)
Lemma version_path_inj (output_dir base_filename : string) (v w : nat) :
  path_join output_dir (versioned base_filename v) =
  path_join output_dir (versioned base_filename w) → v = w.
Proof.
  unfold path_join, versioned. rewrite !prefix_slash_app.
  assert (Hver : ∀ pre, pre +:+ base_filename +:+ "_V" +:+ pretty v +:+ ".mp4" =
                        pre +:+ base_filename +:+ "_V" +:+ pretty w +:+ ".mp4" → v = w).
  { intros pre H. apply String.app_inj in H. apply String.app_inj in H.
    apply (String.app_inj "_V") in H. apply string_app_inv_tail in H.
    by apply pretty_nat_inj in H. }
  destruct (if PyStr.is_empty base_filename then _ else String.prefix "/" base_filename).
  - intros H. apply (Hver ""). exact H.
  - destruct (PyStr.is_empty output_dir || String.prefix "/" (String.rev output_dir)).
    + apply Hver.
    + rewrite <- !(string_app_assoc output_dir "/"). apply Hver.
Qed.

Variable files : gset string.
Variables output_dir base_filename : string.

Abbreviation path_of v := (path_join output_dir (versioned base_filename v)).

(** Only as many versions as there are files can all exist. *)
Lemma versions_counted (v : nat) :
  (∀ w, (1 <= w < v)%nat → path_of w ∈ files) → (v - 1 <= size files)%nat.
Proof.
  intros Hall.
  assert (Hnd : NoDup ((λ w, path_of w) <$> seq 1 (v - 1))).
  { apply NoDup_fmap_2; [| apply NoDup_seq].
    intros x y Hxy. by apply version_path_inj in Hxy. }
  assert (Hsub : (λ w, path_of w) <$> seq 1 (v - 1) ⊆+ elements files).
  { apply NoDup_submseteq; [exact Hnd |].
    intros p Hp. apply list_elem_of_fmap in Hp as (w & -> & Hw).
    apply elem_of_seq in Hw. apply elem_of_elements, Hall. lia. }
  apply submseteq_length in Hsub.
  rewrite length_fmap, length_seq in Hsub. exact Hsub.
Qed.

Lemma version_loop_spec (fuel : nat) :
  ∀ v, (1 <= v)%nat →
       (∀ w, (1 <= w < v)%nat → path_of w ∈ files) →
       (size files < v - 1 + fuel)%nat →
       ∃ r, version_loop files fuel output_dir base_filename v = Done r
            ∧ (v <= r <= size files + 1)%nat
            ∧ (path_of r ∉ files)
            ∧ (∀ w, (1 <= w < r)%nat → path_of w ∈ files).
Proof.
  induction fuel as [|fuel IH]; intros v Hv Hall Hf.
  - pose proof (versions_counted v Hall). lia.
  - cbn [version_loop]. unfold path_exists.
    destruct (bool_decide (path_of v ∈ files)) eqn:E.
    + apply bool_decide_eq_true in E.
      destruct (IH (v + 1)%nat) as (r & Hr & Hrange & Hfree & Hbelow).
      * lia.
      * intros w Hw. destruct (decide (w = v)) as [-> | Hne]; [exact E | apply Hall; lia].
      * lia.
      * exists r. split; [exact Hr |]. split; [lia |]. split; assumption.
    + apply bool_decide_eq_false in E. exists v. split; [reflexivity |].
      pose proof (versions_counted v Hall). split; [lia |]. split; assumption.
Qed.

End VersionFacts.

(** The next version is the first free one, so no output file is ever
    overwritten.  Whatever files exist, the loop of [find_next_version] ends
    after at most one round more than there are files, and the version it
    returns is at least 1, names a file that does not exist, and is the least
    such version: every smaller version already exists. *)
Theorem find_next_version_is_first_free (files : gset string)
    (output_dir base_filename : string) (fuel : nat) :
  (size files < fuel)%nat →
  ∃ version,
    MainGenerator.find_next_version files fuel output_dir base_filename = Done version
    ∧ (1 <= version <= size files + 1)%nat
    ∧ (MainGenerator.path_join output_dir (MainGenerator.versioned base_filename version)
         ∉ files)
    ∧ (∀ w, (1 <= w < version)%nat →
            MainGenerator.path_join output_dir (MainGenerator.versioned base_filename w) ∈ files).
Proof.
  intros Hf. unfold MainGenerator.find_next_version.
  apply version_loop_spec; [lia | intros w Hw; lia | lia].
Qed.

Lemma find_next_version_is_first_free_witness :
  let files : gset string :=
    {[ "shorts/motion_quiz_force_0007_V1.mp4"; "shorts/motion_quiz_force_0007_V2.mp4";
       "shorts/motion_quiz_force_0007_V4.mp4" ]} in
  (size files < 4)%nat
  ∧ MainGenerator.find_next_version files 4 "shorts" "motion_quiz_force_0007" = Done 3%nat.
Proof.
  intros files.
  assert (H : (size files < 4)%nat) by (vm_compute; lia).
  split; [exact H |].
  destruct (find_next_version_is_first_free files "shorts" "motion_quiz_force_0007" 4 H)
    as (version & Hv & _).
  rewrite Hv. vm_compute in Hv. exact (eq_sym Hv).
Defined.

Section FileNameFacts.
Import MainGenerator PyStr.

Abbreviation chars := list_ascii_of_string.
Abbreviation us := "_"%char.

Lemma app_cons (c : ascii) (a b : string) : String c a +:+ b = String c (a +:+ b).
Proof. reflexivity. Qed.

Lemma prefix_us (c : ascii) (s : string) :
  String.prefix "_" (String c s) = bool_decide (c = us).
Proof.
  cbn [String.prefix]. destruct (Ascii.ascii_dec "_" c) as [<- | Hne].
  - destruct s; reflexivity.
  - rewrite bool_decide_eq_false_2; [reflexivity | congruence].
Qed.

Lemma prefix_us2 (c : ascii) (s : string) :
  String.prefix "__" (String c s) = bool_decide (c = us) && String.prefix "_" s.
Proof.
  cbn [String.prefix]. destruct (Ascii.ascii_dec "_" c) as [<- | Hne].
  - destruct s; reflexivity.
  - rewrite bool_decide_eq_false_2; [reflexivity | congruence].
Qed.

Lemma contains_cons (c : ascii) (s : string) :
  contains "__" (String c s) = false ↔
  (bool_decide (c = us) && String.prefix "_" s = false) ∧ contains "__" s = false.
Proof.
  change (contains "__" (String c s))
    with (String.prefix "__" (String c s) || contains "__" s).
  rewrite prefix_us2, orb_false_iff. reflexivity.
Qed.

Lemma prefix_us_app (r t : string) :
  String.prefix "_" (r +:+ t) = false → String.prefix "_" r = false.
Proof.
  destruct r as [|c r]; [reflexivity |]. rewrite app_cons, !prefix_us. auto.
Qed.

(** Facts that pass from a string to its prefixes and suffixes. *)
Lemma contains_app_l (r t : string) :
  contains "__" (r +:+ t) = false → contains "__" r = false.
Proof.
  induction r as [|c r IH]; [reflexivity |].
  rewrite app_cons, !contains_cons. intros [Hc Hr]. split; [| exact (IH Hr)].
  destruct (bool_decide (c = us)); [| reflexivity].
  cbn [andb] in *. exact (prefix_us_app _ _ Hc).
Qed.

Lemma contains_app_r (t r : string) :
  contains "__" (t +:+ r) = false → contains "__" r = false.
Proof.
  induction t as [|c t IH]; [auto |].
  rewrite app_cons, contains_cons. intros [_ Hr]. exact (IH Hr).
Qed.

Lemma rstrip_prefix (ch s : string) : ∃ t, s = rstrip ch s +:+ t.
Proof.
  induction s as [|c s [t IH]]; [by exists "" |].
  cbn [rstrip]. destruct (is_empty (rstrip ch s) && char_in c ch).
  - by exists (String c s).
  - exists t. rewrite app_cons, <- IH. reflexivity.
Qed.

Lemma lstrip_suffix (ch s : string) : ∃ t, s = t +:+ lstrip ch s.
Proof.
  induction s as [|c s [t IH]]; [by exists "" |].
  cbn [lstrip]. destruct (char_in c ch).
  - exists (String c t). rewrite app_cons, <- IH. reflexivity.
  - by exists "".
Qed.

Lemma slice_prefix (s : string) (n : nat) : ∃ t, s = slice_to s n +:+ t.
Proof.
  revert n. induction s as [|c s IH]; intros [|n]; try (by eexists).
  destruct (IH n) as [t Ht]. exists t. cbn [slice_to]. rewrite app_cons, <- Ht. reflexivity.
Qed.

Lemma slice_length (s : string) (n : nat) : (String.length (slice_to s n) <= n)%nat.
Proof.
  revert s. induction n as [|n IH]; intros [|c s]; cbn; try lia.
  specialize (IH s). lia.
Qed.

Lemma lstrip_us (s : string) : String.prefix "_" (lstrip "_" s) = false.
Proof.
  induction s as [|c s IH]; [reflexivity |].
  cbn [lstrip]. unfold char_in. cbn [list_ascii_of_string].
  destruct (bool_decide (c ∈ [us])) eqn:E; [exact IH |].
  apply bool_decide_eq_false in E. rewrite prefix_us.
  apply bool_decide_eq_false_2. intros ->. apply E, list_elem_of_singleton. reflexivity.
Qed.

(** Squeezing keeps the first character and leaves no two underscores
    side by side. *)
Lemma squeeze_prefix (s : string) :
  String.prefix "_" (squeeze s) = String.prefix "_" s.
Proof.
  induction s as [|c s IH]; [reflexivity |].
  cbn [squeeze]. destruct (Ascii.eqb c "_" && String.prefix "_" s) eqn:E.
  - apply andb_true_iff in E as [Hc Hs]. apply Ascii.eqb_eq in Hc. subst c.
    rewrite IH, Hs, prefix_us. by rewrite bool_decide_eq_true_2.
  - by rewrite !prefix_us.
Qed.

Lemma squeeze_contains (s : string) : contains "__" (squeeze s) = false.
Proof.
  induction s as [|c s IH]; [reflexivity |].
  cbn [squeeze]. destruct (Ascii.eqb c "_" && String.prefix "_" s) eqn:E; [exact IH |].
  apply contains_cons. split; [| exact IH].
  rewrite squeeze_prefix. destruct (bool_decide (c = us)) eqn:Ec; [| reflexivity].
  apply bool_decide_eq_true in Ec. subst c. exact E.
Qed.

Lemma squeeze_chars (P : ascii → Prop) (s : string) :
  Forall P (chars s) → Forall P (chars (squeeze s)).
Proof.
  induction s as [|c s IH]; [auto |].
  cbn [list_ascii_of_string squeeze]. intros [Hc Hs]%Forall_cons.
  destruct (Ascii.eqb c "_" && String.prefix "_" s); [auto |].
  cbn [list_ascii_of_string]. constructor; auto.
Qed.

Lemma name_char (c : ascii) :
  Notions.is_name_char (if isalnum (lower_char c) then lower_char c else us).
Proof.
  destruct (isalnum (lower_char c)) eqn:E; [| right; right; reflexivity].
  unfold isalnum in E. revert E. unfold lower_char, Notions.is_name_char.
  pose proof (nat_ascii_bounded c) as Hb.
  destruct ((65 <=? nat_of_ascii c) && (nat_of_ascii c <=? 90))%nat eqn:Eu.
  - apply andb_true_iff in Eu as [H1 H2]. apply Nat.leb_le in H1, H2.
    rewrite nat_ascii_embedding by lia. intros _. left. lia.
  - rewrite !orb_true_iff, !andb_true_iff, !Nat.leb_le. intros [[H | H] | H].
    + right. left. lia.
    + rewrite andb_false_iff, !Nat.leb_gt in Eu. lia.
    + left. lia.
Qed.

Lemma underscored_chars (s : string) :
  Forall Notions.is_name_char (chars (underscored (lower s))).
Proof.
  induction s as [|c s IH]; [constructor |].
  cbn [lower underscored list_ascii_of_string]. constructor; [apply name_char | exact IH].
Qed.

(** What a slice of a well-formed name keeps. *)
Lemma slice_keeps (safe : string) (max_len : nat) :
  Forall Notions.is_name_char (chars safe) →
  String.prefix "_" safe = false →
  contains "__" safe = false →
  safe ≠ "" →
  (String.length (slice_to safe max_len) <= max_len)%nat
  ∧ Forall Notions.is_name_char (chars (slice_to safe max_len))
  ∧ String.prefix "_" (slice_to safe max_len) = false
  ∧ contains "__" (slice_to safe max_len) = false
  ∧ ((1 <= max_len)%nat → slice_to safe max_len ≠ "").
Proof.
  intros Hch Hpre Hcon Hne. destruct (slice_prefix safe max_len) as [t Ht].
  split; [apply slice_length |].
  split.
  { rewrite Ht, string_of_list_app in Hch. by apply Forall_app in Hch as [? _]. }
  split; [rewrite Ht in Hpre; exact (prefix_us_app _ _ Hpre) |].
  split; [rewrite Ht in Hcon; exact (contains_app_l _ _ Hcon) |].
  intros Hlen. destruct safe as [|c safe]; [done |]. destruct max_len; [lia | done].
Qed.

End FileNameFacts.

(** File-name parts are safe for a file name.  For an ASCII text and any
    length limit, the normalized part is no longer than the limit, is made of
    lower-case letters, digits and underscores only, never starts with an
    underscore and never has two underscores in a row; with a limit of at
    least 1 it is not empty, also for an empty text or one without a single
    letter or digit. *)
Theorem normalize_filename_part_is_safe (text : string) (max_len : nat) :
  Notions.is_ascii_text text →
  let part := MainGenerator.normalize_filename_part text max_len in
  (String.length part <= max_len)%nat
  ∧ Forall Notions.is_name_char (list_ascii_of_string part)
  ∧ String.prefix "_" part = false
  ∧ PyStr.contains "__" part = false
  ∧ ((1 <= max_len)%nat → part ≠ "").
Proof.
  intros _ part. subst part. unfold MainGenerator.normalize_filename_part.
  destruct (PyStr.is_empty text).
  { apply slice_keeps; [| reflexivity | reflexivity | discriminate].
    repeat constructor; vm_compute; lia. }
  set (sq := MainGenerator.squeeze (MainGenerator.underscored (PyStr.lower text))).
  assert (Hch : Forall Notions.is_name_char (list_ascii_of_string sq))
    by apply squeeze_chars, underscored_chars.
  assert (Hcon : PyStr.contains "__" sq = false) by apply squeeze_contains.
  unfold PyStr.strip.
  destruct (lstrip_suffix "_" sq) as [t1 H1].
  destruct (rstrip_prefix "_" (PyStr.lstrip "_" sq)) as [t2 H2].
  set (st := PyStr.rstrip "_" (PyStr.lstrip "_" sq)) in *.
  destruct (PyStr.is_empty st) eqn:Est.
  { apply slice_keeps; [| reflexivity | reflexivity | discriminate].
    repeat constructor; vm_compute; lia. }
  apply slice_keeps.
  - rewrite H1, H2, !string_of_list_app in Hch.
    apply Forall_app in Hch as [_ Hch]. by apply Forall_app in Hch as [? _].
  - pose proof (lstrip_us sq) as Hl. rewrite H2 in Hl. exact (prefix_us_app _ _ Hl).
  - rewrite H1 in Hcon. apply contains_app_r in Hcon. rewrite H2 in Hcon.
    exact (contains_app_l _ _ Hcon).
  - intros Heq. rewrite Heq in Est. discriminate Est.
Qed.

Lemma normalize_filename_part_is_safe_witness :
  Notions.is_ascii_text "__Laws of Motion -- Part 2!"
  ∧ PyStr.contains "__"
      (MainGenerator.normalize_filename_part "__Laws of Motion -- Part 2!" 20) = false.
Proof.
  assert (H : Notions.is_ascii_text "__Laws of Motion -- Part 2!").
  { unfold Notions.is_ascii_text. repeat constructor; vm_compute; lia. }
  split; [exact H |].
  exact (proj1 (proj2 (proj2 (proj2
           (normalize_filename_part_is_safe "__Laws of Motion -- Part 2!" 20 H))))).
Defined.

(* ===================================================================== *)
(** * Subtitle chunks and their timing                                     *)
(* ===================================================================== *)

Section ChunkFacts.
Import KaraokeManager.

Abbreviation ends_nothing := (Forall (λ w, ends_sentence w = false)).

Lemma removelast_snoc {A} (l : list A) (x : A) : removelast (l ++ [x]) = l.
Proof.
  induction l as [|a l IH]; [reflexivity |].
  cbn [app removelast]. destruct (l ++ [x]) eqn:E.
  - destruct l; discriminate E.
  - by rewrite IH.
Qed.

Lemma removelast_Forall {A} (P : A → Prop) (l : list A) :
  Forall P l → Forall P (removelast l).
Proof.
  induction 1 as [|a l Ha Hl IH]; [constructor |].
  cbn [removelast]. destruct l; [constructor |]. constructor; assumption.
Qed.

(** The loop closes proper groups only and keeps the words in order. *)
Lemma split_loop_groups (max_words : Z) (words : list string) :
  ∀ (groups : list (list string)) (current : list string),
    (Z.of_nat (length current) < Z.max 1 max_words)%Z →
    ends_nothing current →
    ∃ groups' current',
      split_loop max_words words (join " " <$> groups) current =
        (join " " <$> (groups ++ groups'), current')
      ∧ concat groups' ++ current' = current ++ words
      ∧ Forall (Notions.proper_chunk max_words) groups'
      ∧ (Z.of_nat (length current') < Z.max 1 max_words)%Z
      ∧ ends_nothing current'.
Proof.
  induction words as [|word words IH]; intros groups current Hlen Hends.
  - exists [], current. rewrite !app_nil_r. cbn. repeat split; auto.
  - cbn [split_loop]. cbv zeta.
    destruct ((max_words <=? Z.of_nat (length (current ++ [word])))%Z
              || ends_sentence word) eqn:E.
    + destruct (IH (groups ++ [current ++ [word]]) []) as (gs & cur & Hrun & Hcat & Hgs & Hl & He).
      * cbn. lia.
      * constructor.
      * exists ((current ++ [word]) :: gs), cur.
        rewrite fmap_app in Hrun. cbn [fmap list_fmap] in Hrun.
        split; [rewrite Hrun, <- app_assoc; reflexivity |].
        split; [cbn [concat]; rewrite <- !app_assoc, Hcat; reflexivity |].
        split; [| auto]. constructor; [| exact Hgs].
        split; [rewrite length_app; cbn [length]; lia |].
        rewrite removelast_snoc. exact Hends.
    + apply orb_false_iff in E as [Elong Eend]. apply Z.leb_gt in Elong.
      destruct (IH groups (current ++ [word])) as (gs & cur & Hrun & Hcat & Hgs & Hl & He).
      * lia.
      * apply Forall_app. split; [exact Hends | by constructor].
      * exists gs, cur. split; [exact Hrun |].
        split; [rewrite Hcat, <- app_assoc; reflexivity | auto].
Qed.

(** The chunks of a text are its words, grouped. *)
Lemma smart_split_groups (text : string) (max_words : Z) :
  ∃ groups, smart_split text max_words = join " " <$> groups
            ∧ concat groups = PyStr.split text
            ∧ Forall (Notions.proper_chunk max_words) groups.
Proof.
  unfold smart_split.
  destruct (split_loop_groups max_words (PyStr.split text) [] [])
    as (gs & cur & Hrun & Hcat & Hgs & Hl & He); [cbn; lia | constructor |].
  cbn [fmap list_fmap app] in Hrun. rewrite Hrun.
  destruct cur as [|w cur].
  - exists gs. rewrite app_nil_r in Hcat. auto.
  - exists (gs ++ [w :: cur]). rewrite fmap_app. split; [reflexivity |].
    split; [rewrite concat_app; cbn [concat]; rewrite app_nil_r; exact Hcat |].
    apply Forall_app. split; [exact Hgs |]. constructor; [| constructor].
    split; [cbn [length] in *; lia | by apply removelast_Forall].
Qed.

End ChunkFacts.

(** Subtitle chunks are the words of the text, in order, a few at a time.
    For an ASCII text, where the model's [split] is that of Python, the
    chunks are groups of the words of the text joined by single spaces;
    put end to end the groups give back exactly the words, none lost, added
    or moved; every group has at least one word and at most [max_words] (one
    word when the limit is below one), and a word that ends with one of
    [. ! ? , :] is always the last of its group. *)
Theorem smart_split_keeps_the_words (text : string) (max_words : Z) :
  Notions.is_ascii_text text →
  ∃ groups,
    KaraokeManager.smart_split text max_words = KaraokeManager.join " " <$> groups
    ∧ concat groups = PyStr.split text
    ∧ Forall (Notions.proper_chunk max_words) groups
    ∧ (length (KaraokeManager.smart_split text max_words) <= length (PyStr.split text))%nat.
Proof.
  intros _.
  destruct (smart_split_groups text max_words) as (groups & Hs & Hcat & Hgs).
  exists groups. split; [exact Hs |]. split; [exact Hcat |]. split; [exact Hgs |].
  rewrite Hs, length_fmap, <- Hcat. clear Hs Hcat.
  induction Hgs as [|g gs [Hg _] _ IH]; [cbn; lia |].
  cbn [concat length]. rewrite length_app. lia.
Qed.

Lemma smart_split_keeps_the_words_witness :
  Notions.is_ascii_text "Plants make food, using sunlight and air."
  ∧ ∃ groups,
      KaraokeManager.smart_split "Plants make food, using sunlight and air." 4 =
        KaraokeManager.join " " <$> groups
      ∧ concat groups = PyStr.split "Plants make food, using sunlight and air.".
Proof.
  assert (Ha : Notions.is_ascii_text "Plants make food, using sunlight and air.").
  { unfold Notions.is_ascii_text. apply (bool_decide_unpack _). vm_compute. exact I. }
  split; [exact Ha |].
  destruct (smart_split_keeps_the_words "Plants make food, using sunlight and air." 4 Ha)
    as (groups & Hs & Hcat & _).
  exists groups. split; [exact Hs | exact Hcat].
Defined.

Section SegmentFacts.
Import KaraokeManager.

Abbreviation chars := list_ascii_of_string.

Lemma string_length_chars (s : string) : String.length s = length (chars s).
Proof. induction s as [|c s IH]; [reflexivity |]. cbn. by rewrite IH. Qed.

(** Dropping the spaces keeps every other character. *)
Lemma replace_spaces (s : string) :
  chars (SFXManager.replace " " "" s) = filter (λ c, c ≠ " "%char) (chars s).
Proof.
  unfold SFXManager.replace. induction s as [|c s IH]; [reflexivity |].
  cbn [SFXManager.replace_go String.prefix list_ascii_of_string].
  destruct (Ascii.ascii_dec " " c) as [<- | Hne].
  - replace (String.prefix "" s) with true by (destruct s; reflexivity).
    change ("" +:+ ?x) with x. cbn [String.length Nat.sub].
    rewrite IH, filter_cons_False; [reflexivity | intros H; by apply H].
  - cbn [list_ascii_of_string]. rewrite IH, filter_cons_True; [reflexivity | congruence].
Qed.

Lemma count_chars_non_spaces (s : string) :
  count_chars s = Z.of_nat (Notions.non_spaces s).
Proof.
  unfold count_chars, Notions.non_spaces.
  by rewrite string_length_chars, replace_spaces.
Qed.

Lemma non_spaces_app (a b : string) :
  Notions.non_spaces (a +:+ b) = (Notions.non_spaces a + Notions.non_spaces b)%nat.
Proof.
  unfold Notions.non_spaces. by rewrite string_of_list_app, filter_app, length_app.
Qed.

Lemma non_spaces_join (group : list string) :
  Notions.non_spaces (join " " group) = sum_list (Notions.non_spaces <$> group).
Proof.
  induction group as [|w group IH]; [reflexivity |].
  destruct group as [|w' group].
  - cbn [join fmap list_fmap sum_list sum_list_with id]. lia.
  - change (join " " (w :: w' :: group)) with (w +:+ " " +:+ join " " (w' :: group)).
    rewrite !non_spaces_app, IH. cbn [fmap list_fmap sum_list sum_list_with id]. reflexivity.
Qed.

(** The words of a text hold its non-blank characters, and no space. *)
Lemma split_from_chars (s : string) :
  ∀ cur, Notions.non_spaces cur = String.length cur →
         sum_list (Notions.non_spaces <$> PyStr.split_from cur s) =
           (String.length cur + Notions.non_blanks s)%nat.
Proof.
  induction s as [|c s IH]; intros cur Hcur.
  - cbn [PyStr.split_from]. destruct cur as [|d cur]; cbn [PyStr.is_empty].
    + reflexivity.
    + cbn [fmap list_fmap sum_list sum_list_with id]. rewrite Hcur. unfold Notions.non_blanks. cbn. lia.
  - cbn [PyStr.split_from]. unfold Notions.non_blanks. cbn [list_ascii_of_string].
    destruct (PyStr.is_space c) eqn:Ec.
    + rewrite filter_cons_False by (rewrite Ec; discriminate).
      destruct cur as [|d cur]; cbn [PyStr.is_empty].
      * rewrite (IH "" eq_refl). reflexivity.
      * cbn [fmap list_fmap sum_list sum_list_with id]. rewrite (IH "" eq_refl), Hcur. reflexivity.
    + rewrite filter_cons_True by exact Ec. cbn [length].
      assert (Hne : c ≠ " "%char) by (intros ->; discriminate Ec).
      assert (Hlen : String.length (cur +:+ String c "") = S (String.length cur)).
      { rewrite !string_length_chars, string_of_list_app, length_app. cbn. lia. }
      rewrite IH.
      * rewrite Hlen. unfold Notions.non_blanks. lia.
      * rewrite non_spaces_app, Hcur, Hlen. unfold Notions.non_spaces.
        cbn [list_ascii_of_string]. rewrite filter_cons_True by exact Hne. cbn. lia.
Qed.

Lemma non_blanks_le (s : string) : (Notions.non_blanks s <= Notions.non_spaces s)%nat.
Proof.
  unfold Notions.non_blanks, Notions.non_spaces.
  induction (chars s) as [|c l IH]; [reflexivity |].
  destruct (PyStr.is_space c) eqn:Ec.
  - rewrite (filter_cons_False (λ c, PyStr.is_space c = false)) by (rewrite Ec; discriminate).
    destruct (decide (c ≠ " "%char)).
    + rewrite filter_cons_True by assumption. cbn [length]. lia.
    + rewrite filter_cons_False by assumption. exact IH.
  - rewrite (filter_cons_True (λ c, PyStr.is_space c = false)) by exact Ec.
    rewrite filter_cons_True by (intros ->; discriminate Ec). cbn [length]. lia.
Qed.

(** The chunks of a text hold, between them, its non-blank characters. *)
Lemma chunk_chars_total (text : string) (max_words : Z) :
  sum_list (Notions.non_spaces <$> smart_split text max_words) = Notions.non_blanks text.
Proof.
  destruct (smart_split_groups text max_words) as (groups & -> & Hcat & _).
  pose proof (split_from_chars text "" eq_refl) as Hwords.
  cbn [String.length Nat.add] in Hwords. rewrite <- Hwords.
  fold (PyStr.split text). rewrite <- Hcat.
  clear. induction groups as [|g groups IH]; [reflexivity |].
  cbn [fmap list_fmap sum_list sum_list_with id concat]. rewrite fmap_app, sum_list_with_app, <- IH.
  by rewrite non_spaces_join.
Qed.

End SegmentFacts.

Section TimingFacts.
Import KaraokeManager.

Variable total_chars : Z.
Variable total_duration : Q.
Hypothesis chars_positive : (0 < total_chars)%Z.

Abbreviation loop := (segment_loop total_chars total_duration).
Abbreviation share n := (inject_Z (Z.of_nat n) / inject_Z total_chars * total_duration).

Lemma total_chars_nonzero : ¬ inject_Z total_chars == 0.
Proof.
  intros H. unfold Qeq in H. cbn in H. pose proof chars_positive. lia.
Qed.

Lemma segment_loop_app (chunks : list string) :
  ∀ segments start, loop chunks segments start = segments ++ loop chunks [] start.
Proof.
  induction chunks as [|c chunks IH]; intros segments start.
  - cbn. by rewrite app_nil_r.
  - cbn [segment_loop]. cbv zeta. rewrite IH, (IH ([] ++ _)), <- app_assoc. reflexivity.
Qed.

Lemma segment_loop_cons (c : string) (chunks : list string) (start : Q) :
  loop (c :: chunks) [] start =
    mkSegment c start (start + share (Notions.non_spaces c)) (share (Notions.non_spaces c))
      :: loop chunks [] (start + share (Notions.non_spaces c)).
Proof.
  cbn [segment_loop]. cbv zeta. rewrite segment_loop_app, count_chars_non_spaces. reflexivity.
Qed.

Lemma share_add (a b : nat) : share (a + b) == share a + share b.
Proof.
  rewrite Nat2Z.inj_add, inject_Z_plus. field. exact total_chars_nonzero.
Qed.

Lemma share_nonneg (n : nat) : 0 <= total_duration → 0 <= share n.
Proof.
  intros Hd. apply Qmult_le_0_compat; [| exact Hd].
  apply Qle_shift_div_l.
  - change 0 with (inject_Z 0). rewrite <- Zlt_Qlt. exact chars_positive.
  - rewrite Qmult_0_l. change 0 with (inject_Z 0). rewrite <- Zle_Qle. lia.
Qed.

(** The segments follow the chunks and each other. *)
Lemma segment_loop_tiles (chunks : list string) :
  ∀ start,
    seg_text <$> loop chunks [] start = chunks
    ∧ (∀ g, head (loop chunks [] start) = Some g → seg_start g = start)
    ∧ (∀ i g g', loop chunks [] start !! i = Some g →
                 loop chunks [] start !! S i = Some g' → seg_start g' = seg_end g)
    ∧ Forall (λ g, seg_end g = seg_start g + seg_duration g) (loop chunks [] start)
    ∧ (0 <= total_duration → Forall (λ g, 0 <= seg_duration g) (loop chunks [] start))
    ∧ (∀ g, last (loop chunks [] start) = Some g →
            seg_end g == start + share (sum_list (Notions.non_spaces <$> chunks))).
Proof.
  induction chunks as [|c chunks IH]; intros start.
  - cbn. repeat split; try discriminate; try constructor;
      try (intros [|?] ? ? H; discriminate H).
  - rewrite segment_loop_cons.
    destruct (IH (start + share (Notions.non_spaces c))) as (Ht & Hh & Hc & He & Hd & Hl).
    split; [cbn [fmap list_fmap seg_text]; f_equal; exact Ht |].
    split; [intros g [= <-]; reflexivity |].
    split.
    { intros [|i] g g' Hg Hg'.
      - injection Hg as <-. apply Hh. rewrite head_lookup. exact Hg'.
      - exact (Hc i g g' Hg Hg'). }
    split; [constructor; [reflexivity | exact He] |].
    split; [intros Hpos; constructor; [apply share_nonneg, Hpos | exact (Hd Hpos)] |].
    intros g Hg. cbn [fmap list_fmap sum_list sum_list_with id]. rewrite share_add.
    destruct (loop chunks [] (start + share (Notions.non_spaces c))) as [|g1 rest] eqn:E.
    + injection Hg as <-. destruct chunks as [|c' chunks].
      * cbn [seg_end fmap list_fmap sum_list sum_list_with].
        change (inject_Z (Z.of_nat 0)) with 0. field. exact total_chars_nonzero.
      * rewrite segment_loop_cons in E. discriminate E.
    + change (last (?x :: g1 :: rest)) with (last (g1 :: rest)) in Hg.
      rewrite (Hl g Hg). cbn [fmap list_fmap sum_list sum_list_with id]. ring.
Qed.

End TimingFacts.

Section SubtitleFacts.
Import KaraokeManager.

Lemma split_from_words (s : string) :
  ∀ cur, Notions.non_spaces cur = String.length cur →
         Forall (λ w, (0 < Notions.non_spaces w)%nat) (PyStr.split_from cur s).
Proof.
  induction s as [|c s IH]; intros cur Hcur.
  - cbn [PyStr.split_from]. destruct cur as [|d cur]; cbn [PyStr.is_empty]; [constructor |].
    constructor; [rewrite Hcur; cbn; lia | constructor].
  - cbn [PyStr.split_from]. destruct (PyStr.is_space c) eqn:Ec.
    + destruct cur as [|d cur]; cbn [PyStr.is_empty]; [exact (IH "" eq_refl) |].
      constructor; [rewrite Hcur; cbn; lia | exact (IH "" eq_refl)].
    + apply IH. rewrite non_spaces_app, Hcur, !string_length_chars, string_of_list_app,
        length_app. unfold Notions.non_spaces. cbn [list_ascii_of_string].
      rewrite filter_cons_True by (intros ->; discriminate Ec). reflexivity.
Qed.

(** A text with a chunk has a non-blank character. *)
Lemma chunk_has_chars (text : string) (max_words : Z) :
  smart_split text max_words ≠ [] → (0 < Notions.non_blanks text)%nat.
Proof.
  intros Hne. rewrite <- (chunk_chars_total text max_words).
  destruct (smart_split_groups text max_words) as (groups & Hs & Hcat & Hgs).
  rewrite Hs in *. destruct groups as [|g groups]; [done |].
  apply Forall_cons in Hgs as [[Hlen _] _].
  destruct g as [|w g]; [cbn in Hlen; lia |].
  pose proof (split_from_words text "" eq_refl) as Hwords. fold (PyStr.split text) in Hwords.
  rewrite <- Hcat in Hwords. cbn [concat app] in Hwords.
  apply Forall_cons in Hwords as [Hw _].
  cbn [fmap list_fmap sum_list sum_list_with id].
  destruct g as [|w' g].
  - cbn [join]. lia.
  - change (join " " (w :: w' :: g)) with (w +:+ " " +:+ join " " (w' :: g)).
    rewrite non_spaces_app. lia.
Qed.

End SubtitleFacts.

(** Subtitles tile the audio from its start.  For an ASCII text, where the
    model's [split] is that of Python: the segments carry the chunks
    of the text in order; the first starts at 0 and each next one starts
    exactly where the one before ends, so the subtitles neither overlap nor
    leave a gap.  For a clip of non-negative length no segment has a negative
    duration and the last one ends no later than the clip; it ends exactly
    with the clip when the only white space of the text is the space
    character, and strictly before it when the text also holds tabs or line
    breaks, which are counted in the total but belong to no chunk. *)
Theorem subtitles_tile_the_audio (full_text : string) (total_duration : Q) :
  Notions.is_ascii_text full_text →
  let segments := KaraokeManager.generate_timed_audio full_text total_duration in
  KaraokeManager.seg_text <$> segments = KaraokeManager.smart_split full_text 4
  ∧ (∀ g, head segments = Some g → KaraokeManager.seg_start g == 0)
  ∧ (∀ i g g', segments !! i = Some g → segments !! S i = Some g' →
               KaraokeManager.seg_start g' = KaraokeManager.seg_end g)
  ∧ Forall (λ g, KaraokeManager.seg_end g =
                   KaraokeManager.seg_start g + KaraokeManager.seg_duration g) segments
  ∧ (0 <= total_duration →
     Forall (λ g, 0 <= KaraokeManager.seg_duration g) segments
     ∧ ∀ g, last segments = Some g → KaraokeManager.seg_end g <= total_duration)
  ∧ (Notions.non_blanks full_text = Notions.non_spaces full_text →
     ∀ g, last segments = Some g → KaraokeManager.seg_end g == total_duration)
  ∧ ((Notions.non_blanks full_text < Notions.non_spaces full_text)%nat →
     0 < total_duration →
     ∀ g, last segments = Some g → KaraokeManager.seg_end g < total_duration).
Proof.
  intros _ segments. subst segments. unfold KaraokeManager.generate_timed_audio.
  rewrite count_chars_non_spaces.
  set (total_chars := if (Z.of_nat (Notions.non_spaces full_text) =? 0)%Z then 1%Z
                      else Z.of_nat (Notions.non_spaces full_text)).
  assert (Hpos : (0 < total_chars)%Z).
  { subst total_chars. destruct (Z.eqb_spec (Z.of_nat (Notions.non_spaces full_text)) 0); lia. }
  assert (Hle : (Z.of_nat (Notions.non_blanks full_text) <= total_chars)%Z).
  { pose proof (non_blanks_le full_text). subst total_chars.
    destruct (Z.eqb_spec (Z.of_nat (Notions.non_spaces full_text)) 0); lia. }
  destruct (segment_loop_tiles total_chars total_duration Hpos
              (KaraokeManager.smart_split full_text 4) 0.0)
    as (Ht & Hh & Hc & He & Hd & Hl).
  rewrite chunk_chars_total in Hl.
  set (segments := KaraokeManager.segment_loop total_chars total_duration
                     (KaraokeManager.smart_split full_text 4) [] 0.0) in *.
  assert (HposQ : 0 < inject_Z total_chars).
  { change 0 with (inject_Z 0). rewrite <- Zlt_Qlt. exact Hpos. }
  assert (Hratio : inject_Z (Z.of_nat (Notions.non_blanks full_text)) / inject_Z total_chars <= 1).
  { apply Qle_shift_div_r; [exact HposQ |]. rewrite Qmult_1_l, <- Zle_Qle. exact Hle. }
  assert (Hratio0 : 0 <= inject_Z (Z.of_nat (Notions.non_blanks full_text))
                         / inject_Z total_chars).
  { apply Qle_shift_div_l; [exact HposQ |]. rewrite Qmult_0_l.
    change 0 with (inject_Z 0). rewrite <- Zle_Qle. lia. }
  set (ratio := inject_Z (Z.of_nat (Notions.non_blanks full_text)) / inject_Z total_chars) in *.
  split; [exact Ht |].
  split; [intros g Hg; rewrite (Hh g Hg); reflexivity |].
  split; [exact Hc |]. split; [exact He |].
  split.
  { intros Hdur. split; [exact (Hd Hdur) |]. intros g Hg. rewrite (Hl g Hg).
    assert (ratio * total_duration <= 1 * total_duration)
      by (apply Qmult_le_compat_r; assumption).
    set (p := ratio * total_duration) in *. clearbody p. lra. }
  split.
  { intros Heq g Hg. rewrite (Hl g Hg).
    assert (Hne : KaraokeManager.smart_split full_text 4 ≠ []).
    { intros Hnil. rewrite <- Ht in Hnil. destruct segments; [discriminate Hg | discriminate Hnil]. }
    apply chunk_has_chars in Hne.
    assert (Hone : ratio == 1).
    { subst ratio total_chars. rewrite Heq in *.
      destruct (Z.eqb_spec (Z.of_nat (Notions.non_spaces full_text)) 0) as [E | E]; [lia |].
      field. unfold Qeq. cbn. lia. }
    rewrite Hone. ring. }
  intros Hlt Hdur g Hg. rewrite (Hl g Hg).
  assert (Hless : ratio < 1).
  { subst ratio. apply Qlt_shift_div_r; [exact HposQ |]. rewrite Qmult_1_l, <- Zlt_Qlt.
    subst total_chars.
    destruct (Z.eqb_spec (Z.of_nat (Notions.non_spaces full_text)) 0); lia. }
  assert (ratio * total_duration < 1 * total_duration)
    by (apply Qmult_lt_compat_r; assumption).
  set (p := ratio * total_duration) in *. clearbody p. lra.
Qed.

Lemma subtitles_tile_the_audio_witness :
  Notions.is_ascii_text "Plants make food, using sunlight and air."
  ∧ Notions.non_blanks "Plants make food, using sunlight and air." =
      Notions.non_spaces "Plants make food, using sunlight and air."
  ∧ ∀ g, last (KaraokeManager.generate_timed_audio
                 "Plants make food, using sunlight and air." 7.5) = Some g →
         KaraokeManager.seg_end g == 7.5.
Proof.
  assert (Ha : Notions.is_ascii_text "Plants make food, using sunlight and air.").
  { unfold Notions.is_ascii_text. apply (bool_decide_unpack _). vm_compute. exact I. }
  assert (H : Notions.non_blanks "Plants make food, using sunlight and air." =
              Notions.non_spaces "Plants make food, using sunlight and air.")
    by (vm_compute; reflexivity).
  split; [exact Ha | split; [exact H |]].
  exact (proj1 (proj2 (proj2 (proj2 (proj2 (proj2
           (subtitles_tile_the_audio "Plants make food, using sunlight and air." 7.5 Ha))))))
           H).
Defined.

(* ===================================================================== *)
(** * The quota books                                                      *)
(* ===================================================================== *)

Section TrackerFacts.
Import VoiceUsageTracker.

Lemma register_or_keep (t : Tracker) (n : string) :
  match accounts t !! n with
  | None => register_account t n
  | Some _ => t
  end = register_account t n.
Proof. unfold register_account. destruct (accounts t !! n); reflexivity. Qed.

Lemma register_lookup (t : Tracker) (n : string) :
  accounts (register_account t n) !! n =
    Some (default (mkAccount 0 MONTHLY_QUOTA MONTHLY_QUOTA) (accounts t !! n)).
Proof.
  unfold register_account. destruct (accounts t !! n) eqn:E; cbn [accounts default].
  - exact E.
  - apply lookup_insert_eq.
Qed.

Lemma register_lookup_ne (t : Tracker) (n m : string) :
  n ≠ m → accounts (register_account t n) !! m = accounts t !! m.
Proof.
  intros Hne. unfold register_account. destruct (accounts t !! n); [reflexivity |].
  cbn [accounts]. by apply lookup_insert_ne.
Qed.

Lemma register_history (t : Tracker) (n : string) :
  usage_history (register_account t n) = usage_history t
  ∧ last_reset (register_account t n) = last_reset t.
Proof. unfold register_account. destruct (accounts t !! n); auto. Qed.

Lemma register_quota_left (t : Tracker) (n a : string) :
  Notions.quota_left (register_account t n) a = Notions.quota_left t a.
Proof.
  unfold Notions.quota_left. destruct (decide (n = a)) as [<- | Hne].
  - rewrite register_lookup. destruct (accounts t !! n); reflexivity.
  - by rewrite register_lookup_ne.
Qed.

Lemma register_balance (t : Tracker) (n : string) :
  Notions.books_balance t → Notions.books_balance (register_account t n).
Proof.
  intros Hb a. specialize (Hb a). rewrite (proj1 (register_history t n)).
  destruct (decide (n = a)) as [<- | Hne].
  - rewrite register_lookup. destruct (accounts t !! n); cbn [default]; [exact Hb |].
    cbn. rewrite Hb. auto.
  - by rewrite register_lookup_ne.
Qed.

(** With balanced books a status request registers the account, if need
    be, and reports what it has left. *)
Lemma status_balanced (t : Tracker) (n : string) :
  Notions.books_balance t →
  ∃ st, get_account_status t n = (register_account t n, Ok st)
        ∧ status_available st = Notions.quota_left t n.
Proof.
  intros Hb. unfold get_account_status. rewrite register_or_keep. cbv zeta.
  pose proof (register_balance t n Hb n) as Hn. rewrite <- (register_quota_left t n n).
  unfold Notions.quota_left. rewrite register_lookup in *.
  destruct Hn as (Hlimit & _ & _). set (acc := default _ _) in *.
  unfold ShortsEngine.truediv. rewrite Hlimit.
  replace (Qeq_bool (inject_Z MONTHLY_QUOTA) 0) with false by reflexivity.
  cbn [ShortsEngine.bind]. eexists. split; reflexivity.
Qed.

Lemma inspect_nil (t : Tracker) (a : string) :
  Notions.after_inspecting t [] a = accounts t !! a.
Proof.
  unfold Notions.after_inspecting. destruct (accounts t !! a); [reflexivity |].
  rewrite bool_decide_eq_false_2; [reflexivity | apply not_elem_of_nil].
Qed.

(** Registering a name and then inspecting others is inspecting it first. *)
Lemma inspect_cons (t : Tracker) (n : string) (l : list string) (a : string) :
  Notions.after_inspecting (register_account t n) l a = Notions.after_inspecting t (n :: l) a.
Proof.
  unfold Notions.after_inspecting. destruct (decide (n = a)) as [<- | Hne].
  - rewrite register_lookup. destruct (accounts t !! n); cbn [default]; [reflexivity |].
    rewrite bool_decide_eq_true_2; [reflexivity | apply elem_of_cons; by left].
  - rewrite register_lookup_ne by exact Hne. destruct (accounts t !! a); [reflexivity |].
    rewrite (bool_decide_ext (a ∈ n :: l) (a ∈ l)); [reflexivity |].
    rewrite elem_of_cons. split; [intros [H | H]; [congruence | exact H] | by right].
Qed.

Lemma find_balanced (required : Z) (names : list string) :
  ∀ t, Notions.books_balance t →
       ∃ t' r, find_available_account t required names = (t', Ok r)
               ∧ match r with
                 | Some n =>
                     ∃ before after,
                       names = before ++ n :: after
                       ∧ Forall (λ b, (Notions.quota_left t b < required)%Z) before
                       ∧ (required <= Notions.quota_left t n)%Z
                       ∧ ∀ a, accounts t' !! a =
                              Notions.after_inspecting t (before ++ [n]) a
                 | None =>
                     Forall (λ b, (Notions.quota_left t b < required)%Z) names
                     ∧ ∀ a, accounts t' !! a = Notions.after_inspecting t names a
                 end
               ∧ Notions.books_balance t'
               ∧ usage_history t' = usage_history t
               ∧ last_reset t' = last_reset t
               ∧ (∀ a, Notions.quota_left t' a = Notions.quota_left t a)
               ∧ (∀ a acc, accounts t !! a = Some acc → accounts t' !! a = Some acc).
Proof.
  induction names as [|n names IH]; intros t Hb.
  - exists t, None. cbn [find_available_account].
    split; [reflexivity |].
    split; [split; [constructor | intros a; by rewrite inspect_nil] |].
    repeat split; auto.
  - cbn [find_available_account].
    destruct (status_balanced t n Hb) as (st & -> & Hav). rewrite Hav.
    assert (Hkeep : ∀ a acc, accounts t !! a = Some acc →
                             accounts (register_account t n) !! a = Some acc).
    { intros a acc Ha. destruct (decide (n = a)) as [<- | Hne].
      - rewrite register_lookup, Ha. reflexivity.
      - rewrite register_lookup_ne by exact Hne. exact Ha. }
    destruct (required <=? Notions.quota_left t n)%Z eqn:E.
    + apply Z.leb_le in E. exists (register_account t n), (Some n).
      split; [reflexivity |].
      split.
      { exists [], names. split; [reflexivity |]. split; [constructor |].
        split; [exact E |]. intros a. cbn [app]. by rewrite <- inspect_cons, inspect_nil. }
      split; [by apply register_balance |].
      split; [apply register_history |]. split; [apply register_history |].
      split; [intros a; apply register_quota_left | exact Hkeep].
    + apply Z.leb_gt in E.
      destruct (IH (register_account t n) (register_balance t n Hb))
        as (t' & r & Hrun & Hr & Hb' & Hh & Hm & Hq & Hk).
      exists t', r. split; [exact Hrun |].
      split.
      { destruct r as [m|].
        - destruct Hr as (before & after & -> & Hbefore & Hfit & Hacc).
          exists (n :: before), after. split; [reflexivity |].
          rewrite register_quota_left in Hfit.
          split; [| split; [exact Hfit |]].
          + constructor; [exact E |]. eapply Forall_impl; [exact Hbefore |].
            intros b. cbv beta. by rewrite register_quota_left.
          + intros a. rewrite Hacc. cbn [app]. apply inspect_cons.
        - destruct Hr as [Hr Hacc]. split.
          + constructor; [exact E |]. eapply Forall_impl; [exact Hr |].
            intros b. cbv beta. by rewrite register_quota_left.
          + intros a. rewrite Hacc. apply inspect_cons. }
      split; [exact Hb' |].
      split; [rewrite Hh; apply register_history |].
      split; [rewrite Hm; apply register_history |].
      split; [intros a; rewrite Hq; apply register_quota_left |].
      intros a acc Ha. apply Hk, Hkeep, Ha.
Qed.

End TrackerFacts.

(** The first account with enough quota is chosen.  On a tracker whose
    books balance, [find_available_account] does not raise and returns the first
    name of the list whose account has at least the required characters
    left, an account not yet registered counting with the full monthly
    quota; it returns [None] exactly when no account of the list has
    enough.  The search registers the accounts it looks at: afterwards the
    names up to and including the one returned (all names, for [None]) have
    an entry, a new one with nothing used and the full quota where there was
    none, and no other name has gained one.  It changes no quota and no
    history. *)
Theorem find_available_account_first_fit (t : VoiceUsageTracker.Tracker)
    (required_chars : Z) (account_names : list string) :
  Notions.books_balance t →
  ∃ t' found,
    VoiceUsageTracker.find_available_account t required_chars account_names = (t', Ok found)
    ∧ match found with
      | Some name =>
          ∃ before after,
            account_names = before ++ name :: after
            ∧ Forall (λ b, (Notions.quota_left t b < required_chars)%Z) before
            ∧ (required_chars <= Notions.quota_left t name)%Z
            ∧ ∀ a, VoiceUsageTracker.accounts t' !! a =
                   Notions.after_inspecting t (before ++ [name]) a
      | None =>
          Forall (λ b, (Notions.quota_left t b < required_chars)%Z) account_names
          ∧ ∀ a, VoiceUsageTracker.accounts t' !! a =
                 Notions.after_inspecting t account_names a
      end
    ∧ VoiceUsageTracker.usage_history t' = VoiceUsageTracker.usage_history t
    ∧ (∀ a, Notions.quota_left t' a = Notions.quota_left t a)
    ∧ (∀ a acc, VoiceUsageTracker.accounts t !! a = Some acc →
                VoiceUsageTracker.accounts t' !! a = Some acc).
Proof.
  intros Hb.
  destruct (find_balanced required_chars account_names t Hb)
    as (t' & r & Hrun & Hr & _ & Hh & _ & Hq & Hk).
  exists t', r. auto.
Qed.

(** The first account has one thousand characters left and 2500 are
    needed: the search passes it over, registers the second account and
    returns it; a third name of the list is not looked at. *)
Lemma find_available_account_first_fit_witness :
  Notions.books_balance Notions.nearly_spent
  ∧ ∃ t', VoiceUsageTracker.find_available_account Notions.nearly_spent 2500
            ["google_account1"; "google_account2"; "google_account3"]
          = (t', Ok (Some "google_account2"))
          ∧ VoiceUsageTracker.accounts t' !! "google_account2" =
              Some (VoiceUsageTracker.mkAccount 0 1000000 1000000)
          ∧ VoiceUsageTracker.accounts t' !! "google_account3" = None.
Proof.
  assert (H : Notions.books_balance Notions.nearly_spent).
  { intros a. unfold Notions.nearly_spent.
    cbn [VoiceUsageTracker.accounts VoiceUsageTracker.usage_history].
    destruct (decide (a = "google_account1")) as [-> | Hne].
    - vm_compute. auto.
    - rewrite lookup_singleton_ne by congruence.
      unfold Notions.logged_google. rewrite filter_cons_False; [reflexivity |].
      cbn [VoiceUsageTracker.entry_account]. intros [_ Ha]. congruence. }
  split; [exact H |].
  destruct (find_available_account_first_fit Notions.nearly_spent 2500
              ["google_account1"; "google_account2"; "google_account3"] H)
    as (t' & found & Hrun & Hfound & _).
  exists t'.
  assert (Hres : found = Some "google_account2").
  { vm_compute in Hrun. injection Hrun as _ <-. reflexivity. }
  subst found. split; [exact Hrun |].
  destruct Hfound as (before & after & Hnames & _ & _ & Hacc).
  assert (Hbefore : before = ["google_account1"]).
  { destruct before as [|b1 before]; cbn in Hnames.
    { injection Hnames as Hc _. discriminate Hc. }
    injection Hnames as <- Hnames. destruct before as [|b2 before]; cbn in Hnames.
    { reflexivity. }
    injection Hnames as <- Hnames. destruct before as [|b3 before]; cbn in Hnames.
    { injection Hnames as Hc _. discriminate Hc. }
    injection Hnames as _ Hnames. destruct before; discriminate Hnames. }
  subst before. rewrite !Hacc. split; vm_compute; reflexivity.
Defined.

Section BookFacts.
Import VoiceUsageTracker.

Lemma logged_google_snoc (a : string) (history : list LogEntry) (e : LogEntry) :
  Notions.logged_google a (history ++ [e]) =
    (Notions.logged_google a history
     + (if decide (entry_provider e = "google" ∧ entry_account e = a)
        then entry_chars e else 0))%Z.
Proof.
  unfold Notions.logged_google. rewrite filter_app, fmap_app, foldr_app.
  set (P := λ e0 : LogEntry, entry_provider e0 = "google" ∧ entry_account e0 = a).
  assert (Hshift : ∀ (l : list Z) (z : Z), foldr Z.add z l = (foldr Z.add 0 l + z)%Z).
  { induction l as [|x l IH]; intros z; cbn [foldr]; [lia |]. rewrite IH. lia. }
  rewrite Hshift. f_equal.
  destruct (decide (entry_provider e = "google" ∧ entry_account e = a)) as [Hy | Hn].
  - rewrite (filter_cons_True P) by exact Hy. cbn. lia.
  - rewrite (filter_cons_False P) by exact Hn. reflexivity.
Qed.

(** With balanced books logging never raises, adds one entry to the
    history, and leaves the books balanced. *)
Lemma log_balanced (t : Tracker) (now n provider : string) (chars_used : Z)
    (voice : string) (video_id : option string) :
  Notions.books_balance t →
  ∃ t', log_usage t now n provider chars_used voice video_id = Ok t'
        ∧ Notions.books_balance t'
        ∧ length (usage_history t') = S (length (usage_history t))
        ∧ last_reset t' = last_reset t
        ∧ (provider ≠ "google" → accounts t' = accounts t)
        ∧ (provider = "google" →
           Notions.quota_left t' n = (Notions.quota_left t n - chars_used)%Z
           ∧ ∀ a, a ≠ n → Notions.quota_left t' a = Notions.quota_left t a).
Proof.
  intros Hb. unfold log_usage. destruct (String.eqb provider "google") eqn:Ep.
  - apply String.eqb_eq in Ep. subst provider. rewrite register_or_keep.
    pose proof (register_balance t n Hb) as Hb1.
    pose proof (Hb1 n) as Hn.
    assert (Hq : Notions.quota_left t n =
                 available (default (mkAccount 0 MONTHLY_QUOTA MONTHLY_QUOTA) (accounts t !! n))).
    { unfold Notions.quota_left. destruct (accounts t !! n); reflexivity. }
    rewrite register_lookup in *.
    set (acc := default _ _) in *. cbn [ShortsEngine.bind]. cbv zeta. cbn [ShortsEngine.bind].
    eexists. split; [reflexivity |]. cbn [usage_history accounts last_reset].
    destruct Hn as (Hlimit & Hav & Hused). rewrite (proj1 (register_history t n)) in *.
    split.
    { intros a. cbn [usage_history accounts]. rewrite logged_google_snoc.
      cbn [entry_provider entry_account entry_chars].
      destruct (decide (n = a)) as [<- | Hne].
      - rewrite lookup_insert_eq. cbn [quota_limit available used_chars].
        rewrite decide_True by done. rewrite Hused. auto.
      - rewrite lookup_insert_ne by exact Hne.
        rewrite decide_False by (intros [_ H]; contradiction).
        specialize (Hb1 a). rewrite register_lookup_ne in Hb1 by exact Hne.
        rewrite (proj1 (register_history t n)) in Hb1. rewrite Z.add_0_r.
        rewrite register_lookup_ne by exact Hne. exact Hb1. }
    split; [rewrite length_app; cbn; lia |].
    split; [apply register_history |].
    split; [intros H; contradiction |].
    intros _. unfold Notions.quota_left at 1 3. cbn [accounts].
    split.
    + rewrite lookup_insert_eq. cbn [available]. rewrite Hq, Hav. lia.
    + intros a Ha. rewrite lookup_insert_ne by congruence.
      rewrite register_lookup_ne by congruence. reflexivity.
  - apply String.eqb_neq in Ep. cbn [ShortsEngine.bind]. eexists. split; [reflexivity |].
    cbn [usage_history accounts last_reset].
    split.
    { intros a. cbn [usage_history accounts]. rewrite logged_google_snoc.
      cbn [entry_provider]. rewrite decide_False by (intros [H _]; contradiction).
      rewrite Z.add_0_r. exact (Hb a). }
    split; [rewrite length_app; cbn; lia |].
    split; [reflexivity |]. split; [reflexivity | intros H; contradiction].
Qed.

(** Every call keeps the books balanced. *)
Lemma call_balanced (t : Tracker) (c : Call) :
  Notions.books_balance t →
  ∃ t', call t c = Ok t'
        ∧ Notions.books_balance t'
        ∧ length (usage_history t') =
            (length (usage_history t) + (if Notions.is_log c then 1 else 0))%nat
        ∧ last_reset t' = last_reset t.
Proof.
  intros Hb. destruct c as [n | n | required names | now n provider chars_used voice video_id];
    cbn [call Notions.is_log].
  - exists (register_account t n). split; [reflexivity |].
    split; [by apply register_balance |].
    rewrite (proj1 (register_history t n)). split; [lia | apply register_history].
  - destruct (status_balanced t n Hb) as (st & -> & _). cbn [ShortsEngine.bind].
    exists (register_account t n). split; [reflexivity |].
    split; [by apply register_balance |].
    rewrite (proj1 (register_history t n)). split; [lia | apply register_history].
  - destruct (find_balanced required names t Hb) as (t' & r & -> & _ & Hb' & Hh & Hm & _).
    cbn [ShortsEngine.bind]. exists t'. split; [reflexivity |].
    split; [exact Hb' |]. rewrite Hh. split; [lia | exact Hm].
  - destruct (log_balanced t now n provider chars_used voice video_id Hb)
      as (t' & Hrun & Hb' & Hlen & Hm & _).
    exists t'. split; [exact Hrun |]. split; [exact Hb' |]. split; [lia | exact Hm].
Qed.

Lemma run_balanced (calls : list Call) :
  ∀ t, Notions.books_balance t →
       ∃ t', run t calls = Ok t'
             ∧ Notions.books_balance t'
             ∧ length (usage_history t') =
                 (length (usage_history t) + length (filter (λ c, Notions.is_log c = true) calls))%nat
             ∧ last_reset t' = last_reset t.
Proof.
  induction calls as [|c calls IH]; intros t Hb.
  - exists t. cbn. repeat split; auto; lia.
  - cbn [run]. destruct (call_balanced t c Hb) as (t1 & -> & Hb1 & Hlen1 & Hm1).
    cbn [ShortsEngine.bind].
    destruct (IH t1 Hb1) as (t' & Hrun & Hb' & Hlen & Hm).
    exists t'. split; [exact Hrun |]. split; [exact Hb' |].
    split; [| congruence]. rewrite Hlen, Hlen1.
    destruct (Notions.is_log c) eqn:E.
    + rewrite filter_cons_True by exact E. cbn [length]. lia.
    + rewrite filter_cons_False by (rewrite E; discriminate). lia.
Qed.

End BookFacts.

(** The quota books always balance.  Starting from a tracker that found no
    files, no sequence of calls to [register_account], [get_account_status],
    [find_available_account] and [log_usage] ever raises, and after it every
    account has the monthly quota as its limit, has available exactly its
    limit less its used characters, and has used exactly the characters the
    history records for it with the provider [google]; accounts that are not
    registered have no such usage.  The history holds one entry for each
    [log_usage] call. *)
Theorem quota_books_always_balance (current_month : string)
    (calls : list VoiceUsageTracker.Call) :
  ∃ t, VoiceUsageTracker.run (VoiceUsageTracker.fresh current_month) calls = Ok t
       ∧ Notions.books_balance t
       ∧ length (VoiceUsageTracker.usage_history t) =
           length (filter (λ c, Notions.is_log c = true) calls)
       ∧ VoiceUsageTracker.last_reset t = current_month.
Proof.
  destruct (run_balanced calls (VoiceUsageTracker.fresh current_month))
    as (t & Hrun & Hb & Hlen & Hm).
  - intros a. unfold VoiceUsageTracker.fresh. cbn [VoiceUsageTracker.accounts].
    rewrite lookup_empty. reflexivity.
  - exists t. auto.
Qed.

(** Logged usage comes off the quota of its account only.  On a tracker
    whose books balance, [log_usage] does not raise and adds one entry to the
    history; usage with the provider [google] lowers what the account has
    left by exactly the characters used, below zero if need be, and leaves
    every other account as it was; usage with any other provider leaves all
    accounts untouched. *)
Theorem log_usage_charges_one_account (t : VoiceUsageTracker.Tracker)
    (now account_name provider : string) (chars_used : Z) (voice_used : string)
    (video_id : option string) :
  Notions.books_balance t →
  ∃ t', VoiceUsageTracker.log_usage t now account_name provider chars_used voice_used
          video_id = Ok t'
        ∧ length (VoiceUsageTracker.usage_history t') =
            S (length (VoiceUsageTracker.usage_history t))
        ∧ (provider ≠ "google" → VoiceUsageTracker.accounts t' = VoiceUsageTracker.accounts t)
        ∧ (provider = "google" →
           Notions.quota_left t' account_name =
             (Notions.quota_left t account_name - chars_used)%Z
           ∧ ∀ a, a ≠ account_name → Notions.quota_left t' a = Notions.quota_left t a).
Proof.
  intros Hb.
  destruct (log_balanced t now account_name provider chars_used voice_used video_id Hb)
    as (t' & Hrun & _ & Hlen & _ & Hother & Hgoogle).
  exists t'. auto.
Qed.

Lemma log_usage_charges_one_account_witness :
  Notions.books_balance (VoiceUsageTracker.fresh "2026-11")
  ∧ ∃ t', VoiceUsageTracker.log_usage (VoiceUsageTracker.fresh "2026-11")
            "2026-11-04T10:00:00" "google_account1" "google" 1200000 "en-IN-Neural2-A" None
          = Ok t'
          ∧ Notions.quota_left t' "google_account1" = (-200000)%Z.
Proof.
  assert (H : Notions.books_balance (VoiceUsageTracker.fresh "2026-11")).
  { intros a. unfold VoiceUsageTracker.fresh. cbn [VoiceUsageTracker.accounts].
    rewrite lookup_empty. reflexivity. }
  split; [exact H |].
  destruct (log_usage_charges_one_account (VoiceUsageTracker.fresh "2026-11")
              "2026-11-04T10:00:00" "google_account1" "google" 1200000 "en-IN-Neural2-A"
              None H) as (t' & Hrun & _ & _ & Hgoogle).
  exists t'. split; [exact Hrun |].
  rewrite (proj1 (Hgoogle eq_refl)). reflexivity.
Defined.
